(** * elk/training/ccs_reporter.py: the CCS reporter

    A shallow embedding of [CcsReporter]: the constructor,
    [reset_parameters], the loss composers [loss] and [lossm], the
    optimisation drivers, the restart loop of [fit] and [fitold], and
    [check_separability].

    Python floats are IEEE binary64 values ([spec_float] with precision 53
    and maximal exponent 1024), so that [<] and [math.isfinite] behave on
    NaN and the infinities as they do in Python.  Tensors are a shape and a
    row-major buffer.  The elements of a tensor, and the torch and elk
    modules this file only calls (SpectralNorm, Normalizer, Classifier, the
    loss registry, the optimisers, autograd), are parameters of the
    development. *)

From Stdlib Require Import String ZArith List Bool Lia PeanoNat.
From Stdlib Require Import Floats.SpecFloat.
Import ListNotations.

Set Implicit Arguments.

(** ** Python values: exceptions, results, floats *)

Inductive exn : Type :=
| ValueError
| RuntimeError
| IndexError
| TypeError
| KeyError
| AssertionError
| AttributeError.

Inductive result (A : Type) : Type :=
| Ok (a : A)
| Raise (e : exn).

Arguments Ok {A} a.
Arguments Raise {A} e.

Definition rbind {A B} (m : result A) (k : A -> result B) : result B :=
  match m with
  | Ok a => k a
  | Raise e => Raise e
  end.

Declare Scope result_scope.
Delimit Scope result_scope with result.
Notation "'let?' x ':=' m 'in' k" := (rbind m (fun x => k))
  (at level 10, x pattern, m at level 100, k at level 200) : result_scope.
Local Open Scope result_scope.

(** [[f x for x in l]] where [f] may raise: the first exception wins. *)
Fixpoint rmap {A B} (f : A -> result B) (l : list A) : result (list B) :=
  match l with
  | [] => Ok []
  | x :: l' =>
      let? y := f x in
      let? ys := rmap f l' in
      Ok (y :: ys)
  end.

Module PyFloat.

Definition prec : Z := 53.
Definition emax : Z := 1024.

Definition t : Type := spec_float.

Definition inf : t := S754_infinity false.
Definition nan : t := S754_nan.
Definition of_Z (z : Z) : t := binary_normalize prec emax z 0 false.
Definition zero : t := S754_zero false.
Definition one : t := Eval vm_compute in of_Z 1.
Definition two : t := Eval vm_compute in of_Z 2.
Definition half : t := Eval vm_compute in binary_normalize prec emax 1 (-1) false.

Definition sub : t -> t -> t := SFsub prec emax.
Definition ltb : t -> t -> bool := SFltb.
Definition leb : t -> t -> bool := SFleb.

(** [math.isfinite] *)
Definition isfinite (x : t) : bool :=
  match x with
  | S754_zero _ | S754_finite _ _ _ => true
  | S754_infinity _ | S754_nan => false
  end.

Definition isnan (x : t) : bool :=
  match x with
  | S754_nan => true
  | _ => false
  end.

End PyFloat.

Abbreviation pyfloat := PyFloat.t.

(** ** Tensors *)

(** The arithmetic of tensor elements.  [rconst] is a Python number used as
    a scalar operand of a tensor operation, [ritem] is [float(t)] (and
    [t.item()]) on a one-element tensor. *)
Class Elem : Type := {
  R : Type;
  rconst : pyfloat -> R;
  ritem : R -> pyfloat;
  radd : R -> R -> R;
  rsub : R -> R -> R;
  rmul : R -> R -> R;
  rdiv : R -> R -> R;
  rmax : R -> R -> R;
  rsquare : R -> R;
  rsigmoid : R -> R;
  rnonzero : R -> bool;
}.

Section Tensors.

Context {E : Elem}.

Record tensor : Type := mkT { shape : list nat; data : list R }.

Definition numel (s : list nat) : nat := fold_right Nat.mul 1 s.

(** The buffer holds one element per index. *)
Definition wf (t : tensor) : Prop := length (data t) = numel (shape t).

Definition tmap (f : R -> R) (t : tensor) : tensor :=
  mkT (shape t) (map f (data t)).

(** [len(t)] *)
Definition tlen (t : tensor) : result nat :=
  match shape t with
  | [] => Raise TypeError
  | d :: _ => Ok d
  end.

(** [t.shape[i]] *)
Definition shape_at (t : tensor) (i : nat) : result nat :=
  match nth_error (shape t) i with
  | Some d => Ok d
  | None => Raise IndexError
  end.

(** [t[:n]] *)
Definition slice0 (n : nat) (t : tensor) : result tensor :=
  match shape t with
  | [] => Raise IndexError
  | d :: s => Ok (mkT (Nat.min n d :: s) (firstn (Nat.min n d * numel s) (data t)))
  end.

(** [t.squeeze(-1)] *)
Definition squeeze_last (t : tensor) : tensor :=
  if last (shape t) 0 =? 1 then mkT (removelast (shape t)) (data t) else t.

(** [t.flatten()] *)
Definition flatten (t : tensor) : tensor := mkT [length (data t)] (data t).

(** [t.flatten(0, 1)] *)
Definition flatten01 (t : tensor) : result tensor :=
  match shape t with
  | a :: b :: s => Ok (mkT (a * b :: s) (data t))
  | _ => Raise IndexError
  end.

(** [n] consecutive blocks of [k] elements. *)
Fixpoint chunks {A} (k n : nat) (l : list A) : list (list A) :=
  match n with
  | 0 => []
  | S n' => firstn k l :: chunks k n' (skipn k l)
  end.

(** [t[..., 0]] *)
Definition select_last0 (t : tensor) : result tensor :=
  match rev (shape t) with
  | [] => Raise IndexError
  | 0 :: _ => Raise IndexError
  | d :: s =>
      Ok (mkT (rev s)
              (flat_map (firstn 1) (chunks d (numel s) (data t))))
  end.

(** Equality of shapes. *)
Fixpoint shape_eqb (a b : list nat) : bool :=
  match a, b with
  | [], [] => true
  | x :: a', y :: b' => (x =? y) && shape_eqb a' b'
  | _, _ => false
  end.

(** [torch.cat([a, b])]: the shapes agree after the first axis; a tensor
    of shape [(0,)] is skipped. *)
Definition cat0 (a b : tensor) : result tensor :=
  match shape a, shape b with
  | da :: sa, db :: sb =>
      if shape_eqb sa sb
      then Ok (mkT (da + db :: sa) (data a ++ data b))
      else if shape_eqb (shape a) [0] then Ok b
      else if shape_eqb (shape b) [0] then Ok a
      else Raise RuntimeError
  | _, _ => Raise RuntimeError
  end.

(** [t.repeat_interleave(k)]: the input is flattened, every element is
    repeated [k] times in place. *)
Definition repeat_interleave (k : nat) (t : tensor) : tensor :=
  let d := flat_map (fun x => repeat x k) (data t) in mkT [length d] d.

(** [t.any()]: some element is not zero. *)
Definition tany (t : tensor) : bool := existsb rnonzero (data t).

(** *** Broadcasting *)

(** The broadcast of two shapes, both read from the last axis. *)
Fixpoint broadcast_rev (a b : list nat) {struct a} : option (list nat) :=
  match a, b with
  | [], _ => Some b
  | _, [] => Some a
  | x :: a', y :: b' =>
      match broadcast_rev a' b' with
      | None => None
      | Some s =>
          if x =? y then Some (x :: s)
          else if x =? 1 then Some (y :: s)
          else if y =? 1 then Some (x :: s)
          else None
      end
  end.

Definition broadcast_shape (a b : list nat) : option (list nat) :=
  option_map (@rev nat) (broadcast_rev (rev a) (rev b)).

(** A shape with axes of size 1 added in front, up to rank [n]. *)
Definition pad_shape (n : nat) (s : list nat) : list nat :=
  repeat 1 (n - length s) ++ s.

(** The buffer of a tensor of shape [s] expanded to shape [t]: an axis
    of size 1 is repeated. *)
Fixpoint expand (s t : list nat) (l : list R) {struct s} : list R :=
  match s, t with
  | d :: s', D :: t' =>
      if d =? D
      then concat (map (expand s' t') (chunks (numel s') d l))
      else concat (repeat (expand s' t' l) D)
  | _, _ => l
  end.

Fixpoint zip_with (f : R -> R -> R) (l1 l2 : list R) : list R :=
  match l1, l2 with
  | x :: l1', y :: l2' => f x y :: zip_with f l1' l2'
  | _, _ => []
  end.

(** An element-wise binary operation of two tensors. *)
Definition tmap2 (f : R -> R -> R) (a b : tensor) : result tensor :=
  match broadcast_shape (shape a) (shape b) with
  | None => Raise RuntimeError
  | Some s =>
      let n := length s in
      Ok (mkT s (zip_with f (expand (pad_shape n (shape a)) s (data a))
                            (expand (pad_shape n (shape b)) s (data b))))
  end.

(** *** Stacking and reducing along the last axis *)

(** The first [n] columns of a list of rows. *)
Fixpoint columns (n : nat) (rows : list (list R)) : list (list R) :=
  match n with
  | 0 => []
  | S n' => flat_map (firstn 1) rows :: columns n' (map (skipn 1) rows)
  end.

(** [torch.stack(ts, dim=-1)] *)
Definition stack_last (ts : list tensor) : result tensor :=
  match ts with
  | [] => Raise RuntimeError
  | t0 :: rest =>
      if forallb (fun t => shape_eqb (shape t) (shape t0)) rest
      then Ok (mkT (shape t0 ++ [length ts])
                   (concat (columns (numel (shape t0)) (map data ts))))
      else Raise RuntimeError
  end.

Definition reduce_max (row : list R) : list R :=
  match row with
  | [] => []
  | x :: xs => [fold_left rmax xs x]
  end.

(** The values of [torch.max(t, dim=-1)] *)
Definition max_last (t : tensor) : result tensor :=
  match rev (shape t) with
  | [] => Ok t
  | 0 :: _ => Raise IndexError
  | k :: s =>
      Ok (mkT (rev s) (flat_map reduce_max (chunks k (numel s) (data t))))
  end.

(** [t.unbind(2)]: one tensor per index of the third axis. *)
Definition unbind2 (t : tensor) : result (list tensor) :=
  match shape t with
  | a :: b :: k :: s =>
      Ok (map (fun g =>
                 mkT (a :: b :: s)
                     (flat_map (fun blk => firstn (numel s) (skipn (g * numel s) blk))
                               (chunks (k * numel s) (a * b) (data t))))
              (seq 0 k))
  | _ => Raise IndexError
  end.

End Tensors.

(** ** Configuration *)

Inductive activation_kind : Type := Gelu | Relu | Swish.

Inductive init_kind : Type :=
| InitDefault
| InitPca
| InitSpherical
| InitZero
| InitOther (name : string).

Inductive optimizer_kind : Type :=
| Adam
| Lbfgs
| OptimizerOther (name : string).

Module Config.

(** [CcsReporterConfig] after [__post_init__]: [loss_dict] is the parsed
    loss specification, in the order of the dict. *)
Record t : Type := mk {
  activation : activation_kind;
  bias : bool;
  hidden_size : option nat;
  init : init_kind;
  loss_dict : list (string * pyfloat);
  num_layers : Z;
  pre_ln : bool;
  supervised_weight : pyfloat;
  lr : pyfloat;
  num_epochs : Z;
  num_tries : Z;
  optimizer : optimizer_kind;
  weight_decay : pyfloat;
}.

End Config.

(** ** The modules and functions the reporter calls *)

Section Modules.

Context {E : Elem}.

(** [nn.Linear]: a weight and an optional bias. *)
Record Linear : Type := mkLinear {
  lin_in_features : nat;
  weight : tensor;
  lin_bias : option tensor;
}.

(** The members of the [nn.Sequential] probe. *)
Inductive layer : Type :=
| LayerNorm
| Lin (l : Linear)
| Act (a : activation_kind).

(** An entry of the loss registry [LOSSES]: called with two logit
    tensors and a coefficient by [unsupervised_loss], with a list of
    logit tensors and a coefficient by [unsupervised_lossm]. *)
Record loss_term : Type := mkTerm {
  pair_form : tensor -> tensor -> pyfloat -> R;
  group_form : list tensor -> pyfloat -> R;
}.

(** One run of [optimizer.step(closure)] of [torch.optim.LBFGS]: the
    optimiser moves the parameters to a point and calls the closure
    there, any number of times, each time reading the value the closure
    returns and the gradients it leaves; then it stores the final
    parameters and returns. *)
Inductive lbfgs_run (G : Type) : Type :=
| LbfgsDone (final : list tensor)
| LbfgsEval (point : list tensor) (next : pyfloat -> G -> lbfgs_run G).

(** The modules of torch and elk that [ccs_reporter.py] uses: their code
    is not in that file ([Normalizer] is not even imported there), so they
    are taken as they are called. *)
Class Torch : Type := {
  (** [SpectralNorm], with its [update] and its learnable state *)
  SpectralNorm : Type;
  sn_new : nat -> SpectralNorm;
  sn_call : SpectralNorm -> tensor -> tensor;
  sn_update : SpectralNorm -> tensor -> tensor -> SpectralNorm;
  sn_parameters : SpectralNorm -> list tensor;
  sn_assign : SpectralNorm -> list tensor -> SpectralNorm;
  (** [Normalizer], with [fit] and [__call__] *)
  Normalizer : Type;
  nz_new : nat -> Normalizer;
  nz_fit : Normalizer -> tensor -> Normalizer;
  nz_call : Normalizer -> tensor -> tensor;
  (** the forward pass of the layers of the probe *)
  linear_forward : Linear -> tensor -> tensor;
  layernorm_forward : tensor -> tensor;
  act_forward : activation_kind -> tensor -> tensor;
  (** the global random state and what draws from it *)
  RNG : Type;
  linear_new : RNG -> nat -> nat -> bool -> Linear * RNG;
  linear_reset : RNG -> Linear -> Linear * RNG;
  randn : RNG -> list nat -> tensor * RNG;
  pca_lowrank_last : RNG -> tensor -> nat -> tensor * RNG;
  (** the loss registry, the binary cross-entropy, the tensor norm *)
  LOSSES : string -> option loss_term;
  bce : list R -> list R -> R;
  vnorm : list R -> R;
  (** autograd and the optimisers *)
  Grads : Type;
  backward : R -> Grads;
  AdamW : Type;
  adamw_new : list tensor -> pyfloat -> pyfloat -> AdamW;
  adamw_step : AdamW -> list tensor -> Grads -> list tensor * AdamW;
  lbfgs_step : Z -> pyfloat -> list tensor -> lbfgs_run Grads;
  finfo_eps : tensor -> pyfloat;
  (** [Classifier] and [roc_auc] *)
  Classifier : Type;
  clf_new : nat -> Classifier;
  clf_fit : Classifier -> tensor -> tensor -> pyfloat -> Classifier;
  clf_call : Classifier -> tensor -> tensor;
  roc_auc : tensor -> tensor -> result R;
  (** the exception of a tensor function called on a Python list *)
  not_a_tensor : exn;
}.

End Modules.

Arguments LbfgsDone {E G} final.
Arguments LbfgsEval {E G} point next.

(** ** The reporter *)

Section Reporter.

Context {E : Elem} {T : Torch}.

Record CcsReporter : Type := mkReporter {
  config : Config.t;
  in_features : nat;
  bias : tensor;      (* Platt scaling *)
  scale : tensor;     (* Platt scaling *)
  norms : list Normalizer;
  norm : SpectralNorm;
  probe : list layer;
}.

(** [state_dict()]: the parameters and buffers of the registered
    modules.  [norms] is a plain Python list and is not part of it. *)
Record StateDict : Type := mkSD {
  sd_bias : tensor;
  sd_scale : tensor;
  sd_norm : SpectralNorm;
  sd_probe : list layer;
}.

Definition state_dict (self : CcsReporter) : StateDict :=
  mkSD (bias self) (scale self) (norm self) (probe self).

(** [load_state_dict] of a complete state dict. *)
Definition load_state_dict (sd : StateDict) (self : CcsReporter) : CcsReporter :=
  mkReporter (config self) (in_features self)
             (sd_bias sd) (sd_scale sd) (norms self) (sd_norm sd) (sd_probe sd).

(** *** [__init__] *)

Definition zeros (s : list nat) : tensor :=
  mkT s (repeat (rconst PyFloat.zero) (numel s)).

Definition ones (s : list nat) : tensor :=
  mkT s (repeat (rconst PyFloat.one) (numel s)).

(** The layers appended for [i = i0, ..., i0 + n - 1]. *)
Fixpoint hidden_layers (cfg : Config.t) (hidden : nat) (n : nat) (i : Z) (g : RNG)
  : list layer * RNG :=
  match n with
  | 0 => ([], g)
  | S n' =>
      let out := if (i =? Config.num_layers cfg - 1)%Z then 1 else hidden in
      let (l, g1) := linear_new g hidden out (Config.bias cfg) in
      let (rest, g2) := hidden_layers cfg hidden n' (i + 1)%Z g1 in
      (Act (Config.activation cfg) :: Lin l :: rest, g2)
  end.

Definition init (cfg : Config.t) (in_feat : nat) (g : RNG) : CcsReporter * RNG :=
  let b := zeros [1] in
  let s := ones [1] in
  let hidden :=
    match Config.hidden_size cfg with
    | Some (S h) => S h
    | _ => 4 * in_feat / 3
    end in
  let num_norms := 4 in
  let nms := map (fun _ => nz_new in_feat) (seq 0 num_norms) in
  let nrm := sn_new in_feat in
  let (l0, g1) :=
    linear_new g in_feat (if (Config.num_layers cfg <? 2)%Z then 1 else hidden)
               (Config.bias cfg) in
  let first := if Config.pre_ln cfg then [LayerNorm; Lin l0] else [Lin l0] in
  let (rest, g2) :=
    hidden_layers cfg hidden (Z.to_nat (Config.num_layers cfg - 1)) 1%Z g1 in
  (mkReporter cfg in_feat b s nms nrm (first ++ rest), g2).

(** *** [parameters()] and their update in place *)

Definition linear_parameters (l : Linear) : list tensor :=
  weight l :: match lin_bias l with Some b => [b] | None => [] end.

Definition layer_parameters (m : layer) : list tensor :=
  match m with
  | Lin l => linear_parameters l
  | _ => []
  end.

Definition parameters (self : CcsReporter) : list tensor :=
  bias self :: scale self
    :: sn_parameters (norm self) ++ flat_map layer_parameters (probe self).

(** The layers with their parameter tensors overwritten, in order, by
    [ps]. *)
Fixpoint probe_assign (ms : list layer) (ps : list tensor) : list layer :=
  match ms with
  | [] => []
  | Lin l :: ms' =>
      match lin_bias l with
      | Some b =>
          Lin (mkLinear (lin_in_features l) (nth 0 ps (weight l)) (Some (nth 1 ps b)))
              :: probe_assign ms' (skipn 2 ps)
      | None =>
          Lin (mkLinear (lin_in_features l) (nth 0 ps (weight l)) None)
              :: probe_assign ms' (skipn 1 ps)
      end
  | m :: ms' => m :: probe_assign ms' ps
  end.

(** The reporter after an optimiser has written [ps] into the tensors
    of [parameters()]. *)
Definition set_parameters (ps : list tensor) (self : CcsReporter) : CcsReporter :=
  let k := length (sn_parameters (norm self)) in
  mkReporter (config self) (in_features self)
             (nth 0 ps (bias self)) (nth 1 ps (scale self))
             (norms self)
             (sn_assign (norm self) (firstn k (skipn 2 ps)))
             (probe_assign (probe self) (skipn (2 + k) ps)).

(** *** [forward] *)

Definition layer_forward (m : layer) (x : tensor) : tensor :=
  match m with
  | LayerNorm => layernorm_forward x
  | Lin l => linear_forward l x
  | Act a => act_forward a x
  end.

(** [nn.Sequential.__call__] *)
Definition sequential (ms : list layer) (x : tensor) : tensor :=
  fold_left (fun h m => layer_forward m h) ms x.

(** What a call site passes for [x]. *)
Inductive pyarg : Type :=
| ATensor (t : tensor)
| AList (l : list tensor).

(** [forward(x)].  [x] is a tensor; the projector and the layers of the
    probe are tensor functions, which raise when they are given a Python
    list in place of the tensor. *)
Definition forward (self : CcsReporter) (x : pyarg) : result tensor :=
  match x with
  | ATensor t => Ok (squeeze_last (sequential (probe self) (sn_call (norm self) t)))
  | AList _ => Raise not_a_tensor
  end.

(** *** Loss composition *)

(** [sum(...)] of a generator of tensors: the integer 0 when there is no
    term, else [((0 + t1) + t2) + ...]. *)
Definition pysum (terms : list R) : option R :=
  match terms with
  | [] => None
  | t0 :: ts => Some (fold_left radd ts (radd t0 (rconst PyFloat.zero)))
  end.

(** [assert_type(Tensor, loss)] *)
Definition assert_tensor (v : option R) : result R :=
  match v with
  | Some r => Ok r
  | None => Raise TypeError
  end.

Definition lookup_term (name : string) : result loss_term :=
  match LOSSES name with
  | Some f => Ok f
  | None => Raise KeyError
  end.

Definition unsupervised_loss (self : CcsReporter) (logit0 logit1 : tensor) : result R :=
  let? terms :=
    rmap (fun nc : string * pyfloat =>
            let? f := lookup_term (fst nc) in
            Ok (pair_form f logit0 logit1 (snd nc)))
         (Config.loss_dict (config self)) in
  assert_tensor (pysum terms).

Definition unsupervised_lossm (self : CcsReporter) (logits : list tensor) : result R :=
  let? terms :=
    rmap (fun nc : string * pyfloat =>
            let? f := lookup_term (fst nc) in
            Ok (group_form f logits (snd nc)))
         (Config.loss_dict (config self)) in
  assert_tensor (pysum terms).

(** [torch.nn.functional.binary_cross_entropy(input, target)], which
    refuses a target whose size differs from the input's. *)
Definition binary_cross_entropy (input target : tensor) : result R :=
  if shape_eqb (shape target) (shape input)
  then Ok (bce (data input) (data target))
  else Raise ValueError.

(** [alpha * bce_loss + (1 - alpha) * loss] *)
Definition blend (alpha : pyfloat) (bce_loss unsup : R) : R :=
  radd (rmul bce_loss (rconst alpha))
       (rmul unsup (rconst (PyFloat.sub PyFloat.one alpha))).

(** The supervised term, given the consensus predictions.  The casts
    [.float()], [.type_as(...)] and [.cpu()] do not change a value. *)
Definition supervised (preds labels : tensor) : result R :=
  let? v := shape_at preds 1 in
  let broadcast_labels := repeat_interleave v labels in
  let flattened_preds := flatten preds in
  binary_cross_entropy flattened_preds broadcast_labels.

Definition loss (self : CcsReporter) (logit0 logit1 : tensor) (labels : option tensor)
  : result R :=
  let? loss := unsupervised_loss self logit0 logit1 in
  match labels with
  | Some labels =>
      let? num_labels := tlen labels in
      let? n0 := tlen logit0 in
      if negb (num_labels <=? n0) then Raise AssertionError else
      let? l0 := slice0 num_labels logit0 in
      let p0 := tmap rsigmoid l0 in
      let? l1 := slice0 num_labels logit1 in
      let p1 := tmap rsigmoid l1 in
      let alpha := Config.supervised_weight (config self) in
      let? s := tmap2 radd p0 (tmap (rsub (rconst PyFloat.one)) p1) in
      let preds := squeeze_last (tmap (fun x => rmul x (rconst PyFloat.half)) s) in
      let? bce_loss := supervised preds labels in
      Ok (blend alpha bce_loss loss)
  | None =>
      if PyFloat.ltb PyFloat.zero (Config.supervised_weight (config self))
      then Raise ValueError
      else Ok loss
  end.

Definition lossm (self : CcsReporter) (logits : list tensor) (labels : option tensor)
  : result R :=
  let? loss := unsupervised_lossm self logits in
  match labels with
  | Some labels =>
      let? num_labels := tlen labels in
      let? first := match logits with
                    | l :: _ => Ok l
                    | [] => Raise IndexError
                    end in
      let? n0 := tlen first in
      if negb (num_labels <=? n0) then Raise AssertionError else
      let? _p0 := slice0 num_labels first in
      let? ps := rmap (fun logit =>
                         let? l := slice0 num_labels logit in
                         Ok (tmap rsigmoid l)) logits in
      let alpha := Config.supervised_weight (config self) in
      let? stacked_tensors := stack_last ps in
      let? preds := max_last stacked_tensors in
      let? bce_loss := supervised preds labels in
      Ok (blend alpha bce_loss loss)
  | None =>
      if PyFloat.ltb PyFloat.zero (Config.supervised_weight (config self))
      then Raise ValueError
      else Ok loss
  end.

End Reporter.

(** ** Stateful code: [self], the random state, exceptions *)

Section Machine.

Context {E : Elem} {T : Torch}.

(** What a method reads and writes: [self] and torch's global random
    state.  [runs] is a ghost field, not of the program: the restart
    loops append to it the loss of every driver run that returned, with
    the state dict of the reporter at that moment. *)
Record World : Type := mkWorld {
  self : CcsReporter;
  rng : RNG;
  runs : list (pyfloat * StateDict);
}.

(** A method: it returns or raises, and leaves a world either way. *)
Definition M (A : Type) : Type := World -> result A * World.

Definition ret {A} (a : A) : M A := fun w => (Ok a, w).

Definition raise {A} (e : exn) : M A := fun w => (Raise e, w).

Definition bind {A B} (m : M A) (k : A -> M B) : M B :=
  fun w =>
    match m w with
    | (Ok a, w') => k a w'
    | (Raise e, w') => (Raise e, w')
    end.

Definition lift {A} (r : result A) : M A := fun w => (r, w).

(** A pure method of [self]. *)
Definition reads {A} (f : CcsReporter -> result A) : M A :=
  fun w => (f (self w), w).

Definition modify_self (f : CcsReporter -> CcsReporter) : M unit :=
  fun w => (Ok tt, mkWorld (f (self w)) (rng w) (runs w)).

(** A draw from the random state. *)
Definition draw {A} (f : RNG -> A * RNG) : M A :=
  fun w => let (a, g) := f (rng w) in (Ok a, mkWorld (self w) g (runs w)).

Definition record_run (l : pyfloat) : M unit :=
  fun w => (Ok tt, mkWorld (self w) (rng w) (runs w ++ [(l, state_dict (self w))])).

End Machine.

Declare Scope method_scope.
Delimit Scope method_scope with method.
Notation "x <- m ;; k" := (bind m (fun x => k))
  (at level 61, m at next level, right associativity) : method_scope.
Notation "m ;;; k" := (bind m (fun _ => k))
  (at level 61, right associativity) : method_scope.

(** ** Initialisation and the optimisation drivers *)

Section Training.

Context {E : Elem} {T : Torch}.

Local Open Scope method_scope.

Definition set_probe (p : list layer) (s : CcsReporter) : CcsReporter :=
  mkReporter (config s) (in_features s) (bias s) (scale s) (norms s) (norm s) p.

Definition set_norm (n : SpectralNorm) (s : CcsReporter) : CcsReporter :=
  mkReporter (config s) (in_features s) (bias s) (scale s) (norms s) n (probe s).

Definition set_norms (ns : list Normalizer) (s : CcsReporter) : CcsReporter :=
  mkReporter (config s) (in_features s) (bias s) (scale s) ns (norm s) (probe s).

(** [layer.reset_parameters()] for every linear layer of the probe. *)
Fixpoint reset_layers (ms : list layer) (g : RNG) : list layer * RNG :=
  match ms with
  | [] => ([], g)
  | Lin l :: ms' =>
      let (l', g1) := linear_reset g l in
      let (rest, g2) := reset_layers ms' g1 in
      (Lin l' :: rest, g2)
  | m :: ms' =>
      let (rest, g2) := reset_layers ms' g in
      (m :: rest, g2)
  end.

Definition reset_parameters : M unit :=
  fun w =>
    let s := self w in
    match Config.init (config s) with
    | InitSpherical =>
        if negb (length (probe s) =? 1) then raise AssertionError w else
        match probe s with
        | [Lin p] =>
            (theta <- draw (fun g => randn g [1; lin_in_features p + 1]) ;;
             let n := lin_in_features p in
             let theta := tmap (fun x => rdiv x (vnorm (data theta))) theta in
             let w' := mkT [1; n] (firstn n (data theta)) in
             modify_self (set_probe [Lin (mkLinear n w' (lin_bias p))]) ;;;
             match lin_bias p with
             | Some _ =>
                 let b' := mkT [1] (firstn 1 (skipn n (data theta))) in
                 modify_self (set_probe [Lin (mkLinear n w' (Some b'))])
             | None => raise AttributeError
             end) w
        | _ => raise AttributeError w
        end
    | InitDefault =>
        (ms <- draw (reset_layers (probe s)) ;;
         modify_self (set_probe ms)) w
    | InitZero =>
        modify_self
          (set_parameters (map (tmap (fun _ => rconst PyFloat.zero)) (parameters s))) w
    | InitPca => ret tt w
    | InitOther _ => raise ValueError w
    end.

(** The local variable [loss] of a driver: [torch.inf] until the first
    evaluation, then the loss tensor. *)
Definition float_of_loss (l : option R) : pyfloat :=
  match l with
  | None => PyFloat.inf
  | Some r => ritem r
  end.

(** *** The Adam drivers *)

(** [n] epochs: evaluate the loss, back-propagate, step. *)
Fixpoint adam_epochs (eval : CcsReporter -> result R) (n : nat) (opt : AdamW)
         (loss : option R) : M (option R) :=
  match n with
  | 0 => ret loss
  | S n' =>
      l <- reads eval ;;
      opt' <- (fun w =>
                 let (ps, opt') :=
                   adamw_step opt (parameters (self w)) (backward l) in
                 (Ok opt', mkWorld (set_parameters ps (self w)) (rng w) (runs w))) ;;
      adam_epochs eval n' opt' (Some l)
  end.

Definition adam_loop (eval : CcsReporter -> result R) : M pyfloat :=
  fun w =>
    let cfg := config (self w) in
    let optimizer :=
      adamw_new (parameters (self w)) (Config.lr cfg) (Config.weight_decay cfg) in
    (l <- adam_epochs eval (Z.to_nat (Config.num_epochs cfg)) optimizer None ;;
     ret (float_of_loss l)) w.

(** [self.loss(self(x_neg), self(x_pos), labels)] *)
Definition eval_pair (x_neg x_pos : tensor) (labels : option tensor)
           (s : CcsReporter) : result R :=
  let? l0 := forward s (ATensor x_neg) in
  let? l1 := forward s (ATensor x_pos) in
  loss s l0 l1 labels.

Definition train_loop_adam (x_neg x_pos : tensor) (labels : option tensor) : M pyfloat :=
  adam_loop (eval_pair x_neg x_pos labels).

(** The tensors a loop over a tensor yields: its slices along the first
    axis. *)
Definition rows (t : tensor) : list tensor :=
  match shape t with
  | [] => []
  | d :: s' => map (fun c => mkT s' c) (chunks (numel s') d (data t))
  end.

(** [self.lossm(self(x_tensors), labels)]: the list goes to [forward] as
    it is. *)
Definition eval_whole (x_tensors : list tensor) (labels : option tensor)
           (s : CcsReporter) : result R :=
  let? out := forward s (AList x_tensors) in
  lossm s (rows out) labels.

Definition trainm_loop_adam (x_tensors : list tensor) (labels : option tensor)
  : M pyfloat :=
  adam_loop (eval_whole x_tensors labels).

(** *** The LBFGS drivers *)

(** The terms [weight_decay * param.norm() ** 2 / 2]. *)
Definition l2_terms (wd : pyfloat) (params : list tensor) : list R :=
  map (fun p => rdiv (rmul (rsquare (vnorm (data p))) (rconst wd))
                     (rconst PyFloat.two))
      params.

(** [regularizer] after the loop of the closure, which starts from the
    float 0.0. *)
Definition regularizer (wd : pyfloat) (params : list tensor) : R :=
  match pysum (l2_terms wd params) with
  | Some r => r
  | None => rconst PyFloat.zero
  end.

(** One call of [closure]: what it returns to the optimiser, the
    gradients it leaves, and the value it stores in [loss]. *)
Definition closure (eval : CcsReporter -> result R) (s : CcsReporter)
  : result (pyfloat * Grads * R) :=
  let? loss := eval s in
  let regularized :=
    radd loss (regularizer (Config.weight_decay (config s)) (parameters s)) in
  Ok (ritem regularized, backward regularized, loss).

(** [optimizer.step(closure)] *)
Fixpoint run_lbfgs (prog : lbfgs_run Grads) (eval : CcsReporter -> result R)
         (loss : option R) : M (option R) :=
  match prog with
  | LbfgsDone final =>
      modify_self (set_parameters final) ;;; ret loss
  | LbfgsEval point next =>
      modify_self (set_parameters point) ;;;
      c <- reads (closure eval) ;;
      let '(v, g, l) := c in
      run_lbfgs (next v g) eval (Some l)
  end.

Definition lbfgs_loop (eps : pyfloat) (eval : CcsReporter -> result R) : M pyfloat :=
  fun w =>
    let cfg := config (self w) in
    let prog := lbfgs_step (Config.num_epochs cfg) eps (parameters (self w)) in
    (l <- run_lbfgs prog eval None ;;
     ret (float_of_loss l)) w.

Definition train_loop_lbfgs (x_neg x_pos : tensor) (labels : option tensor) : M pyfloat :=
  lbfgs_loop (finfo_eps x_pos) (eval_pair x_neg x_pos labels).

(** [self.lossm([self(tense) for tense in x_tensors], labels)] *)
Definition eval_groups (x_tensors : list tensor) (labels : option tensor)
           (s : CcsReporter) : result R :=
  let? correct_tensors := rmap (fun tense => forward s (ATensor tense)) x_tensors in
  lossm s correct_tensors labels.

Definition trainm_loop_lbfgs (x_tensors : list tensor) (labels : option tensor)
  : M pyfloat :=
  match x_tensors with
  | [] => raise IndexError
  | x0 :: _ => lbfgs_loop (finfo_eps x0) (eval_groups x_tensors labels)
  end.

End Training.

(** ** [fit], [fitold] and [check_separability] *)

Section Fit.

Context {E : Elem} {T : Torch}.

Local Open Scope method_scope.

(** [l[i]] *)
Definition index {A} (l : list A) (i : nat) : result A :=
  match nth_error l i with
  | Some x => Ok x
  | None => Raise IndexError
  end.

(** [l] after [l[i] = x], for [i] in range. *)
Fixpoint update_nth {A} (i : nat) (x : A) (l : list A) : list A :=
  match l, i with
  | [], _ => []
  | _ :: l', 0 => x :: l'
  | y :: l', S i' => y :: update_nth i' x l'
  end.

(** [for i in ixs: self.norms[i].fit(x_tensors[i])] *)
Fixpoint fit_norms (ixs : list nat) (x_tensors : list tensor) : M unit :=
  match ixs with
  | [] => ret tt
  | i :: ixs' =>
      nz <- reads (fun s => index (norms s) i) ;;
      x <- lift (index x_tensors i) ;;
      modify_self (fun s => set_norms (update_nth i (nz_fit nz x) (norms s)) s) ;;;
      fit_norms ixs' x_tensors
  end.

(** [[self.norms[i](x_tensors[i]) for i in range(len(x_tensors))]] *)
Definition apply_norms (x_tensors : list tensor) : M (list tensor) :=
  reads (fun s =>
           rmap (fun i =>
                   let? nz := index (norms s) i in
                   let? x := index x_tensors i in
                   Ok (nz_call nz x))
                (seq 0 (length x_tensors))).

(** The restart loop, for the restarts [ixs], from the best loss and
    state so far.  [attempt i] is the body of the loop up to the return
    of the driver. *)
Fixpoint restarts (attempt : nat -> M pyfloat) (ixs : list nat)
         (best_loss : pyfloat) (best_state : option StateDict)
  : M (pyfloat * option StateDict) :=
  match ixs with
  | [] => ret (best_loss, best_state)
  | i :: ixs' =>
      loss <- attempt i ;;
      record_run loss ;;;
      snapshot <- reads (fun s => Ok (state_dict s)) ;;
      if PyFloat.ltb loss best_loss
      then restarts attempt ixs' loss (Some snapshot)
      else restarts attempt ixs' best_loss best_state
  end.

(** The end of [fit] and of [fitold].  Loading the empty dict [{}] is an
    error of [load_state_dict] (every key is missing). *)
Definition commit (best : pyfloat * option StateDict) : M pyfloat :=
  let (best_loss, best_state) := best in
  if negb (PyFloat.isfinite best_loss) then raise RuntimeError else
  match best_state with
  | Some sd => modify_self (load_state_dict sd) ;;; ret best_loss
  | None => raise RuntimeError
  end.

Definition restart_loop (attempt : nat -> M pyfloat) : M pyfloat :=
  cfg <- reads (fun s => Ok (config s)) ;;
  best <- restarts attempt (seq 0 (Z.to_nat (Config.num_tries cfg))) PyFloat.inf None ;;
  commit best.

(** One restart of [fit].  With [init == "pca"] the call
    [torch.sum((x_tensors))] gets a list and raises. *)
Definition attempt (x_tensors : list tensor) (labels : option tensor) (i : nat)
  : M pyfloat :=
  reset_parameters ;;;
  cfg <- reads (fun s => Ok (config s)) ;;
  match Config.init cfg with
  | InitPca => raise TypeError
  | _ => ret tt
  end ;;;
  match Config.optimizer cfg with
  | Lbfgs => trainm_loop_lbfgs x_tensors labels
  | Adam => trainm_loop_adam x_tensors labels
  | OptimizerOther _ => raise ValueError
  end.

(** [torch.zeros_like], [torch.ones_like] *)
Definition zeros_like (t : tensor) : tensor := tmap (fun _ => rconst PyFloat.zero) t.
Definition ones_like (t : tensor) : tensor := tmap (fun _ => rconst PyFloat.one) t.

(** The head of [fit]: the groups of [hiddens], each normalised by its own
    normaliser.  The [print] calls write to the standard output only; the
    last one reads [x_tensors[0]]. *)
Definition normalized_groups (hiddens : tensor) : M (list tensor) :=
  x_tensors <- lift (unbind2 hiddens) ;;
  _ <- lift (index x_tensors 0) ;;
  fit_norms (seq 0 4) x_tensors ;;;
  apply_norms x_tensors.

Definition fit (hiddens : tensor) (labels : option tensor) : M pyfloat :=
  x_tensors <- normalized_groups hiddens ;;
  restart_loop (attempt x_tensors labels).

(** The head of [fitold]: the two groups, after the two updates of the
    projector, projected. *)
Definition projected_pair (hiddens : tensor) : M (tensor * tensor) :=
  groups <- lift (unbind2 hiddens) ;;
  match groups with
  | [x_neg; x_pos] =>
      y0 <- lift (select_last0 x_neg) ;;
      modify_self (fun s => set_norm (sn_update (norm s) x_neg (zeros_like y0)) s) ;;;
      y1 <- lift (select_last0 x_pos) ;;
      modify_self (fun s => set_norm (sn_update (norm s) x_pos (ones_like y1)) s) ;;;
      reads (fun s => Ok (sn_call (norm s) x_neg, sn_call (norm s) x_pos))
  | _ => raise ValueError
  end.

(** [self.probe[0].weight.data = v]; a [LayerNorm] without affine
    parameters has [weight = None]. *)
Definition set_first_weight (v : tensor) (s : CcsReporter) : result CcsReporter :=
  match probe s with
  | Lin l :: ms =>
      Ok (set_probe (Lin (mkLinear (lin_in_features l) v (lin_bias l)) :: ms) s)
  | LayerNorm :: _ => Raise AttributeError
  | Act _ :: _ => Raise AttributeError
  | [] => Raise IndexError
  end.

(** One restart of [fitold]. *)
Definition attempt_old (x_neg x_pos : tensor) (labels : option tensor) (i : nat)
  : M pyfloat :=
  reset_parameters ;;;
  cfg <- reads (fun s => Ok (config s)) ;;
  match Config.init cfg with
  | InitPca =>
      d <- lift (tmap2 rsub x_pos x_neg) ;;
      diffs <- lift (flatten01 d) ;;
      v <- draw (fun g => pca_lowrank_last g diffs (i + 1)) ;;
      fun w =>
        match set_first_weight v (self w) with
        | Ok s' => (Ok tt, mkWorld s' (rng w) (runs w))
        | Raise e => (Raise e, w)
        end
  | _ => ret tt
  end ;;;
  match Config.optimizer cfg with
  | Lbfgs => train_loop_lbfgs x_neg x_pos labels
  | Adam => train_loop_adam x_neg x_pos labels
  | OptimizerOther _ => raise ValueError
  end.

Definition fitold (hiddens : tensor) (labels : option tensor) : M pyfloat :=
  xs <- projected_pair hiddens ;;
  restart_loop (attempt_old (fst xs) (snd xs) labels).

(** *** [check_separability] *)

(** The pseudo-labels of a pair: zeros for the first member, ones for
    the second, flattened. *)
Definition pseudo_labels (x0 x1 : tensor) : result tensor :=
  let? a := select_last0 x0 in
  let? b := select_last0 x1 in
  let? c := cat0 (zeros_like a) (ones_like b) in
  Ok (flatten c).

(** [torch.cat([x0, x1]).flatten(0, 1)] *)
Definition stacked_rows (x0 x1 : tensor) : result tensor :=
  let? c := cat0 x0 x1 in
  flatten01 c.

(** The predictions of the auxiliary classifier on the validation pair,
    with the pseudo-labels of that pair. *)
Definition pseudo_predictions (s : CcsReporter) (train_pair val_pair : tensor * tensor)
  : result (tensor * tensor) :=
  let x0 := sn_call (norm s) (fst train_pair) in
  let x1 := sn_call (norm s) (snd train_pair) in
  let val_x0 := sn_call (norm s) (fst val_pair) in
  let val_x1 := sn_call (norm s) (snd val_pair) in
  let? d := index (rev (shape x0)) 0 in
  let pseudo_clf := clf_new d in
  let? pseudo_train := pseudo_labels x0 x1 in
  let? pseudo_val := pseudo_labels val_x0 val_x1 in
  let? xs := stacked_rows x0 x1 in
  let pseudo_clf :=
    clf_fit pseudo_clf xs pseudo_train (Config.weight_decay (config s)) in
  let? vs := stacked_rows val_x0 val_x1 in
  let pseudo_preds := squeeze_last (clf_call pseudo_clf vs) in
  Ok (pseudo_val, pseudo_preds).

Definition check_separability (s : CcsReporter) (train_pair val_pair : tensor * tensor)
  : result pyfloat :=
  let? vp := pseudo_predictions s train_pair val_pair in
  let (pseudo_val, pseudo_preds) := vp in
  if negb (tany pseudo_preds)
  then Ok PyFloat.half
  else
    let? auc := roc_auc pseudo_val pseudo_preds in
    Ok (ritem auc).

End Fit.

(** ** A small instance

    Binary64 elements and stand-ins for the imported modules, on which the
    definitions above run: a one-output linear layer, a consistency term
    under the name "ccs", an optimiser step that applies the decoupled
    weight decay only, a line search of two trial points. *)

Module Toy.

Definition fadd : pyfloat -> pyfloat -> pyfloat := SFadd PyFloat.prec PyFloat.emax.
Definition fsub : pyfloat -> pyfloat -> pyfloat := SFsub PyFloat.prec PyFloat.emax.
Definition fmul : pyfloat -> pyfloat -> pyfloat := SFmul PyFloat.prec PyFloat.emax.
Definition fdiv : pyfloat -> pyfloat -> pyfloat := SFdiv PyFloat.prec PyFloat.emax.
Definition fsqrt : pyfloat -> pyfloat := SFsqrt PyFloat.prec PyFloat.emax.
Definition fsum (l : list pyfloat) : pyfloat := fold_left fadd l PyFloat.zero.

(** x / (2 (1 + |x|)) + 1/2, in place of the logistic function *)
Definition fsigmoid (x : pyfloat) : pyfloat :=
  fadd (fdiv x (fmul PyFloat.two (fadd PyFloat.one (SFabs x)))) PyFloat.half.

#[export] Instance elem : Elem := {|
  R := pyfloat;
  rconst := fun x => x;
  ritem := fun x => x;
  radd := fadd;
  rsub := fsub;
  rmul := fmul;
  rdiv := fdiv;
  rmax := fun a b => if SFltb a b then b else a;
  rsquare := fun x => fmul x x;
  rsigmoid := fsigmoid;
  rnonzero := fun x => negb (SFeqb x PyFloat.zero);
|}.

Definition dot (row w : list pyfloat) : pyfloat := fsum (zip_with fmul row w).

(** A linear layer with one output unit. *)
Definition linear1 (l : Linear) (x : tensor) : tensor :=
  let d := lin_in_features l in
  let lead := removelast (shape x) in
  let b := match lin_bias l with
           | Some b => hd PyFloat.zero (data b)
           | None => PyFloat.zero
           end in
  mkT (lead ++ [1])
      (map (fun row => fadd (dot row (data (weight l))) b)
           (chunks d (numel lead) (data x))).

Definition fresh_linear (g : Z) (i o : nat) (b : bool) : Linear * Z :=
  (mkLinear i (mkT [o; i] (repeat (PyFloat.of_Z g) (o * i)))
            (if b then Some (mkT [o] (repeat PyFloat.zero o)) else None),
   (g + 1)%Z).

(** sum_i (sigma(l0_i) - (1 - sigma(l1_i)))^2, times the coefficient *)
Definition consistency (l0 l1 : tensor) (c : pyfloat) : pyfloat :=
  fmul (fsum (zip_with (fun a b => let d := fsub (fsigmoid a) (fsub PyFloat.one (fsigmoid b)) in
                                   fmul d d)
                       (data l0) (data l1))) c.

(** sum over the groups of the squared sigmoids, times the coefficient *)
Definition spread (ls : list tensor) (c : pyfloat) : pyfloat :=
  fmul (fsum (flat_map (fun l => map (fun a => fmul (fsigmoid a) (fsigmoid a)) (data l)) ls)) c.

Definition losses (name : string) : option loss_term :=
  if String.eqb name "ccs" then Some (mkTerm consistency spread) else None.

(** the mean absolute error, in place of the cross-entropy *)
Definition abs_error (p t : list pyfloat) : pyfloat :=
  fdiv (fsum (zip_with (fun a b => SFabs (fsub a b)) p t))
       (PyFloat.of_Z (Z.of_nat (length p))).

(** The line search: the start point, then the parameters halved; the
    better of the two is kept. *)
Definition two_points (ps : list tensor) : lbfgs_run unit :=
  let ps' := map (tmap (fmul PyFloat.half)) ps in
  LbfgsEval ps (fun v0 _ =>
    LbfgsEval ps' (fun v1 _ =>
      LbfgsDone (if SFltb v1 v0 then ps' else ps))).

(** The share of (positive, negative) pairs ranked in order, ties
    counting one half. *)
Definition auroc (labels scores : tensor) : pyfloat :=
  let tagged := combine (data labels) (data scores) in
  let pos := filter (fun p => negb (SFeqb (fst p) PyFloat.zero)) tagged in
  let neg := filter (fun p => SFeqb (fst p) PyFloat.zero) tagged in
  let credit (p n : pyfloat * pyfloat) :=
    if SFltb (snd n) (snd p) then PyFloat.one
    else if SFeqb (snd n) (snd p) then PyFloat.half
    else PyFloat.zero in
  fdiv (fsum (flat_map (fun p => map (credit p) neg) pos))
       (PyFloat.of_Z (Z.of_nat (length pos * length neg))).

#[export] Instance torch : Torch := {|
  SpectralNorm := unit;
  sn_new := fun _ => tt;
  sn_call := fun _ x => x;
  sn_update := fun _ _ _ => tt;
  sn_parameters := fun _ => [];
  sn_assign := fun _ _ => tt;
  Normalizer := pyfloat;
  nz_new := fun _ => PyFloat.zero;
  nz_fit := fun _ x => hd PyFloat.zero (data x);
  nz_call := fun c x => tmap (fun v => fsub v c) x;
  linear_forward := linear1;
  layernorm_forward := fun x => x;
  act_forward := fun _ x => tmap (fun v => if SFltb v PyFloat.zero then PyFloat.zero else v) x;
  RNG := Z;
  linear_new := fresh_linear;
  linear_reset := fun g l => fresh_linear g (lin_in_features l) 1
                                          (match lin_bias l with Some _ => true | None => false end);
  randn := fun g s => (mkT s (repeat (PyFloat.of_Z g) (numel s)), (g + 1)%Z);
  pca_lowrank_last := fun g x q => (mkT [1; q] (repeat PyFloat.one q), g);
  LOSSES := losses;
  bce := abs_error;
  vnorm := fun l => fsqrt (fsum (map (fun x => fmul x x) l));
  Grads := unit;
  backward := fun _ => tt;
  AdamW := pyfloat;
  adamw_new := fun _ lr wd => fsub PyFloat.one (fmul lr wd);
  adamw_step := fun f ps _ => (map (tmap (fmul f)) ps, f);
  lbfgs_step := fun _ _ ps => two_points ps;
  finfo_eps := fun _ => SFldexp PyFloat.prec PyFloat.emax PyFloat.one (-52);
  Classifier := list pyfloat;
  clf_new := fun d => repeat PyFloat.zero d;
  clf_fit := fun c _ y _ => map (fun _ => fsum (data y)) c;
  clf_call := fun c x => linear1 (mkLinear (length c) (mkT [1; length c] c) None) x;
  roc_auc := fun l s => Ok (auroc l s);
  not_a_tensor := TypeError;
|}.

(** Data for the instance: a configuration with the term "ccs" and a
    linear probe on one feature, a batch of four groups, a contrast pair,
    logits of two rows and two variants with two labels, logits of a
    single variant. *)

Definition small : pyfloat := SFldexp PyFloat.prec PyFloat.emax PyFloat.one (-7).
Definition quarter : pyfloat := SFldexp PyFloat.prec PyFloat.emax PyFloat.one (-2).

Definition cfg (opt : optimizer_kind) (tries epochs : Z) (sw : pyfloat) : Config.t :=
  Config.mk Gelu true None InitDefault [("ccs"%string, PyFloat.one)] 1 false sw
            small epochs tries opt small.

Definition reporter (c : Config.t) : CcsReporter := fst (init c 1 5%Z).

Definition world (c : Config.t) : World := mkWorld (reporter c) 7%Z [].

Definition vec (s : list nat) (l : list Z) : tensor := mkT s (map PyFloat.of_Z l).

(** Whether a call returned. *)
Definition returned {A} (r : result A) : bool :=
  match r with
  | Ok _ => true
  | Raise _ => false
  end.

(** The value of a call that returned. *)
Definition value_of (r : result pyfloat) : pyfloat :=
  match r with
  | Ok v => v
  | Raise _ => PyFloat.nan
  end.

(** What [pseudo_predictions] returned, or two empty tensors. *)
Definition predictions_of (r : result (tensor * tensor)) : tensor * tensor :=
  match r with
  | Ok p => p
  | Raise _ => (mkT [] [], mkT [] [])
  end.

Definition w_lbfgs : World := world (cfg Lbfgs 3 2 PyFloat.zero).
Definition w_no_try : World := world (cfg Lbfgs 0 2 PyFloat.zero).
Definition w_adam : World := world (cfg Adam 1 1 PyFloat.zero).
Definition r_plain : CcsReporter := reporter (cfg Lbfgs 1 1 PyFloat.zero).
Definition r_supervised : CcsReporter := reporter (cfg Lbfgs 1 1 quarter).

Definition hiddens4 : tensor := vec [1; 2; 4; 1] [1; 2; 3; 4; 5; 6; 7; 8]%Z.
Definition hiddens3 : tensor := vec [1; 2; 3; 1] [1; 2; 3; 4; 5; 6]%Z.
Definition x_neg : tensor := vec [1; 2; 1] [1; 2]%Z.
Definition x_pos : tensor := vec [1; 2; 1] [-1; 3]%Z.
Definition logit_a : tensor := vec [2; 2] [1; 2; 3; 4]%Z.
Definition logit_b : tensor := vec [2; 2] [-1; 0; 2; -3]%Z.
Definition narrow_a : tensor := vec [2; 1] [1; 2]%Z.
Definition narrow_b : tensor := vec [2; 1] [-1; 3]%Z.
Definition two_labels : tensor := vec [2] [1; 0]%Z.
Definition train_pair : tensor * tensor := (vec [1; 2; 1] [1; 2]%Z, vec [1; 2; 1] [3; 4]%Z).
Definition zero_pair : tensor * tensor := (vec [1; 2; 1] [0; 0]%Z, vec [1; 2; 1] [0; 0]%Z).


(** Further data: a batch of two groups, labels for three rows, and
    configurations given by their initialisation, bias flag, [pre_ln]
    flag, depth and loss specification. *)

Definition hiddens2 : tensor := vec [1; 2; 2; 1] [1; -1; 2; 3]%Z.
Definition three_labels : tensor := vec [3] [1; 0; 1]%Z.

Definition one_term : list (string * pyfloat) := [("ccs"%string, PyFloat.one)].
Definition unknown_term : list (string * pyfloat) :=
  [("ccs"%string, PyFloat.one); ("margin"%string, PyFloat.half)].

Definition cfg_of (i : init_kind) (b ln : bool) (layers : Z)
           (spec : list (string * pyfloat)) : Config.t :=
  Config.mk Relu b None i spec layers ln PyFloat.zero small 1 1 Lbfgs small.

Definition reporter_of (c : Config.t) (n : nat) : CcsReporter := fst (init c n 5%Z).

Definition world_of (c : Config.t) (n : nat) : World := mkWorld (reporter_of c n) 7%Z [].

(** A linear layer with any number of output units: output [j] is the
    product with row [j] of the weight, plus entry [j] of the bias. *)
Definition linear_any (l : Linear) (x : tensor) : tensor :=
  let d := lin_in_features l in
  let o := hd 0 (shape (weight l)) in
  let lead := removelast (shape x) in
  let bias_at j :=
    match lin_bias l with
    | Some b => nth j (data b) PyFloat.zero
    | None => PyFloat.zero
    end in
  mkT (lead ++ [o])
      (flat_map (fun row =>
                   map (fun j =>
                          fadd (dot row (firstn d (skipn (j * d) (data (weight l)))))
                               (bias_at j))
                       (seq 0 o))
                (chunks d (numel lead) (data x))).

(** The instance with that layer in place of the one-output layer. *)
Definition torch_wide : Torch := {|
  SpectralNorm := unit;
  sn_new := fun _ => tt;
  sn_call := fun _ x => x;
  sn_update := fun _ _ _ => tt;
  sn_parameters := fun _ => [];
  sn_assign := fun _ _ => tt;
  Normalizer := pyfloat;
  nz_new := fun _ => PyFloat.zero;
  nz_fit := fun _ x => hd PyFloat.zero (data x);
  nz_call := fun c x => tmap (fun v => fsub v c) x;
  linear_forward := linear_any;
  layernorm_forward := fun x => x;
  act_forward := fun _ x => tmap (fun v => if SFltb v PyFloat.zero then PyFloat.zero else v) x;
  RNG := Z;
  linear_new := fresh_linear;
  linear_reset := fun g l => fresh_linear g (lin_in_features l) (hd 0 (shape (weight l)))
                                          (match lin_bias l with Some _ => true | None => false end);
  randn := fun g s => (mkT s (repeat (PyFloat.of_Z g) (numel s)), (g + 1)%Z);
  pca_lowrank_last := fun g x q => (mkT [1; q] (repeat PyFloat.one q), g);
  LOSSES := losses;
  bce := abs_error;
  vnorm := fun l => fsqrt (fsum (map (fun x => fmul x x) l));
  Grads := unit;
  backward := fun _ => tt;
  AdamW := pyfloat;
  adamw_new := fun _ lr wd => fsub PyFloat.one (fmul lr wd);
  adamw_step := fun f ps _ => (map (tmap (fmul f)) ps, f);
  lbfgs_step := fun _ _ ps => two_points ps;
  finfo_eps := fun _ => SFldexp PyFloat.prec PyFloat.emax PyFloat.one (-52);
  Classifier := list pyfloat;
  clf_new := fun d => repeat PyFloat.zero d;
  clf_fit := fun c _ y _ => map (fun _ => fsum (data y)) c;
  clf_call := fun c x => linear1 (mkLinear (length c) (mkT [1; length c] c) None) x;
  roc_auc := fun l s => Ok (auroc l s);
  not_a_tensor := TypeError;
|}.

End Toy.

(** * Properties *)

(** ** The order of Python floats *)

Module FloatOrder.

(** A float that is not NaN, as a point of a lexicographic order. *)
Definition key (x : pyfloat) : option (Z * Z * Z) :=
  match x with
  | S754_nan => None
  | S754_infinity true => Some (-2, 0, 0)%Z
  | S754_infinity false => Some (2, 0, 0)%Z
  | S754_zero _ => Some (0, 0, 0)%Z
  | S754_finite false m e => Some (1, e, Zpos m)%Z
  | S754_finite true m e => Some (-1, - e, Zneg m)%Z
  end.

Definition lex_lt (a b : Z * Z * Z) : Prop :=
  let '(a1, a2, a3) := a in
  let '(b1, b2, b3) := b in
  (a1 < b1 \/ (a1 = b1 /\ (a2 < b2 \/ (a2 = b2 /\ a3 < b3))))%Z.

Definition lex_le (a b : Z * Z * Z) : Prop :=
  let '(a1, a2, a3) := a in
  let '(b1, b2, b3) := b in
  (a1 < b1 \/ (a1 = b1 /\ (a2 < b2 \/ (a2 = b2 /\ a3 <= b3))))%Z.

Lemma key_some x : PyFloat.isnan x = false -> exists a, key x = Some a.
Proof. destruct x as [s|s| |s m e]; try destruct s; simpl; intros; try discriminate; eauto. Qed.

Lemma key_none x : key x = None -> PyFloat.isnan x = true.
Proof. destruct x as [s|s| |s m e]; try destruct s; simpl; intros; try discriminate; auto. Qed.

Ltac fold_cmp :=
  repeat match goal with
  | |- context [Pos.compare_cont Eq ?a ?b] =>
      change (Pos.compare_cont Eq a b) with (Pos.compare a b)
  end.

Ltac cmp_cases :=
  repeat match goal with
  | |- context [Z.compare ?a ?b] => destruct (Z.compare_spec a b)
  | |- context [Pos.compare ?a ?b] => destruct (Pos.compare_spec a b)
  end.

Lemma ltb_key x y a b :
  key x = Some a -> key y = Some b -> (PyFloat.ltb x y = true <-> lex_lt a b).
Proof.
  destruct x as [s|s| |s m e], y as [s'|s'| |s' m' e'];
    try destruct s; try destruct s'; simpl; intros Hx Hy;
    inversion Hx; inversion Hy; subst; clear Hx Hy;
    unfold PyFloat.ltb, SFltb, SFcompare;
    fold_cmp;
    cmp_cases; simpl; split; intros; try discriminate; try reflexivity; try lia.
Qed.

Lemma leb_key x y a b :
  key x = Some a -> key y = Some b -> (PyFloat.leb x y = true <-> lex_le a b).
Proof.
  destruct x as [s|s| |s m e], y as [s'|s'| |s' m' e'];
    try destruct s; try destruct s'; simpl; intros Hx Hy;
    inversion Hx; inversion Hy; subst; clear Hx Hy;
    unfold PyFloat.leb, SFleb, SFcompare;
    fold_cmp;
    cmp_cases; simpl; split; intros; try discriminate; try reflexivity; try lia.
Qed.

Lemma ltb_not_nan x y :
  PyFloat.ltb x y = true -> PyFloat.isnan x = false /\ PyFloat.isnan y = false.
Proof.
  destruct x, y; simpl; intros H; try discriminate; auto.
Qed.

End FloatOrder.

Section FloatFacts.

Import FloatOrder.

Lemma ltb_le_trans x y z :
  PyFloat.ltb x y = true -> PyFloat.leb y z = true -> PyFloat.ltb x z = true.
Proof.
  intros Hxy Hyz.
  destruct (key x) as [a|] eqn:Ka; [|destruct x; try destruct s; discriminate].
  destruct (key y) as [b|] eqn:Kb; [|destruct x, y; try destruct s0; discriminate].
  destruct (key z) as [c|] eqn:Kc;
    [|destruct y, z; try destruct s0; discriminate].
  apply (ltb_key _ _ Ka Kb) in Hxy. apply (leb_key _ _ Kb Kc) in Hyz.
  apply (ltb_key _ _ Ka Kc).
  destruct a as [[a1 a2] a3], b as [[b1 b2] b3], c as [[c1 c2] c3].
  unfold lex_lt, lex_le in *. lia.
Qed.

Lemma not_ltb_leb x y :
  PyFloat.isnan x = false -> PyFloat.isnan y = false ->
  PyFloat.ltb x y = false -> PyFloat.leb y x = true.
Proof.
  intros Hx Hy H.
  destruct (key_some _ Hx) as [a Ka], (key_some _ Hy) as [b Kb].
  apply (leb_key _ _ Kb Ka).
  assert (~ lex_lt a b) as N
      by (intros L; apply (ltb_key _ _ Ka Kb) in L; congruence).
  destruct a as [[a1 a2] a3], b as [[b1 b2] b3].
  unfold lex_lt, lex_le in *. lia.
Qed.

Lemma leb_refl x : PyFloat.isnan x = false -> PyFloat.leb x x = true.
Proof.
  intros Hx. destruct (key_some _ Hx) as [a Ka].
  apply (leb_key _ _ Ka Ka). destruct a as [[a1 a2] a3]. unfold lex_le. lia.
Qed.

Lemma ltb_leb x y : PyFloat.ltb x y = true -> PyFloat.leb x y = true.
Proof.
  intros H. destruct (ltb_not_nan _ _ H) as [Hx Hy].
  destruct (key_some _ Hx) as [a Ka], (key_some _ Hy) as [b Kb].
  apply (ltb_key _ _ Ka Kb) in H. apply (leb_key _ _ Ka Kb).
  destruct a as [[a1 a2] a3], b as [[b1 b2] b3].
  unfold lex_lt, lex_le in *. lia.
Qed.

Lemma ltb_irrefl x : PyFloat.ltb x x = false.
Proof.
  destruct (PyFloat.ltb x x) eqn:H; [|reflexivity].
  destruct (ltb_not_nan _ _ H) as [Hx _].
  destruct (key_some _ Hx) as [a Ka].
  apply (ltb_key _ _ Ka Ka) in H. destruct a as [[a1 a2] a3].
  unfold lex_lt in H. lia.
Qed.

Lemma leb_not_ltb x y : PyFloat.leb x y = true -> PyFloat.ltb y x = false.
Proof.
  intros H. destruct (PyFloat.ltb y x) eqn:L; [|reflexivity].
  pose proof (ltb_le_trans _ _ _ L H) as C. rewrite ltb_irrefl in C. discriminate.
Qed.

Lemma ltb_nan_left x y : PyFloat.isnan x = true -> PyFloat.ltb x y = false.
Proof. destruct x; simpl; try discriminate. reflexivity. Qed.

Lemma isfinite_not_nan x : PyFloat.isfinite x = true -> PyFloat.isnan x = false.
Proof. destruct x; simpl; congruence. Qed.

End FloatFacts.

(** ** Reasoning about methods *)

Section MethodFacts.

Context {E : Elem} {T : Torch}.

Local Open Scope method_scope.

Lemma bind_inv {A B} (m : M A) (k : A -> M B) w res w' :
  bind m k w = (res, w') ->
  (exists a w1, m w = (Ok a, w1) /\ k a w1 = (res, w')) \/
  (exists e, m w = (Raise e, w') /\ res = Raise e).
Proof.
  unfold bind. destruct (m w) as [[a|e] w1] eqn:Hm; intros H.
  - left. eauto.
  - right. inversion H; subst. eauto.
Qed.

(** A method that leaves the ghost field alone. *)
Definition ghost_free {A} (m : M A) : Prop :=
  forall w res w', m w = (res, w') -> runs w' = runs w.

Lemma gf_ret {A} (a : A) : ghost_free (ret a).
Proof. intros w res w' H. inversion H; reflexivity. Qed.

Lemma gf_raise {A} e : ghost_free (@raise _ _ A e).
Proof. intros w res w' H. inversion H; reflexivity. Qed.

Lemma gf_lift {A} (r : result A) : ghost_free (lift r).
Proof. intros w res w' H. inversion H; reflexivity. Qed.

Lemma gf_reads {A} (f : CcsReporter -> result A) : ghost_free (reads f).
Proof. intros w res w' H. inversion H; reflexivity. Qed.

Lemma gf_modify f : ghost_free (modify_self f).
Proof. intros w res w' H. inversion H; reflexivity. Qed.

Lemma gf_draw {A} (f : RNG -> A * RNG) : ghost_free (draw f).
Proof.
  intros w res w' H. unfold draw in H. destruct (f (rng w)). inversion H; reflexivity.
Qed.

Lemma gf_bind {A B} (m : M A) (k : A -> M B) :
  ghost_free m -> (forall a, ghost_free (k a)) -> ghost_free (bind m k).
Proof.
  intros Hm Hk w res w' H. apply bind_inv in H.
  destruct H as [(a & w1 & H1 & H2) | (e & H1 & _)].
  - rewrite (Hk _ _ _ _ H2). eauto.
  - eauto.
Qed.

Lemma gf_ext {A} (m m' : M A) : (forall w, m w = m' w) -> ghost_free m' -> ghost_free m.
Proof. intros He Hm w res w' H. rewrite He in H. eauto. Qed.

Create HintDb ghost.

#[local] Hint Resolve gf_ret gf_raise gf_lift gf_reads gf_modify gf_draw : ghost.

(** From [H : m w = (res, w')], reduce the goal to [ghost_free m]. *)
Ltac by_ghost H :=
  match type of H with
  | ?m ?w = (_, _) =>
      let G := fresh "G" in
      assert (G : ghost_free m); [clear H | exact (G _ _ _ H)]
  end.

Ltac ghost :=
  repeat first
    [ apply gf_bind; [|intros ?]
    | progress eauto with ghost
    | match goal with
      | |- ghost_free (match ?x with _ => _ end) => destruct x
      | |- ghost_free (if ?x then _ else _) => destruct x
      | |- ghost_free (let '(_, _) := ?x in _) => destruct x
      end ].

Lemma gf_reset_parameters : ghost_free reset_parameters.
Proof.
  intros w res w' H. unfold reset_parameters in H.
  destruct (Config.init (config (self w))).
  - by_ghost H. ghost.
  - inversion H; reflexivity.
  - destruct (negb _); [inversion H; reflexivity|].
    destruct (probe (self w)) as [|[|p|] [|]]; try (inversion H; reflexivity).
    by_ghost H. ghost.
  - inversion H; reflexivity.
  - inversion H; reflexivity.
Qed.

Lemma gf_adam_epochs eval n : forall opt l, ghost_free (adam_epochs eval n opt l).
Proof.
  induction n as [|n IH]; intros opt l; simpl.
  - ghost.
  - apply gf_bind; [ghost|]. intros r. apply gf_bind; [|intros; apply IH].
    intros w res w' H. destruct (adamw_step _ _ _). inversion H; reflexivity.
Qed.

Lemma gf_adam_loop eval : ghost_free (adam_loop eval).
Proof.
  intros w res w' H. unfold adam_loop in H. by_ghost H.
  apply gf_bind; [apply gf_adam_epochs | ghost].
Qed.

Lemma gf_run_lbfgs eval prog : forall l, ghost_free (run_lbfgs prog eval l).
Proof.
  induction prog as [final | point next IH]; intros l; simpl.
  - ghost.
  - apply gf_bind; [ghost|]. intros _. apply gf_bind; [ghost|].
    intros [[v g] r]. apply IH.
Qed.

Lemma gf_lbfgs_loop eps eval : ghost_free (lbfgs_loop eps eval).
Proof.
  intros w res w' H. unfold lbfgs_loop in H. by_ghost H.
  apply gf_bind; [apply gf_run_lbfgs | ghost].
Qed.

Lemma gf_attempt xs labels i : ghost_free (attempt xs labels i).
Proof.
  unfold attempt. apply gf_bind; [apply gf_reset_parameters|]. intros _.
  apply gf_bind; [ghost|]. intros cfg.
  apply gf_bind; [ghost|]. intros _.
  destruct (Config.optimizer cfg).
  - apply gf_adam_loop.
  - unfold trainm_loop_lbfgs. destruct xs; [ghost | apply gf_lbfgs_loop].
  - ghost.
Qed.

End MethodFacts.

(** ** The restart loop *)

Section RestartLoop.

Context {E : Elem} {T : Torch}.

Import FloatOrder.

Local Open Scope method_scope.

(** One step of the model selection: a run replaces the best so far when
    its loss is strictly lower. *)
Definition better (acc : pyfloat * option StateDict) (run : pyfloat * StateDict)
  : pyfloat * option StateDict :=
  if PyFloat.ltb (fst run) (fst acc) then (fst run, Some (snd run)) else acc.

(** The minimum of the losses of [outs], at its first occurrence: run [i]
    has loss [v] and state [sd]; no loss is below [v]; [v] is below or
    equal to every loss that compares (every loss but NaN); and every such
    loss before run [i] is strictly above [v]. *)
Definition is_best (outs : list (pyfloat * StateDict)) (v : pyfloat) (sd : StateDict)
  : Prop :=
  exists i,
    nth_error outs i = Some (v, sd) /\
    (forall l sd', In (l, sd') outs -> PyFloat.ltb l v = false) /\
    (forall l sd', In (l, sd') outs -> PyFloat.isnan l = false -> PyFloat.leb v l = true) /\
    (forall j l sd', j < i -> nth_error outs j = Some (l, sd') ->
                     PyFloat.isnan l = false -> PyFloat.ltb v l = true).

Lemma nothing_below (outs : list (pyfloat * StateDict)) v :
  (forall l sd', In (l, sd') outs -> PyFloat.isnan l = false -> PyFloat.leb v l = true) ->
  forall l sd', In (l, sd') outs -> PyFloat.ltb l v = false.
Proof.
  intros H l sd' Hin. destruct (PyFloat.isnan l) eqn:Hn.
  - apply ltb_nan_left. assumption.
  - apply leb_not_ltb. eauto.
Qed.

Lemma best_of_runs outs :
  let acc := fold_left better outs (PyFloat.inf, None) in
  PyFloat.isnan (fst acc) = false /\
  (forall l sd', In (l, sd') outs -> PyFloat.isnan l = false ->
                 PyFloat.leb (fst acc) l = true) /\
  match snd acc with
  | None => fst acc = PyFloat.inf
  | Some sd => is_best outs (fst acc) sd
  end.
Proof.
  induction outs as [|[l sd] outs IH] using rev_ind; simpl.
  - repeat split; auto; intros l sd' [].
  - rewrite fold_left_app. simpl.
    destruct (fold_left better outs (PyFloat.inf, None)) as [b s].
    simpl in IH. destruct IH as (Hb & Hmin & Hs).
    unfold better; simpl. destruct (PyFloat.ltb l b) eqn:Hlt; simpl.
    + destruct (ltb_not_nan _ _ Hlt) as [Hl _].
      assert (forall l' sd', In (l', sd') outs -> PyFloat.isnan l' = false ->
                             PyFloat.ltb l l' = true) as Hbelow
          by (intros; eapply ltb_le_trans; eauto).
      split; [assumption|]. split.
      * intros l' sd' Hin Hn. apply in_app_or in Hin. destruct Hin as [Hin|[Heq|[]]].
        -- apply ltb_leb. eauto.
        -- inversion Heq; subst. apply leb_refl; assumption.
      * exists (length outs). split; [|split; [apply nothing_below|split]].
        -- rewrite nth_error_app2 by lia. rewrite Nat.sub_diag. reflexivity.
        -- intros l' sd' Hin Hn. apply in_app_or in Hin. destruct Hin as [Hin|[Heq|[]]].
           ++ apply ltb_leb. eauto.
           ++ inversion Heq; subst. apply leb_refl; assumption.
        -- intros l' sd' Hin Hn. apply in_app_or in Hin. destruct Hin as [Hin|[Heq|[]]].
           ++ apply ltb_leb. eauto.
           ++ inversion Heq; subst. apply leb_refl; assumption.
        -- intros j l' sd' Hj Hnth Hn. rewrite nth_error_app1 in Hnth by lia.
           eapply Hbelow; eauto. eapply nth_error_In; eauto.
    + split; [assumption|]. split.
      * intros l' sd' Hin Hn. apply in_app_or in Hin. destruct Hin as [Hin|[Heq|[]]].
        -- eauto.
        -- inversion Heq; subst. apply not_ltb_leb; assumption.
      * destruct s as [sd0|]; [|assumption].
        destruct Hs as (i & Hi & _ & Hle & Hfirst).
        assert (i < length outs) as Hlen by (apply nth_error_Some; congruence).
        exists i. split; [|split; [apply nothing_below|split]].
        -- rewrite nth_error_app1 by assumption. assumption.
        -- intros l' sd' Hin Hn. apply in_app_or in Hin. destruct Hin as [Hin|[Heq|[]]].
           ++ eauto.
           ++ inversion Heq; subst. apply not_ltb_leb; assumption.
        -- intros l' sd' Hin Hn. apply in_app_or in Hin. destruct Hin as [Hin|[Heq|[]]].
           ++ eauto.
           ++ inversion Heq; subst. apply not_ltb_leb; assumption.
        -- intros j l' sd' Hj Hnth Hn. rewrite nth_error_app1 in Hnth by lia. eauto.
Qed.

(** The state dict of the last run of [outs], or [d] when there is none. *)
Definition last_state (outs : list (pyfloat * StateDict)) (d : StateDict) : StateDict :=
  match rev outs with
  | [] => d
  | (_, sd) :: _ => sd
  end.

Lemma last_state_cons x outs d : last_state (x :: outs) d = last_state outs (snd x).
Proof.
  unfold last_state. simpl. destruct (rev outs) as [|[l sd] r]; simpl.
  - destruct x; reflexivity.
  - reflexivity.
Qed.

(** What the loop does, given attempts that leave the ghost field alone:
    it logs one run per restart, and its result is the fold of [better]
    over the runs; an exception means a restart did not complete. *)
Lemma restarts_spec (attempt : nat -> M pyfloat) :
  (forall i, ghost_free (attempt i)) ->
  forall ixs b s w res w',
    restarts attempt ixs b s w = (res, w') ->
    exists outs,
      runs w' = runs w ++ outs /\
      match res with
      | Ok acc =>
          length outs = length ixs /\
          acc = fold_left better outs (b, s) /\
          state_dict (self w') = last_state outs (state_dict (self w))
      | Raise _ => length outs < length ixs
      end.
Proof.
  intros Hgf. induction ixs as [|i ixs IH]; intros b s w res w' H; simpl in H.
  - inversion H; subst. exists []. rewrite app_nil_r. auto.
  - apply bind_inv in H. destruct H as [(l & w1 & H1 & H) | (e & H1 & ->)].
    + unfold bind, record_run, reads in H; simpl in H.
      pose proof (Hgf _ _ _ _ H1) as Hr1.
      set (sd1 := state_dict (self w1)) in *.
      set (w2 := mkWorld (self w1) (rng w1) (runs w1 ++ [(l, sd1)])) in *.
      assert (exists b' s', better (b, s) (l, sd1) = (b', s') /\
                            restarts attempt ixs b' s' w2 = (res, w'))
        as (b' & s' & Hb & H').
      { unfold better; simpl. destruct (PyFloat.ltb l b); eauto. }
      apply IH in H'. destruct H' as (outs & Hruns & Hres).
      exists ((l, sd1) :: outs). split.
      * rewrite Hruns. simpl. rewrite Hr1, <- app_assoc. reflexivity.
      * destruct res as [acc|e]; simpl.
        -- destruct Hres as (Hlen & Hacc & Hlast). repeat split.
           ++ congruence.
           ++ rewrite Hb. assumption.
           ++ rewrite last_state_cons. assumption.
        -- lia.
    + exists []. rewrite app_nil_r. split; [exact (Hgf _ _ _ _ H1)|simpl; lia].
Qed.

End RestartLoop.

(** ** [fit] *)

Section FitFacts.

Context {E : Elem} {T : Torch}.

Import FloatOrder.

Local Open Scope method_scope.

Lemma restart_loop_spec (attempt : nat -> M pyfloat) :
  (forall i, ghost_free (attempt i)) ->
  forall w res w',
    restart_loop attempt w = (res, w') ->
    let n := Z.to_nat (Config.num_tries (config (self w))) in
    exists outs,
      runs w' = runs w ++ outs /\
      ((length outs = n /\
        let acc := fold_left better outs (PyFloat.inf, None) in
        if PyFloat.isfinite (fst acc)
        then exists sd, snd acc = Some sd /\ res = Ok (fst acc) /\
                        state_dict (self w') = sd
        else res = Raise RuntimeError /\
             state_dict (self w') = last_state outs (state_dict (self w)))
       \/ (length outs < n /\ exists e, res = Raise e)).
Proof.
  intros Hgf w res w' H n. unfold restart_loop in H.
  unfold bind at 1 in H. unfold reads at 1 in H.
  apply bind_inv in H. destruct H as [(acc & w1 & H1 & H) | (e & H1 & ->)].
  - apply (restarts_spec _ Hgf) in H1. destruct H1 as (outs & Hruns & Hlen & Hacc & Hlast).
    rewrite length_seq in Hlen.
    pose proof (best_of_runs outs) as Hbest. simpl in Hbest. rewrite <- Hacc in Hbest.
    destruct acc as [b s]. simpl in Hbest. destruct Hbest as (_ & _ & Hs).
    unfold commit in H.
    destruct (PyFloat.isfinite b) eqn:Hfin; simpl in H.
    + destruct s as [sd|]; [|subst b; discriminate].
      unfold bind, modify_self, ret in H. inversion H; subst res w'; clear H.
      exists outs. simpl. split; [assumption|]. left. split; [assumption|].
      rewrite <- Hacc. simpl. rewrite Hfin. exists sd.
      repeat split. destruct sd; reflexivity.
    + inversion H; subst res w'; clear H.
      exists outs. split; [assumption|]. left. split; [assumption|].
      rewrite <- Hacc. simpl. rewrite Hfin. auto.
  - apply (restarts_spec _ Hgf) in H1. destruct H1 as (outs & Hruns & Hlen).
    rewrite length_seq in Hlen. exists outs. split; [assumption|]. right. eauto.
Qed.

(** Only [norms] differs between two worlds. *)
Definition norms_only (w w1 : World) : Prop :=
  exists ns, w1 = mkWorld (set_norms ns (self w)) (rng w) (runs w).

Lemma norms_only_refl w : norms_only w w.
Proof. exists (norms (self w)). destruct w as [[] ? ?]; reflexivity. Qed.

Lemma norms_only_trans w w1 w2 : norms_only w w1 -> norms_only w1 w2 -> norms_only w w2.
Proof. intros [ns ->] [ns' ->]. exists ns'. reflexivity. Qed.

Lemma norms_only_frame w w1 :
  norms_only w w1 ->
  runs w1 = runs w /\ rng w1 = rng w /\ state_dict (self w1) = state_dict (self w) /\
  config (self w1) = config (self w).
Proof. intros [ns ->]. auto. Qed.

Lemma rmap_raise {A B} (f : A -> result B) l e :
  rmap f l = Raise e -> exists x, In x l /\ f x = Raise e.
Proof.
  induction l as [|x l IH]; simpl; [discriminate|].
  destruct (f x) as [y|e'] eqn:Hx; simpl.
  - destruct (rmap f l); simpl; [discriminate|]. intros H; inversion H; subst.
    destruct IH as (x' & Hin & Hf); eauto.
  - intros H; inversion H; subst. eauto.
Qed.

Lemma index_raise {A} (l : list A) i e : index l i = Raise e -> e = IndexError.
Proof. unfold index. destruct (nth_error l i); congruence. Qed.

Lemma fit_norms_frame xs ixs :
  forall w res w1,
    fit_norms ixs xs w = (res, w1) ->
    norms_only w w1 /\ (res = Ok tt \/ res = Raise IndexError).
Proof.
  induction ixs as [|i ixs IH]; intros w res w1 H; simpl in H.
  - inversion H; subst. split; [apply norms_only_refl | auto].
  - unfold bind at 1, reads at 1 in H.
    destruct (index (norms (self w)) i) as [nz|e] eqn:Hn.
    2:{ inversion H; subst. apply index_raise in Hn; subst.
        split; [apply norms_only_refl | auto]. }
    unfold bind at 1, lift at 1 in H.
    destruct (index xs i) as [x|e] eqn:Hx.
    2:{ inversion H; subst. apply index_raise in Hx; subst.
        split; [apply norms_only_refl | auto]. }
    unfold bind at 1, modify_self at 1 in H.
    apply IH in H. destruct H as [Hno Hres]. split; [|assumption].
    eapply norms_only_trans; [|exact Hno]. eexists. reflexivity.
Qed.

Lemma normalized_groups_frame hiddens w res w1 :
  normalized_groups hiddens w = (res, w1) ->
  norms_only w w1 /\ (forall e, res = Raise e -> e = IndexError).
Proof.
  unfold normalized_groups. intros H.
  unfold bind at 1, lift at 1 in H.
  destruct (unbind2 hiddens) as [xs|e] eqn:Hu.
  2:{ inversion H; subst. split; [apply norms_only_refl|].
      intros e' He; inversion He; subst. unfold unbind2 in Hu.
      destruct (shape hiddens) as [|? [|? [|? ?]]]; congruence. }
  unfold bind at 1, lift at 1 in H.
  destruct (index xs 0) as [x0|e] eqn:H0.
  2:{ inversion H; subst. split; [apply norms_only_refl|].
      intros e' He; inversion He; subst. eapply index_raise; eauto. }
  apply bind_inv in H. destruct H as [([] & w2 & H1 & H) | (e & H1 & ->)].
  - apply fit_norms_frame in H1. destruct H1 as [Hno _].
    unfold apply_norms, reads in H. inversion H; subst. split; [assumption|].
    intros e He. apply rmap_raise in He. destruct He as (i & _ & He).
    destruct (index (norms (self w1)) i) eqn:Hi; simpl in He.
    + destruct (index xs i) eqn:Hi'; simpl in He; [discriminate|].
      inversion He; subst. eapply index_raise; eauto.
    + inversion He; subst. eapply index_raise; eauto.
  - apply fit_norms_frame in H1. destruct H1 as [Hno [Hres|Hres]]; [discriminate|].
    split; [assumption|]. intros e' He. congruence.
Qed.

(** With four normalisers, the head of [fit] on four groups. *)
Lemma normalized_groups_four hiddens a b s w :
  shape hiddens = a :: b :: 4 :: s ->
  length (norms (self w)) = 4 ->
  exists g0 g1 g2 g3 n0 n1 n2 n3,
    unbind2 hiddens = Ok [g0; g1; g2; g3] /\
    norms (self w) = [n0; n1; n2; n3] /\
    normalized_groups hiddens w =
      (Ok [nz_call (nz_fit n0 g0) g0; nz_call (nz_fit n1 g1) g1;
           nz_call (nz_fit n2 g2) g2; nz_call (nz_fit n3 g3) g3],
       mkWorld (set_norms [nz_fit n0 g0; nz_fit n1 g1; nz_fit n2 g2; nz_fit n3 g3]
                          (self w))
               (rng w) (runs w)).
Proof.
  intros Hs Hn. destruct w as [sf g r]. destruct sf as [cfg inf bi sc ns nm pr].
  simpl in *. destruct ns as [|n0 [|n1 [|n2 [|n3 [|? ?]]]]]; try discriminate.
  unfold normalized_groups, unbind2. rewrite Hs. simpl seq. simpl map.
  do 8 eexists. split; [reflexivity|]. split; reflexivity.
Qed.

(** With four normalisers, the head of [fit] on any other number of
    groups. *)
Lemma normalized_groups_not_four hiddens a b k s w :
  shape hiddens = a :: b :: k :: s ->
  k <> 4 ->
  length (norms (self w)) = 4 ->
  exists w1, normalized_groups hiddens w = (Raise IndexError, w1).
Proof.
  intros Hs Hk Hn. destruct w as [sf g r]. destruct sf as [cfg inf bi sc ns nm pr].
  simpl in *. destruct ns as [|n0 [|n1 [|n2 [|n3 [|? ?]]]]]; try discriminate.
  unfold normalized_groups, unbind2. rewrite Hs.
  destruct k as [|[|[|[|[|k]]]]]; try congruence;
    simpl seq; simpl map; eexists; cbn; reflexivity.
Qed.

End FitFacts.

(** ** Model selection across restarts *)

Section Selection.

Context {E : Elem} {T : Torch}.

Local Open Scope method_scope.

(** What follows the head of [fit]. *)
Lemma fit_inv hiddens labels w res w' :
  fit hiddens labels w = (res, w') ->
  (exists xs w1,
      normalized_groups hiddens w = (Ok xs, w1) /\ norms_only w w1 /\
      restart_loop (attempt xs labels) w1 = (res, w')) \/
  (res = Raise IndexError /\ normalized_groups hiddens w = (Raise IndexError, w') /\
   norms_only w w').
Proof.
  intros H. unfold fit in H. apply bind_inv in H.
  destruct H as [(xs & w1 & H1 & H) | (e & H1 & ->)].
  - left. exists xs, w1. repeat split; try assumption.
    apply (normalized_groups_frame _ _ H1).
  - right. destruct (normalized_groups_frame _ _ H1) as [Hno He].
    rewrite (He e eq_refl) in *. auto.
Qed.



End Selection.

(** ** The optimisation drivers *)

Section Drivers.

Context {E : Elem} {T : Torch}.

Local Open Scope method_scope.

(** The calls of the closure during [optimizer.step(closure)], in order:
    the reporter at the point of the call, and what the call gave. *)
Fixpoint closure_calls (prog : lbfgs_run Grads) (eval : CcsReporter -> result R)
         (s : CcsReporter) : list (CcsReporter * result (pyfloat * Grads * R)) :=
  match prog with
  | LbfgsDone _ => []
  | LbfgsEval point next =>
      let s' := set_parameters point s in
      (s', closure eval s')
        :: match closure eval s' with
           | Ok (v, g, _) => closure_calls (next v g) eval s'
           | Raise _ => []
           end
  end.

(** The value a call of the closure stored in [loss]. *)
Definition stored (c : CcsReporter * result (pyfloat * Grads * R)) : option R :=
  match snd c with
  | Ok (_, _, l) => Some l
  | Raise _ => None
  end.

(** The penalty of one parameter: [weight_decay * param.norm() ** 2 / 2]. *)
Definition l2_penalty (wd : pyfloat) (p : tensor) : R :=
  rdiv (rmul (rsquare (vnorm (data p))) (rconst wd)) (rconst PyFloat.two).

(** A call of the closure that returned: the loss [l] of the reporter at
    the point, stored as it is, and the regularised value, returned as a
    float and back-propagated. *)
Definition regularized_call (eval : CcsReporter -> result R)
           (c : CcsReporter * result (pyfloat * Grads * R)) : Prop :=
  exists l,
    eval (fst c) = Ok l /\
    let regularized :=
      radd l (regularizer (Config.weight_decay (config (fst c))) (parameters (fst c))) in
    snd c = Ok (ritem regularized, backward regularized, l).

Lemma fold_left_map {A B C} (f : A -> B -> A) (g : C -> B) l a :
  fold_left f (map g l) a = fold_left (fun acc x => f acc (g x)) l a.
Proof. revert a. induction l as [|x l IH]; intros a; simpl; auto. Qed.

Lemma regularizer_sum wd p ps :
  regularizer wd (p :: ps) =
  fold_left (fun acc q => radd acc (l2_penalty wd q)) ps
            (radd (l2_penalty wd p) (rconst PyFloat.zero)).
Proof. unfold regularizer, l2_terms. simpl. apply fold_left_map. Qed.

Lemma closure_inv eval s v g l :
  closure eval s = Ok (v, g, l) -> regularized_call eval (s, Ok (v, g, l)).
Proof.
  unfold closure, regularized_call. simpl. destruct (eval s) as [l'|e]; simpl; intros H.
  - inversion H; subst. exists l. auto.
  - discriminate.
Qed.

Lemma last_cons {A} (x : A) l d : last (x :: l) d = last l x.
Proof.
  revert x d. induction l as [|y l IH]; intros x d; [reflexivity|].
  change (last (x :: y :: l) d) with (last (y :: l) d). rewrite !IH. reflexivity.
Qed.

Lemma run_lbfgs_spec eval prog :
  forall l0 w lR w',
    run_lbfgs prog eval l0 w = (Ok lR, w') ->
    let calls := closure_calls prog eval (self w) in
    Forall (regularized_call eval) calls /\
    lR = last (map stored calls) l0 /\
    exists final,
      self w' = set_parameters final (last (map fst calls) (self w)).
Proof.
  induction prog as [final | point next IH]; intros l0 w lR w' H; simpl in H.
  - unfold bind, modify_self, ret in H. inversion H; subst. simpl.
    split; [constructor|]. split; [reflexivity|]. exists final. reflexivity.
  - unfold bind at 1, modify_self at 1 in H.
    unfold bind at 1, reads at 1 in H. simpl self in H.
    cbn [closure_calls].
    destruct (closure eval (set_parameters point (self w))) as [[[v g] l]|e] eqn:Hc;
      [|discriminate].
    apply IH in H. simpl self in H. destruct H as (Hall & Hl & final & Hf).
    cbv zeta. split; [|split].
    + constructor; [apply closure_inv; assumption | assumption].
    + rewrite Hl. cbn [map]. rewrite last_cons. reflexivity.
    + exists final. rewrite Hf. cbn [map]. rewrite last_cons. reflexivity.
Qed.

Lemma lbfgs_loop_spec eps eval w v w' :
  lbfgs_loop eps eval w = (Ok v, w') ->
  let cfg := config (self w) in
  let calls :=
    closure_calls (lbfgs_step (Config.num_epochs cfg) eps (parameters (self w)))
                  eval (self w) in
  Forall (regularized_call eval) calls /\
  v = float_of_loss (last (map stored calls) None) /\
  exists final, self w' = set_parameters final (last (map fst calls) (self w)).
Proof.
  unfold lbfgs_loop. intros H. apply bind_inv in H.
  destruct H as [(l & w1 & H1 & H) | (e & _ & ?)]; [|discriminate].
  inversion H; subst. apply run_lbfgs_spec in H1.
  destruct H1 as (Hall & -> & Hf). auto.
Qed.


Lemma adam_epochs_spec eval n :
  forall opt l0 w lR w',
    adam_epochs eval n opt l0 w = (Ok lR, w') ->
    (n = 0 /\ lR = l0 /\ w' = w) \/
    (exists s r opt',
        eval s = Ok r /\ lR = Some r /\
        self w' = set_parameters (fst (adamw_step opt' (parameters s) (backward r))) s).
Proof.
  induction n as [|n IH]; intros opt l0 w lR w' H; simpl in H.
  - inversion H; subst. auto.
  - right. unfold bind at 1, reads at 1 in H.
    destruct (eval (self w)) as [r|e] eqn:He; [|discriminate].
    unfold bind at 1 in H.
    destruct (adamw_step opt (parameters (self w)) (backward r)) as [ps opt1] eqn:Hstep.
    apply IH in H. destruct H as [(-> & -> & ->) | H]; [|exact H].
    exists (self w), r, opt. rewrite Hstep. auto.
Qed.

Lemma adam_loop_spec eval w v w' :
  adam_loop eval w = (Ok v, w') ->
  (Z.to_nat (Config.num_epochs (config (self w))) = 0 /\ v = PyFloat.inf /\ w' = w) \/
  (exists s r opt,
      eval s = Ok r /\ v = ritem r /\
      self w' = set_parameters (fst (adamw_step opt (parameters s) (backward r))) s).
Proof.
  unfold adam_loop. intros H. apply bind_inv in H.
  destruct H as [(l & w1 & H1 & H) | (e & _ & ?)]; [|discriminate].
  inversion H; subst. apply adam_epochs_spec in H1.
  destruct H1 as [(Hn & -> & ->) | (s & r & opt & He & -> & Hs)]; [left; auto|].
  right. exists s, r, opt. auto.
Qed.


(** C4 fails on the code.  The Adam driver of the multi-group path hands
    the whole list of groups to [forward], which takes one tensor: the
    evaluation raises before any loss is computed, and with one epoch or
    more the driver raises on entry.  The LBFGS driver applies [forward]
    to each group and passes the list of outputs to [lossm]. *)
Theorem adam_driver_forwards_the_list x_tensors labels :
  (forall s, eval_whole x_tensors labels s = Raise not_a_tensor) /\
  (forall s,
      eval_groups x_tensors labels s =
      rbind (rmap (fun x => forward s (ATensor x)) x_tensors)
            (fun outs => lossm s outs labels)) /\
  (forall w n,
      Z.to_nat (Config.num_epochs (config (self w))) = S n ->
      trainm_loop_adam x_tensors labels w = (Raise not_a_tensor, w)).
Proof.
  split; [reflexivity|]. split; [reflexivity|].
  intros w n Hn. unfold trainm_loop_adam, adam_loop. rewrite Hn. reflexivity.
Qed.

End Drivers.

(** ** The loss without labels, the Platt parameters, separability *)

Section Composer.

Context {E : Elem} {T : Torch}.

(** The invariant of the configuration: the loss specification is not
    empty and names registered terms only. *)
Definition registered (cfg : Config.t) : Prop :=
  Config.loss_dict cfg <> [] /\
  Forall (fun nc : string * pyfloat => LOSSES (fst nc) <> None) (Config.loss_dict cfg).

Lemma rmap_total {A B} (f : A -> result B) l :
  Forall (fun x => exists y, f x = Ok y) l ->
  exists ys, rmap f l = Ok ys /\ length ys = length l.
Proof.
  induction 1 as [|x l (y & Hy) _ (ys & Hys & Hlen)]; simpl.
  - exists []. auto.
  - rewrite Hy, Hys. simpl. exists (y :: ys). simpl. auto.
Qed.

Lemma terms_total {X} (form : loss_term -> X -> pyfloat -> R) (x : X) dict :
  dict <> [] ->
  Forall (fun nc : string * pyfloat => LOSSES (fst nc) <> None) dict ->
  exists u,
    rbind (rmap (fun nc : string * pyfloat =>
                   let? f := lookup_term (fst nc) in Ok (form f x (snd nc))) dict)
          (fun terms => assert_tensor (pysum terms)) = Ok u.
Proof.
  intros Hne Hreg.
  destruct (rmap_total (fun nc : string * pyfloat =>
                          let? f := lookup_term (fst nc) in Ok (form f x (snd nc))) (l := dict))
    as (ys & Hys & Hlen).
  { eapply Forall_impl; [|exact Hreg]. intros [name coef] Hn. simpl in *.
    unfold lookup_term. destruct (LOSSES name); [|congruence]. simpl. eauto. }
  rewrite Hys. simpl. destruct ys as [|y ys].
  - destruct dict; [congruence|discriminate].
  - simpl. eauto.
Qed.

Lemma unsupervised_loss_total s logit0 logit1 :
  registered (config s) -> exists u, unsupervised_loss s logit0 logit1 = Ok u.
Proof.
  intros [Hne Hreg]. unfold unsupervised_loss.
  apply (terms_total (fun f (x : tensor * tensor) c => pair_form f (fst x) (snd x) c)
                     (logit0, logit1) Hne Hreg).
Qed.

Lemma unsupervised_lossm_total s logits :
  registered (config s) -> exists u, unsupervised_lossm s logits = Ok u.
Proof.
  intros [Hne Hreg]. unfold unsupervised_lossm.
  apply (terms_total (fun f (x : list tensor) c => group_form f x c) logits Hne Hreg).
Qed.


(** The reporter with other values of the Platt parameters. *)
Definition set_platt (b sc : tensor) (s : CcsReporter) : CcsReporter :=
  mkReporter (config s) (in_features s) b sc (norms s) (norm s) (probe s).

(** C9.  [forward] is the probe applied to the projected input, squeezed,
    and neither it nor [loss], [lossm] or the loss evaluations of the
    drivers read [bias] or [scale]: with any other values of the two, all
    of them give the same result. *)
Theorem platt_parameters_unused s b sc :
  (forall x, forward s (ATensor x)
             = Ok (squeeze_last (sequential (probe s) (sn_call (norm s) x)))) /\
  (forall x, forward (set_platt b sc s) x = forward s x) /\
  (forall logit0 logit1 labels,
      loss (set_platt b sc s) logit0 logit1 labels = loss s logit0 logit1 labels) /\
  (forall logits labels,
      lossm (set_platt b sc s) logits labels = lossm s logits labels) /\
  (forall x_neg x_pos labels,
      eval_pair x_neg x_pos labels (set_platt b sc s) = eval_pair x_neg x_pos labels s) /\
  (forall x_tensors labels,
      eval_groups x_tensors labels (set_platt b sc s) = eval_groups x_tensors labels s).
Proof. repeat split. Qed.

(** A float of the interval [0, 1]. *)
Definition in_unit (x : pyfloat) : bool :=
  PyFloat.leb PyFloat.zero x && PyFloat.leb x PyFloat.one.

Lemma tany_false t : tany t = false <-> Forall (fun x => rnonzero x = false) (data t).
Proof.
  unfold tany. induction (data t) as [|x l IH]; simpl.
  - split; auto.
  - rewrite orb_false_iff, IH. split.
    + intros [? ?]. constructor; assumption.
    + intros H. inversion H; subst. auto.
Qed.


End Composer.

(** ** The supervised term *)

Section TensorFacts.

Context {E : Elem}.

Lemma concat_chunks {A} k n (l : list A) :
  length l = n * k -> concat (chunks k n l) = l.
Proof.
  revert l. induction n as [|n IH]; intros l Hl; simpl.
  - destruct l; [reflexivity|discriminate].
  - rewrite IH; [apply firstn_skipn|]. rewrite length_skipn. simpl in Hl. lia.
Qed.

Lemma chunks_lengths {A} k n (l : list A) :
  length l = n * k -> Forall (fun c => length c = k) (chunks k n l).
Proof.
  revert l. induction n as [|n IH]; intros l Hl; simpl; constructor.
  - rewrite length_firstn. simpl in Hl. lia.
  - apply IH. rewrite length_skipn. simpl in Hl. lia.
Qed.

Lemma length_chunks {A} k n (l : list A) : length (chunks k n l) = n.
Proof. revert l. induction n; intros l; simpl; auto. Qed.

Lemma chunks_concat {A} k (cols : list (list A)) :
  Forall (fun c => length c = k) cols ->
  chunks k (length cols) (concat cols) = cols.
Proof.
  induction 1 as [|c cols Hc _ IH]; simpl; [reflexivity|].
  rewrite firstn_app, skipn_app, Hc, Nat.sub_diag. simpl.
  rewrite firstn_all2 by lia. rewrite skipn_all2 by lia.
  rewrite app_nil_r. simpl. rewrite IH. reflexivity.
Qed.

Lemma expand_same s : forall l, length l = numel s -> expand s s l = l.
Proof.
  induction s as [|d s IH]; intros l Hl; simpl; [reflexivity|].
  rewrite Nat.eqb_refl. simpl in Hl.
  rewrite <- (concat_chunks (numel s) d l Hl) at 2. f_equal.
  rewrite <- (map_id (chunks (numel s) d l)) at 2.
  apply map_ext_in. intros c Hc. apply IH.
  pose proof (chunks_lengths (numel s) d l Hl) as Hall.
  rewrite Forall_forall in Hall. auto.
Qed.

Lemma broadcast_rev_same a : broadcast_rev a a = Some a.
Proof.
  induction a as [|x a IH]; simpl; [reflexivity|].
  rewrite IH, Nat.eqb_refl. reflexivity.
Qed.

Lemma broadcast_shape_same s : broadcast_shape s s = Some s.
Proof.
  unfold broadcast_shape. rewrite broadcast_rev_same. simpl. rewrite rev_involutive.
  reflexivity.
Qed.

(** On two tensors of the same shape a binary operation works element by
    element. *)
Lemma tmap2_same_shape f a b :
  shape a = shape b -> wf a -> wf b ->
  tmap2 f a b = Ok (mkT (shape a) (zip_with f (data a) (data b))).
Proof.
  intros Hs Ha Hb. unfold tmap2. rewrite <- Hs, broadcast_shape_same.
  unfold pad_shape. rewrite Nat.sub_diag. simpl.
  rewrite !expand_same; [reflexivity| |]; unfold wf in *; congruence.
Qed.

Lemma zip_with_maps f (g h k : R -> R) l1 l2 :
  map k (zip_with f (map g l1) (map h l2)) =
  zip_with (fun x y => k (f (g x) (h y))) l1 l2.
Proof.
  revert l2. induction l1 as [|x l1 IH]; intros [|y l2]; simpl; try reflexivity.
  rewrite IH. reflexivity.
Qed.

Lemma length_zip_with f l1 l2 :
  length (zip_with f l1 l2) = Nat.min (length l1) (length l2).
Proof.
  revert l2. induction l1 as [|x l1 IH]; intros [|y l2]; simpl; auto.
Qed.

Lemma nth_error_zip_with f l1 l2 i x y :
  nth_error l1 i = Some x -> nth_error l2 i = Some y ->
  nth_error (zip_with f l1 l2) i = Some (f x y).
Proof.
  revert l2 i. induction l1 as [|a l1 IH]; intros [|b l2] [|i]; simpl;
    try discriminate; intros H1 H2.
  - congruence.
  - eauto.
Qed.

Lemma length_interleave {A} v (l : list A) :
  length (flat_map (fun x => repeat x v) l) = length l * v.
Proof.
  induction l as [|x l IH]; simpl; [reflexivity|].
  rewrite length_app, repeat_length, IH. reflexivity.
Qed.

(** Entry [i * v + j] of the repeated labels is label [i]. *)
Lemma nth_error_interleave {A} v (l : list A) i j :
  j < v -> i < length l ->
  nth_error (flat_map (fun x => repeat x v) l) (i * v + j) = nth_error l i.
Proof.
  intros Hj. revert i. induction l as [|x l IH]; intros i Hi; simpl in *; [lia|].
  destruct i as [|i]; simpl.
  - rewrite nth_error_app1 by (rewrite repeat_length; lia).
    apply nth_error_repeat. assumption.
  - rewrite nth_error_app2 by (rewrite repeat_length; lia).
    rewrite repeat_length. replace (v + i * v + j - v) with (i * v + j) by lia.
    apply IH. lia.
Qed.

Lemma columns_spec d N :
  forall rows : list (list R),
    Forall (fun r => N <= length r) rows ->
    columns N rows = map (fun i => map (fun r => nth i r d) rows) (seq 0 N).
Proof.
  induction N as [|N IH]; intros rows Hrows; [reflexivity|].
  cbn [columns seq map]. f_equal.
  - clear IH. induction Hrows as [|r rows Hr _ IH]; [reflexivity|].
    destruct r as [|x r]; simpl in Hr; [lia|].
    cbn [flat_map firstn app map nth]. f_equal. exact IH.
  - rewrite IH.
    + rewrite <- seq_shift, map_map. apply map_ext. intros i.
      rewrite map_map. apply map_ext_in. intros r Hin.
      rewrite Forall_forall in Hrows. specialize (Hrows r Hin).
      destruct r; simpl in *; [lia|reflexivity].
    + rewrite Forall_forall in *. intros r' Hin. apply in_map_iff in Hin.
      destruct Hin as (r & <- & Hin). specialize (Hrows r Hin).
      rewrite length_skipn. lia.
Qed.

End TensorFacts.

Section Supervised.

Context {E : Elem} {T : Torch}.

(** The mean of [p0] and [1 - p1], for the logits [a] and [b]. *)
Definition consensus2 (a b : R) : R :=
  rmul (radd (rsigmoid a) (rsub (rconst PyFloat.one) (rsigmoid b))) (rconst PyFloat.half).

(** The consensus predictions of the two-group form, for [m] labelled
    rows of [v] variants, in row-major order. *)
Definition pair_consensus (m v : nat) (logit0 logit1 : tensor) : list R :=
  zip_with consensus2 (firstn (m * v) (data logit0)) (firstn (m * v) (data logit1)).

(** The consensus predictions of the multi-group form: at every position
    the maximum, over the groups, of the sigmoid of the logit. *)
Definition group_consensus (m v : nat) (g0 : tensor) (gs : list tensor) : list R :=
  map (fun i =>
         fold_left rmax
                   (map (fun g => rsigmoid (nth i (data g) (rconst PyFloat.zero))) gs)
                   (rsigmoid (nth i (data g0) (rconst PyFloat.zero))))
      (seq 0 (m * v)).

(** The labels, each repeated for the [v] variants of its row. *)
Definition broadcast_labels (v : nat) (labels : tensor) : list R :=
  flat_map (fun y => repeat y v) (data labels).

Lemma shape_eqb_refl s : shape_eqb s s = true.
Proof. induction s; simpl; [reflexivity|]. rewrite Nat.eqb_refl. assumption. Qed.

Lemma supervised_matrix m v preds labels :
  length preds = m * v -> shape labels = [m] -> wf labels ->
  supervised (mkT [m; v] preds) labels = Ok (bce preds (broadcast_labels v labels)).
Proof.
  intros Hp Hs Hw. unfold supervised, shape_at. simpl.
  unfold binary_cross_entropy, repeat_interleave, flatten. simpl.
  rewrite length_interleave, Hp. unfold wf in Hw. rewrite Hs in Hw. simpl in Hw.
  rewrite Hw, Nat.mul_1_r, Nat.eqb_refl. reflexivity.
Qed.

Lemma length_firstn_rows {A} m n v (l : list A) :
  length l = n * (v * 1) -> m <= n -> length (firstn (m * v) l) = m * v.
Proof. intros Hl Hm. rewrite length_firstn. nia. Qed.

Lemma loss_with_labels s logit0 logit1 labels n v m u :
  shape logit0 = [n; v] -> shape logit1 = [n; v] -> wf logit0 -> wf logit1 ->
  v <> 1 ->
  shape labels = [m] -> wf labels -> m <= n ->
  unsupervised_loss s logit0 logit1 = Ok u ->
  loss s logit0 logit1 (Some labels) =
  Ok (blend (Config.supervised_weight (config s))
            (bce (pair_consensus m v logit0 logit1) (broadcast_labels v labels)) u).
Proof.
  intros H0 H1 W0 W1 Hv Hl Wl Hm Hu. unfold loss. rewrite Hu. simpl.
  unfold tlen, slice0. rewrite Hl, H0, H1. simpl.
  assert ((m <=? n) = true) as -> by (apply Nat.leb_le; assumption). simpl.
  rewrite (Nat.min_l m n Hm), Nat.mul_1_r.
  unfold wf in W0, W1. rewrite H0 in W0. rewrite H1 in W1. simpl in W0, W1.
  rewrite tmap2_same_shape; simpl; try reflexivity.
  2,3: unfold wf; simpl; rewrite ?length_map;
       rewrite (@length_firstn_rows _ m n v); simpl; auto; lia.
  unfold squeeze_last. simpl.
  assert ((v =? 1) = false) as -> by (apply Nat.eqb_neq; assumption).
  unfold tmap. simpl. rewrite map_map, zip_with_maps.
  rewrite supervised_matrix; try assumption.
  - reflexivity.
  - rewrite length_zip_with, !(@length_firstn_rows _ m n v) by assumption. lia.
Qed.

Lemma rmap_slices m n v (gs : list tensor) :
  Forall (fun g => shape g = [n; v] /\ wf g) gs ->
  rmap (fun logit => let? l := slice0 m logit in Ok (tmap rsigmoid l)) gs =
  Ok (map (fun g => mkT [Nat.min m n; v]
                        (map rsigmoid (firstn (Nat.min m n * (v * 1)) (data g)))) gs).
Proof.
  induction 1 as [|g gs [Hs _] _ IH]; simpl; [reflexivity|].
  rewrite IH. unfold slice0. rewrite Hs. reflexivity.
Qed.

Lemma nth_firstn_lt {A} i n (l : list A) d :
  i < n -> nth i (firstn n l) d = nth i l d.
Proof.
  revert i l. induction n as [|n IH]; intros i l Hi; [lia|].
  destruct l as [|x l]; [destruct i; reflexivity|].
  destruct i as [|i]; simpl; [reflexivity|]. apply IH. lia.
Qed.

Lemma rbind_ok {A B} (a : A) (k : A -> result B) : rbind (Ok a) k = k a.
Proof. reflexivity. Qed.

Lemma rbind_assoc {A B C} (m : result A) (f : A -> result B) (g : B -> result C) :
  rbind (rbind m f) g = rbind m (fun x => rbind (f x) g).
Proof. destruct m; reflexivity. Qed.

Ltac step := cbv beta iota; rewrite ?rbind_ok; cbv beta iota.

(** Stacking [k] buffers of the same shape along a new last axis and
    taking the maximum along it: at every position, the maximum of the
    [k] elements at that position. *)
Lemma stack_then_max d m v (r0 : list R) (rows : list (list R)) :
  (forall r, In r (r0 :: rows) -> length r = m * v) ->
  rbind (stack_last (map (mkT [m; v]) (r0 :: rows))) max_last =
  Ok (mkT [m; v]
          (map (fun i => fold_left rmax (map (fun r => nth i r d) rows) (nth i r0 d))
               (seq 0 (m * v)))).
Proof.
  intros Hrow. unfold stack_last. cbn [map shape].
  assert (forallb (fun t : tensor => shape_eqb (shape t) [m; v])
                  (map (mkT [m; v]) rows) = true) as ->.
  { apply forallb_forall. intros t Ht. apply in_map_iff in Ht.
    destruct Ht as (g & <- & _). apply shape_eqb_refl. }
  step. unfold max_last. cbn [shape data app rev length]. step.
  rewrite map_map. cbn [data]. rewrite map_id.
  replace (numel [m; v]) with (m * v) by (simpl; lia).
  replace (numel [v; m]) with (m * v) by (simpl; lia).
  rewrite (columns_spec d).
  2:{ rewrite Forall_forall. intros r Hr. rewrite Hrow by assumption. lia. }
  set (cols := map (fun i => map (fun r => nth i r d) (r0 :: rows)) (seq 0 (m * v))).
  assert (length cols = m * v) as Hcols
      by (unfold cols; rewrite length_map, length_seq; reflexivity).
  rewrite <- Hcols at 1. rewrite chunks_concat.
  2:{ unfold cols. rewrite Forall_forall. intros c Hc. apply in_map_iff in Hc.
      destruct Hc as (i & <- & _). rewrite !length_map. reflexivity. }
  f_equal. f_equal. unfold cols. clear.
  induction (seq 0 (m * v)) as [|i l IH]; [reflexivity|].
  cbn [map flat_map reduce_max app]. f_equal. exact IH.
Qed.

Lemma lossm_with_labels s g0 gs labels n v m u :
  Forall (fun g => shape g = [n; v] /\ wf g) (g0 :: gs) ->
  shape labels = [m] -> wf labels -> m <= n ->
  unsupervised_lossm s (g0 :: gs) = Ok u ->
  lossm s (g0 :: gs) (Some labels) =
  Ok (blend (Config.supervised_weight (config s))
            (bce (group_consensus m v g0 gs) (broadcast_labels v labels)) u).
Proof.
  intros Hg Hl Wl Hm Hu. unfold lossm. rewrite Hu. step.
  pose proof Hg as Hg'. inversion Hg' as [|? ? [H0 W0] Hgs]; subst.
  unfold tlen at 1. rewrite Hl. step.
  unfold tlen at 1. rewrite H0. step.
  assert ((m <=? n) = true) as -> by (apply Nat.leb_le; assumption).
  cbn [negb]. step.
  unfold slice0 at 1. rewrite H0. step.
  rewrite (rmap_slices m Hg). step.
  rewrite (Nat.min_l m n Hm), Nat.mul_1_r.
  set (row := fun g : tensor => map rsigmoid (firstn (m * v) (data g))).
  assert (forall g, In g (g0 :: gs) -> length (row g) = m * v) as Hrow.
  { intros g Hin. rewrite Forall_forall in Hg. destruct (Hg g Hin) as [Hs Hw].
    unfold row. rewrite length_map. unfold wf in Hw. rewrite Hs in Hw. simpl in Hw.
    apply (@length_firstn_rows _ m n v); assumption. }
  change (map (fun g => mkT [m; v] (map rsigmoid (firstn (m * v) (data g)))) (g0 :: gs))
    with (map (fun g => mkT [m; v] (row g)) (g0 :: gs)).
  rewrite <- (map_map row (mkT [m; v])).
  pose proof (@stack_then_max (rsigmoid (rconst PyFloat.zero)) m v (row g0) (map row gs))
    as Hsm.
  cbn [map] in Hsm |- *.
  rewrite <- (rbind_assoc _ max_last). rewrite Hsm.
  2:{ intros r [<-|Hr]; [apply Hrow; left; reflexivity|].
      apply in_map_iff in Hr. destruct Hr as (g & <- & Hin). apply Hrow. right. assumption. }
  step.
  assert (map (fun i => fold_left rmax
                          (map (fun r => nth i r (rsigmoid (rconst PyFloat.zero)))
                               (map row gs))
                          (nth i (row g0) (rsigmoid (rconst PyFloat.zero))))
              (seq 0 (m * v)) = group_consensus m v g0 gs) as ->.
  { unfold group_consensus. apply map_ext_in. intros i Hi. apply in_seq in Hi.
    rewrite map_map. unfold row. rewrite map_nth, nth_firstn_lt by lia. f_equal.
    apply map_ext. intros g. rewrite map_nth, nth_firstn_lt by lia. reflexivity. }
  rewrite supervised_matrix; try assumption.
  - reflexivity.
  - unfold group_consensus. rewrite length_map, length_seq. reflexivity.
Qed.

End Supervised.

Section SupervisedBlend.

Context {E : Elem} {T : Torch}.

Lemma nth_error_tabulate {A} (f : nat -> A) N k :
  k < N -> nth_error (map f (seq 0 N)) k = Some (f k).
Proof.
  intros Hk. rewrite (nth_error_nth' _ (f 0)) by (rewrite length_map, length_seq; lia).
  rewrite map_nth, seq_nth by lia. reflexivity.
Qed.

Lemma nth_error_firstn_lt {A} (l : list A) N k d :
  k < N -> N <= length l -> nth_error (firstn N l) k = Some (nth k l d).
Proof.
  intros Hk HN. rewrite (nth_error_nth' _ d) by (rewrite length_firstn; lia).
  rewrite nth_firstn_lt by assumption. reflexivity.
Qed.

(** X2.  Where the code computes the blend of the supervised and the
    unsupervised term.  With labels, [loss] and [lossm] return
    [alpha * bce + (1 - alpha) * unsupervised], where the cross-entropy is taken between the flattened consensus predictions and
    the labels repeated along the variant axis: for row [i] and variant
    [j], entry [i * v + j] of the predictions is the mean of [p0] and
    [1 - p1] in the two-group form and the maximum over the groups of the
    sigmoid in the multi-group form, and entry [i * v + j] of the labels
    is label [i].  The logits are [n] rows of [v] variants and there are
    [m <= n] labels; the two-group form squeezes a last axis of size 1, so
    there [v] is not 1 (see [loss_single_variant]). *)
Lemma loss_blends_supervised_term s labels m u :
  shape labels = [m] -> wf labels ->
  let alpha := Config.supervised_weight (config s) in
  let d := rconst PyFloat.zero in
  (forall bce_loss unsup,
      blend alpha bce_loss unsup =
      radd (rmul bce_loss (rconst alpha))
           (rmul unsup (rconst (PyFloat.sub PyFloat.one alpha)))) /\
  (forall logit0 logit1 n v,
      shape logit0 = [n; v] -> shape logit1 = [n; v] -> wf logit0 -> wf logit1 ->
      v <> 1 -> m <= n ->
      unsupervised_loss s logit0 logit1 = Ok u ->
      loss s logit0 logit1 (Some labels) =
      Ok (blend alpha (bce (pair_consensus m v logit0 logit1)
                           (broadcast_labels v labels)) u) /\
      forall i j, i < m -> j < v ->
        nth_error (pair_consensus m v logit0 logit1) (i * v + j) =
        Some (rmul (radd (rsigmoid (nth (i * v + j) (data logit0) d))
                         (rsub (rconst PyFloat.one)
                               (rsigmoid (nth (i * v + j) (data logit1) d))))
                   (rconst PyFloat.half)) /\
        nth_error (broadcast_labels v labels) (i * v + j) = nth_error (data labels) i) /\
  (forall g0 gs n v,
      Forall (fun g => shape g = [n; v] /\ wf g) (g0 :: gs) -> m <= n ->
      unsupervised_lossm s (g0 :: gs) = Ok u ->
      lossm s (g0 :: gs) (Some labels) =
      Ok (blend alpha (bce (group_consensus m v g0 gs)
                           (broadcast_labels v labels)) u) /\
      forall i j, i < m -> j < v ->
        nth_error (group_consensus m v g0 gs) (i * v + j) =
        Some (fold_left rmax
                        (map (fun g => rsigmoid (nth (i * v + j) (data g) d)) gs)
                        (rsigmoid (nth (i * v + j) (data g0) d))) /\
        nth_error (broadcast_labels v labels) (i * v + j) = nth_error (data labels) i).
Proof.
  intros Hl Wl alpha d.
  assert (length (data labels) = m) as Hlen
      by (unfold wf in Wl; rewrite Hl in Wl; simpl in Wl; lia).
  assert (forall v i j, i < m -> j < v ->
            nth_error (broadcast_labels v labels) (i * v + j) = nth_error (data labels) i)
    as Hlab by (intros; apply nth_error_interleave; [assumption|lia]).
  split; [reflexivity|]. split.
  - intros logit0 logit1 n v H0 H1 W0 W1 Hv Hm Hu. split.
    + eapply loss_with_labels; eassumption.
    + intros i j Hi Hj. split; [|apply Hlab; assumption].
      unfold wf in W0, W1. rewrite H0 in W0. rewrite H1 in W1. simpl in W0, W1.
      assert (i * v + j < m * v) by nia.
      unfold pair_consensus.
      erewrite nth_error_zip_with; [reflexivity| |];
        apply nth_error_firstn_lt; nia.
  - intros g0 gs n v Hg Hm Hu. split.
    + eapply lossm_with_labels; eassumption.
    + intros i j Hi Hj. split; [|apply Hlab; assumption].
      unfold group_consensus. rewrite nth_error_tabulate by nia. reflexivity.
Qed.

End SupervisedBlend.

(** ** The two-group path: a single variant, and [fitold] *)

Section TwoGroups.

Context {E : Elem} {T : Torch}.

Local Open Scope method_scope.

(** C6 fails on the code for logits of a single variant.  With labels,
    on logits of [n] rows and one variant, [loss] does not return
    [alpha * bce + (1 - alpha) * unsupervised]: [squeeze(-1)] drops the
    variant axis of the consensus predictions, [preds.shape[1]] is out of
    range, and the call raises [IndexError].  ([lossm] does not squeeze;
    for it, and for [loss] on more than one variant, see
    [loss_blends_supervised_term].) *)
Theorem loss_single_variant s logit0 logit1 labels n m u :
  shape logit0 = [n; 1] -> shape logit1 = [n; 1] -> wf logit0 -> wf logit1 ->
  shape labels = [m] -> m <= n ->
  unsupervised_loss s logit0 logit1 = Ok u ->
  loss s logit0 logit1 (Some labels) = Raise IndexError.
Proof.
  intros H0 H1 W0 W1 Hl Hm Hu. unfold loss. rewrite Hu. simpl.
  unfold tlen, slice0. rewrite Hl, H0, H1. simpl.
  assert ((m <=? n) = true) as -> by (apply Nat.leb_le; assumption). simpl.
  rewrite (Nat.min_l m n Hm).
  unfold wf in W0, W1. rewrite H0 in W0. rewrite H1 in W1. simpl in W0, W1.
  rewrite tmap2_same_shape; simpl; try reflexivity.
  unfold wf; simpl. rewrite !length_map, !length_firstn. lia.
  unfold wf; simpl. rewrite !length_map, !length_firstn. lia.
Qed.

Lemma gf_attempt_old x_neg x_pos labels i : ghost_free (attempt_old x_neg x_pos labels i).
Proof.
  unfold attempt_old. apply gf_bind; [apply gf_reset_parameters|]. intros _.
  apply gf_bind; [apply gf_reads|]. intros cfg.
  apply gf_bind.
  - destruct (Config.init cfg); try apply gf_ret.
    apply gf_bind; [apply gf_lift|]. intros d.
    apply gf_bind; [apply gf_lift|]. intros diffs.
    apply gf_bind; [apply gf_draw|]. intros v.
    intros w res w' H. destruct (set_first_weight v (self w)); inversion H; reflexivity.
  - intros _. destruct (Config.optimizer cfg).
    + apply gf_adam_loop.
    + apply gf_lbfgs_loop.
    + apply gf_raise.
Qed.

Lemma projected_pair_frame hiddens w res w1 :
  projected_pair hiddens w = (res, w1) ->
  runs w1 = runs w /\ config (self w1) = config (self w).
Proof.
  unfold projected_pair. intros H.
  unfold bind at 1, lift at 1 in H.
  destruct (unbind2 hiddens) as [[|x_neg [|x_pos [|? ?]]]|e];
    try (inversion H; subst; auto; fail).
  unfold bind at 1, lift at 1 in H.
  destruct (select_last0 x_neg); [|inversion H; subst; auto].
  unfold bind at 1, modify_self at 1 in H.
  unfold bind at 1, lift at 1 in H.
  destruct (select_last0 x_pos); [|inversion H; subst; auto].
  unfold bind at 1, modify_self at 1 in H.
  unfold reads in H. inversion H; subst. auto.
Qed.


End TwoGroups.


(** ** The outcomes of [fit] *)

Section Outcome.

Context {E : Elem} {T : Torch}.

Local Open Scope method_scope.

(** The unsupervised use with the LBFGS driver: registered loss terms, a
    supervised weight that is not above 0, the initialisation "default" or
    "zero". *)
Definition unsupervised_lbfgs (c : Config.t) : Prop :=
  registered c /\
  PyFloat.ltb PyFloat.zero (Config.supervised_weight c) = false /\
  (Config.init c = InitDefault \/ Config.init c = InitZero) /\
  Config.optimizer c = Lbfgs.

Lemma eval_groups_returns xs s :
  registered (config s) ->
  PyFloat.ltb PyFloat.zero (Config.supervised_weight (config s)) = false ->
  exists r, eval_groups xs None s = Ok r.
Proof.
  intros Hreg Hsw. unfold eval_groups.
  destruct (rmap_total (fun tense => forward s (ATensor tense)) (l := xs)) as (outs & -> & _).
  { apply Forall_forall. intros x _. simpl. eauto. }
  simpl. unfold lossm.
  destruct (unsupervised_lossm_total s outs Hreg) as (u & ->). simpl.
  rewrite Hsw. eauto.
Qed.

Lemma run_lbfgs_returns eval c prog :
  (forall s, config s = c -> exists r, eval s = Ok r) ->
  forall l0 w,
    config (self w) = c ->
    exists l w', run_lbfgs prog eval l0 w = (Ok l, w') /\ config (self w') = c.
Proof.
  intros Heval. induction prog as [final | point next IH]; intros l0 w Hc; simpl.
  - unfold bind, modify_self, ret. simpl. eauto.
  - unfold bind at 1, modify_self at 1. unfold bind at 1, reads at 1. simpl self.
    unfold closure.
    destruct (Heval (set_parameters point (self w)) Hc) as (r & ->). simpl.
    apply IH. exact Hc.
Qed.

Lemma reset_parameters_returns w :
  Config.init (config (self w)) = InitDefault \/
  Config.init (config (self w)) = InitZero ->
  exists w', reset_parameters w = (Ok tt, w') /\ config (self w') = config (self w).
Proof.
  intros [Hi|Hi]; unfold reset_parameters; rewrite Hi.
  - unfold bind, draw, modify_self. destruct (reset_layers _ _). simpl. eauto.
  - unfold modify_self. simpl. eauto.
Qed.

Lemma attempt_returns x0 xs i w :
  unsupervised_lbfgs (config (self w)) ->
  exists v w',
    attempt (x0 :: xs) None i w = (Ok v, w') /\ config (self w') = config (self w).
Proof.
  intros (Hreg & Hsw & Hinit & Hopt). unfold attempt.
  destruct (reset_parameters_returns w Hinit) as (w1 & Hr & Hc1).
  unfold bind at 1. rewrite Hr.
  unfold bind at 1, reads at 1. rewrite Hc1.
  unfold bind at 1.
  assert ((match Config.init (config (self w)) with
           | InitPca => raise TypeError
           | _ => ret tt
           end) w1 = (Ok tt, w1)) as ->
      by (destruct Hinit as [-> | ->]; reflexivity).
  rewrite Hopt. unfold trainm_loop_lbfgs, lbfgs_loop, bind.
  match goal with
  | |- context [run_lbfgs ?prog ?eval None w1] =>
      destruct (@run_lbfgs_returns eval (config (self w)) prog) with (l0 := @None R) (w := w1)
        as (l & w2 & Hrun & Hc2)
  end.
  - intros s Hs. apply eval_groups_returns; rewrite Hs; assumption.
  - assumption.
  - rewrite Hrun. unfold ret. eauto.
Qed.

Lemma restarts_return (attempt : nat -> M pyfloat) c :
  (forall i w, config (self w) = c ->
               exists v w', attempt i w = (Ok v, w') /\ config (self w') = c) ->
  forall ixs b s w,
    config (self w) = c ->
    exists acc w', restarts attempt ixs b s w = (Ok acc, w').
Proof.
  intros Hatt. induction ixs as [|i ixs IH]; intros b s w Hc; simpl.
  - unfold ret. eauto.
  - destruct (Hatt i w Hc) as (v & w1 & Hv & Hc1).
    unfold bind at 1. rewrite Hv.
    unfold bind at 1, record_run at 1. unfold bind at 1, reads at 1.
    destruct (PyFloat.ltb v b); apply IH; exact Hc1.
Qed.

Lemma commit_outcome best w res w' :
  commit best w = (res, w') ->
  (exists v, res = Ok v /\ PyFloat.isfinite v = true) \/ res = Raise RuntimeError.
Proof.
  destruct best as [b s]. unfold commit.
  destruct (PyFloat.isfinite b) eqn:Hfin; simpl.
  - destruct s as [sd|].
    + unfold bind, modify_self, ret. intros H; inversion H; subst. eauto.
    + intros H; inversion H; subst. auto.
  - intros H; inversion H; subst. auto.
Qed.

(** In the unsupervised use with the LBFGS driver, on four groups, [fit]
    returns a finite loss or raises [RuntimeError]. *)
Lemma fit_outcome hiddens a b s w res w' :
  shape hiddens = a :: b :: 4 :: s ->
  length (norms (self w)) = 4 ->
  unsupervised_lbfgs (config (self w)) ->
  fit hiddens None w = (res, w') ->
  (exists v, res = Ok v /\ PyFloat.isfinite v = true) \/ res = Raise RuntimeError.
Proof.
  intros Hs Hn Hcfg H.
  destruct (normalized_groups_four hiddens w Hs Hn)
    as (g0 & g1 & g2 & g3 & n0 & n1 & n2 & n3 & _ & _ & Hng).
  unfold fit in H. unfold bind at 1 in H. rewrite Hng in H.
  unfold restart_loop in H. unfold bind at 1, reads at 1 in H. simpl self in H.
  match type of H with
  | bind (restarts ?att ?is0 ?b0 ?s0) _ ?w1 = _ =>
      destruct (@restarts_return att (config (self w))) with
        (ixs := is0) (b := b0) (s := s0) (w := w1) as (acc & w2 & Hrs)
  end.
  - intros i w0 Hc. rewrite <- Hc in Hcfg.
    edestruct attempt_returns with (i := i) (w := w0) as (v & w3 & Hv & Hc3);
      [exact Hcfg|].
    exists v, w3. split; [exact Hv | congruence].
  - reflexivity.
  - unfold bind in H. rewrite Hrs in H. eapply commit_outcome; eauto.
Qed.




End Outcome.


(** ** The pseudo-labels of [check_separability] *)

Section PseudoLabels.

Context {E : Elem} {T : Torch}.

Lemma length_firsts {A} d n (l : list A) :
  length l = n * S d -> length (flat_map (firstn 1) (chunks (S d) n l)) = n.
Proof.
  revert l. induction n as [|n IH]; intros l Hl; [reflexivity|].
  cbn [chunks flat_map]. rewrite length_app, IH.
  - destruct l as [|x l]; [simpl in Hl; lia|reflexivity].
  - rewrite length_skipn. simpl in Hl. lia.
Qed.

Lemma select_last0_batch t b v d :
  shape t = [b; v; S d] -> wf t ->
  exists l, select_last0 t = Ok (mkT [b; v] l) /\ length l = b * v.
Proof.
  intros Hs Hw. unfold select_last0. rewrite Hs. cbn [rev app].
  eexists. split; [reflexivity|].
  unfold wf in Hw. rewrite Hs in Hw. simpl in Hw.
  rewrite length_firsts; simpl; lia.
Qed.

(** The pseudo-labels of a pair of batches of [b0] and [b1] rows of [v]
    variants: [b0 * v] zeros, then [b1 * v] ones. *)
Lemma pseudo_labels_spec x0 x1 b0 b1 v d :
  shape x0 = [b0; v; S d] -> wf x0 ->
  shape x1 = [b1; v; S d] -> wf x1 ->
  pseudo_labels x0 x1 =
  Ok (mkT [b0 * v + b1 * v]
          (repeat (rconst PyFloat.zero) (b0 * v) ++ repeat (rconst PyFloat.one) (b1 * v))).
Proof.
  intros H0 W0 H1 W1. unfold pseudo_labels.
  destruct (select_last0_batch H0 W0) as (l0 & -> & L0).
  destruct (select_last0_batch H1 W1) as (l1 & -> & L1).
  cbn [rbind]. unfold cat0, zeros_like, ones_like, tmap.
  cbn [shape data shape_eqb]. rewrite Nat.eqb_refl. cbn [andb rbind].
  unfold flatten. cbn [data].
  rewrite !map_const, length_app, !repeat_length, L0, L1. reflexivity.
Qed.

(** X3.  On batches of vectors, [check_separability] gets as far as the
    predictions: [pseudo_predictions] returns the pseudo-labels of the
    validation pair, zeros for the rows of its first member and ones for
    the rows of its second, and the predictions of the classifier, fitted
    on the rows of the projected training pair with their pseudo-labels,
    on the rows of the projected validation pair. *)
Lemma pseudo_predictions_on_batches s train_pair val_pair b0 b1 c0 c1 v d :
  let x0 := sn_call (norm s) (fst train_pair) in
  let x1 := sn_call (norm s) (snd train_pair) in
  let val_x0 := sn_call (norm s) (fst val_pair) in
  let val_x1 := sn_call (norm s) (snd val_pair) in
  shape x0 = [b0; v; S d] -> wf x0 ->
  shape x1 = [b1; v; S d] -> wf x1 ->
  shape val_x0 = [c0; v; S d] -> wf val_x0 ->
  shape val_x1 = [c1; v; S d] -> wf val_x1 ->
  let zeros_ones n0 n1 :=
    mkT [n0 * v + n1 * v]
        (repeat (rconst PyFloat.zero) (n0 * v) ++ repeat (rconst PyFloat.one) (n1 * v)) in
  let clf :=
    clf_fit (clf_new (S d)) (mkT [(b0 + b1) * v; S d] (data x0 ++ data x1))
            (zeros_ones b0 b1) (Config.weight_decay (config s)) in
  pseudo_predictions s train_pair val_pair =
  Ok (zeros_ones c0 c1,
      squeeze_last (clf_call clf (mkT [(c0 + c1) * v; S d] (data val_x0 ++ data val_x1)))).
Proof.
  intros x0 x1 val_x0 val_x1 H0 W0 H1 W1 G0 V0 G1 V1 zeros_ones clf.
  unfold pseudo_predictions. fold x0 x1 val_x0 val_x1.
  rewrite H0. cbn [rev app index nth_error rbind].
  rewrite (pseudo_labels_spec H0 W0 H1 W1), (pseudo_labels_spec G0 V0 G1 V1).
  cbn [rbind]. unfold stacked_rows, cat0, flatten01.
  rewrite H0, H1, G0, G1. cbn [shape_eqb]. rewrite !Nat.eqb_refl.
  cbn [andb rbind shape data]. reflexivity.
Qed.

End PseudoLabels.

(** ** What the methods leave alone *)

Section Frames.

Context {E : Elem} {T : Torch}.

Local Open Scope method_scope.

(** The fields that only the constructor and the head of [fit] write. *)
Definition fixed_part (s : CcsReporter) : Config.t * nat * list Normalizer :=
  (config s, in_features s, norms s).

(** A method that leaves these fields alone, whether it returns or
    raises. *)
Definition fixed {A} (m : M A) : Prop :=
  forall w res w', m w = (res, w') -> fixed_part (self w') = fixed_part (self w).

Lemma fixed_ret {A} (a : A) : fixed (ret a).
Proof. intros w res w' H. inversion H; reflexivity. Qed.

Lemma fixed_raise {A} e : fixed (@raise _ _ A e).
Proof. intros w res w' H. inversion H; reflexivity. Qed.

Lemma fixed_lift {A} (r : result A) : fixed (lift r).
Proof. intros w res w' H. inversion H; reflexivity. Qed.

Lemma fixed_reads {A} (f : CcsReporter -> result A) : fixed (reads f).
Proof. intros w res w' H. inversion H; reflexivity. Qed.

Lemma fixed_modify f :
  (forall s, fixed_part (f s) = fixed_part s) -> fixed (modify_self f).
Proof. intros Hf w res w' H. inversion H; subst. apply Hf. Qed.

Lemma fixed_draw {A} (f : RNG -> A * RNG) : fixed (draw f).
Proof.
  intros w res w' H. unfold draw in H. destruct (f (rng w)). inversion H; reflexivity.
Qed.

Lemma fixed_record_run l : fixed (record_run l).
Proof. intros w res w' H. inversion H; reflexivity. Qed.

Lemma fixed_bind {A B} (m : M A) (k : A -> M B) :
  fixed m -> (forall a, fixed (k a)) -> fixed (bind m k).
Proof.
  intros Hm Hk w res w' H. apply bind_inv in H.
  destruct H as [(a & w1 & H1 & H2) | (e & H1 & _)].
  - rewrite (Hk _ _ _ _ H2). eauto.
  - eauto.
Qed.

(** From [H : m w = (res, w')], reduce the goal to [fixed m]. *)
Ltac by_frame H :=
  match type of H with
  | ?m ?w = (_, _) =>
      let G := fresh "G" in
      assert (G : fixed m); [clear H | exact (G _ _ _ H)]
  end.

Ltac frame :=
  repeat first
    [ apply fixed_bind; [|intros ?]
    | apply fixed_ret | apply fixed_raise | apply fixed_lift | apply fixed_reads
    | apply fixed_draw | apply fixed_record_run
    | apply fixed_modify; intros ?; reflexivity
    | match goal with
      | |- forall _, _ => intro
      | |- fixed (match ?x with _ => _ end) => destruct x
      | |- fixed (if ?x then _ else _) => destruct x
      | |- fixed (let '(_, _) := ?x in _) => destruct x
      end ].

Lemma fixed_reset_parameters : fixed reset_parameters.
Proof.
  intros w res w' H. unfold reset_parameters in H.
  destruct (Config.init (config (self w))).
  - by_frame H. frame.
  - inversion H; reflexivity.
  - destruct (negb _); [inversion H; reflexivity|].
    destruct (probe (self w)) as [|[|p|] [|]]; try (inversion H; reflexivity).
    by_frame H. frame.
  - inversion H; reflexivity.
  - inversion H; reflexivity.
Qed.

Lemma fixed_adam_epochs eval n : forall opt l, fixed (adam_epochs eval n opt l).
Proof.
  induction n as [|n IH]; intros opt l; simpl.
  - frame.
  - apply fixed_bind; [frame|]. intros r. apply fixed_bind; [|intros; apply IH].
    intros w res w' H. destruct (adamw_step _ _ _). inversion H; reflexivity.
Qed.

Lemma fixed_adam_loop eval : fixed (adam_loop eval).
Proof.
  intros w res w' H. unfold adam_loop in H. by_frame H.
  apply fixed_bind; [apply fixed_adam_epochs | frame].
Qed.

Lemma fixed_run_lbfgs eval prog : forall l, fixed (run_lbfgs prog eval l).
Proof.
  induction prog as [final | point next IH]; intros l; simpl.
  - frame.
  - apply fixed_bind; [frame|]. intros _. apply fixed_bind; [frame|].
    intros [[v g] r]. apply IH.
Qed.

Lemma fixed_lbfgs_loop eps eval : fixed (lbfgs_loop eps eval).
Proof.
  intros w res w' H. unfold lbfgs_loop in H. by_frame H.
  apply fixed_bind; [apply fixed_run_lbfgs | frame].
Qed.

Lemma fixed_attempt xs labels i : fixed (attempt xs labels i).
Proof.
  unfold attempt. apply fixed_bind; [apply fixed_reset_parameters|]. intros _.
  apply fixed_bind; [frame|]. intros cfg.
  apply fixed_bind; [frame|]. intros _.
  destruct (Config.optimizer cfg).
  - apply fixed_adam_loop.
  - unfold trainm_loop_lbfgs. destruct xs; [frame | apply fixed_lbfgs_loop].
  - frame.
Qed.

Lemma fixed_attempt_old x_neg x_pos labels i : fixed (attempt_old x_neg x_pos labels i).
Proof.
  unfold attempt_old. apply fixed_bind; [apply fixed_reset_parameters|]. intros _.
  apply fixed_bind; [apply fixed_reads|]. intros cfg.
  apply fixed_bind.
  - destruct (Config.init cfg); try apply fixed_ret.
    apply fixed_bind; [apply fixed_lift|]. intros d.
    apply fixed_bind; [apply fixed_lift|]. intros diffs.
    apply fixed_bind; [apply fixed_draw|]. intros v.
    intros w res w' H. unfold set_first_weight in H.
    destruct (probe (self w)) as [|[|l|a] ms]; inversion H; reflexivity.
  - intros _. destruct (Config.optimizer cfg).
    + apply fixed_adam_loop.
    + apply fixed_lbfgs_loop.
    + apply fixed_raise.
Qed.

Lemma fixed_restarts (attempt : nat -> M pyfloat) :
  (forall i, fixed (attempt i)) ->
  forall ixs b s, fixed (restarts attempt ixs b s).
Proof.
  intros Hatt. induction ixs as [|i ixs IH]; intros b s; simpl.
  - frame.
  - apply fixed_bind; [apply Hatt|]. intros l.
    apply fixed_bind; [frame|]. intros _.
    apply fixed_bind; [frame|]. intros snapshot.
    destruct (PyFloat.ltb l b); apply IH.
Qed.

Lemma fixed_commit best : fixed (commit best).
Proof. unfold commit. destruct best as [b s]. frame. Qed.

Lemma fixed_restart_loop (attempt : nat -> M pyfloat) :
  (forall i, fixed (attempt i)) -> fixed (restart_loop attempt).
Proof.
  intros Hatt. unfold restart_loop. apply fixed_bind; [frame|]. intros cfg.
  apply fixed_bind; [apply fixed_restarts; assumption|]. intros best.
  apply fixed_commit.
Qed.

Lemma fixed_config {A} (m : M A) w res w' :
  fixed m -> m w = (res, w') -> config (self w') = config (self w).
Proof.
  intros Hm H. apply Hm in H. unfold fixed_part in H. congruence.
Qed.

End Frames.

Arguments fixed_config {E T A m w res w'} _ _.

(** ** What [fit] and [fitold] need to return *)

Section Preconditions.

Context {E : Elem} {T : Torch}.

Local Open Scope method_scope.

Lemma rmap_ok {A B} (f : A -> result B) l ys :
  rmap f l = Ok ys -> Forall2 (fun x y => f x = Ok y) l ys.
Proof.
  revert ys. induction l as [|x l IH]; simpl; intros ys H.
  - inversion H. constructor.
  - destruct (f x) as [y|e] eqn:Hx; simpl in H; [|discriminate].
    destruct (rmap f l) as [ys'|e]; simpl in H; [|discriminate].
    inversion H; subst. constructor; auto.
Qed.

(** A loss specification whose sum was computed is not empty and names
    registered terms only. *)
Lemma terms_registered {X} (form : loss_term -> X -> pyfloat -> R) (x : X) dict u :
  rbind (rmap (fun nc : string * pyfloat =>
                 let? f := lookup_term (fst nc) in Ok (form f x (snd nc))) dict)
        (fun terms => assert_tensor (pysum terms)) = Ok u ->
  dict <> [] /\ Forall (fun nc : string * pyfloat => LOSSES (fst nc) <> None) dict.
Proof.
  destruct (rmap _ dict) as [ys|e] eqn:Hr; simpl; [|discriminate].
  intros H. apply rmap_ok in Hr. split.
  - intros ->. inversion Hr; subst. discriminate.
  - clear H. induction Hr as [|nc y dict ys Hy _ IH]; constructor; [|assumption].
    unfold lookup_term in Hy. destruct (LOSSES (fst nc)); simpl in Hy; congruence.
Qed.

(** What a loss evaluation that returned tells about the configuration:
    the loss specification is in order, and without labels the supervised
    weight is not above 0. *)
Definition evaluable (labels : option tensor) (c : Config.t) : Prop :=
  registered c /\
  (labels = None -> PyFloat.ltb PyFloat.zero (Config.supervised_weight c) = false).

Lemma loss_returned s logit0 logit1 labels r :
  loss s logit0 logit1 labels = Ok r -> evaluable labels (config s).
Proof.
  unfold loss. destruct (unsupervised_loss s logit0 logit1) as [u|e] eqn:Hu; simpl;
    [|discriminate].
  intros H. split.
  - unfold unsupervised_loss in Hu.
    exact (terms_registered (fun f (x : tensor * tensor) c => pair_form f (fst x) (snd x) c)
                            (logit0, logit1) _ Hu).
  - intros ->. destruct (PyFloat.ltb _ _); [discriminate|reflexivity].
Qed.

Lemma lossm_returned s logits labels r :
  lossm s logits labels = Ok r -> evaluable labels (config s).
Proof.
  unfold lossm. destruct (unsupervised_lossm s logits) as [u|e] eqn:Hu; simpl;
    [|discriminate].
  intros H. split.
  - unfold unsupervised_lossm in Hu.
    exact (terms_registered (fun f (x : list tensor) c => group_form f x c) logits _ Hu).
  - intros ->. destruct (PyFloat.ltb _ _); [discriminate|reflexivity].
Qed.

Lemma eval_pair_returned x_neg x_pos labels s r :
  eval_pair x_neg x_pos labels s = Ok r -> evaluable labels (config s).
Proof. unfold eval_pair. simpl. apply loss_returned. Qed.

Lemma eval_groups_returned xs labels s r :
  eval_groups xs labels s = Ok r -> evaluable labels (config s).
Proof.
  unfold eval_groups. destruct (rmap _ xs); simpl; [|discriminate]. apply lossm_returned.
Qed.

(** A loss the Adam loop returns other than the initial one was evaluated
    on a reporter of the same configuration. *)
Lemma adam_epochs_evaluated eval n :
  forall opt l0 w lR w',
    adam_epochs eval n opt l0 w = (Ok lR, w') ->
    (n = 0 /\ lR = l0) \/
    (n <> 0 /\
     exists s r, config s = config (self w) /\ eval s = Ok r /\ lR = Some r).
Proof.
  induction n as [|n IH]; intros opt l0 w lR w' H; simpl in H.
  - inversion H; subst. auto.
  - right. split; [discriminate|]. unfold bind at 1, reads at 1 in H.
    destruct (eval (self w)) as [r|e] eqn:He; [|discriminate].
    unfold bind at 1 in H.
    destruct (adamw_step opt (parameters (self w)) (backward r)) as [ps opt1].
    apply IH in H. simpl self in H.
    destruct H as [(_ & ->) | (_ & s & r' & Hc & Hs & ->)].
    + exists (self w), r. auto.
    + exists s, r'. auto.
Qed.

Lemma adam_loop_finite eval w v w' :
  adam_loop eval w = (Ok v, w') -> PyFloat.isfinite v = true ->
  (1 <= Config.num_epochs (config (self w)))%Z /\
  exists s r, config s = config (self w) /\ eval s = Ok r.
Proof.
  unfold adam_loop. intros H Hfin. apply bind_inv in H.
  destruct H as [(l & w1 & H1 & H) | (e & _ & ?)]; [|discriminate].
  inversion H; subst. apply adam_epochs_evaluated in H1.
  destruct H1 as [(_ & ->) | (Hn & s & r & Hc & Hs & ->)]; [discriminate|].
  split; [lia|eauto].
Qed.

Lemma closure_calls_config prog eval :
  forall s, Forall (fun c => config (fst c) = config s) (closure_calls prog eval s).
Proof.
  induction prog as [final | point next IH]; intros s; simpl; constructor.
  - reflexivity.
  - destruct (closure eval (set_parameters point s)) as [[[v g] l]|e]; [|constructor].
    apply (IH v g (set_parameters point s)).
Qed.

(** A finite loss the LBFGS loop returns was evaluated by a call of the
    closure, on a reporter of the same configuration. *)
Lemma lbfgs_loop_finite eps eval w v w' :
  lbfgs_loop eps eval w = (Ok v, w') -> PyFloat.isfinite v = true ->
  exists s r, config s = config (self w) /\ eval s = Ok r.
Proof.
  intros H Hfin. apply lbfgs_loop_spec in H. cbv zeta in H.
  destruct H as (Hall & Hv & _).
  pose proof (closure_calls_config
                (lbfgs_step (Config.num_epochs (config (self w))) eps (parameters (self w)))
                eval (self w)) as Hcfg.
  match type of Hall with
  | Forall _ ?c => remember c as calls eqn:Hcalls; clear Hcalls
  end.
  destruct calls as [|c0 cs _] using rev_ind.
  - subst v. discriminate.
  - apply Forall_app in Hall. destruct Hall as [_ Hc]. inversion Hc as [|? ? Hc0 _]; subst.
    apply Forall_app in Hcfg. destruct Hcfg as [_ Hc']. inversion Hc' as [|? ? Hc1 _]; subst.
    destruct Hc0 as (l & He & _). exists (fst c0), l. auto.
Qed.

Lemma reset_parameters_returned w u w' :
  reset_parameters w = (Ok u, w') ->
  forall name, Config.init (config (self w)) <> InitOther name.
Proof.
  unfold reset_parameters. destruct (Config.init (config (self w))); intros H nm;
    discriminate.
Qed.

(** A restart of [fit] that returns a finite loss. *)
Lemma attempt_finite xs labels i w v w' :
  attempt xs labels i w = (Ok v, w') -> PyFloat.isfinite v = true ->
  let c := config (self w) in
  Config.optimizer c = Lbfgs /\
  (Config.init c = InitDefault \/ Config.init c = InitSpherical \/ Config.init c = InitZero) /\
  evaluable labels c.
Proof.
  intros H Hfin c. unfold attempt in H. apply bind_inv in H.
  destruct H as [([] & w1 & H1 & H) | (e & _ & ?)]; [|discriminate].
  pose proof (reset_parameters_returned _ H1) as Hother.
  pose proof (fixed_config fixed_reset_parameters H1) as Hc.
  unfold bind at 1, reads at 1 in H. rewrite Hc in H. fold c in H, Hother.
  apply bind_inv in H. destruct H as [([] & w2 & H2 & H) | (e & _ & ?)]; [|discriminate].
  assert (w2 = w1 /\
          (Config.init c = InitDefault \/ Config.init c = InitSpherical \/
           Config.init c = InitZero)) as [-> Hinit].
  { destruct (Config.init c) eqn:Hi; inversion H2; subst; auto.
    exfalso. eapply Hother; reflexivity. }
  destruct (Config.optimizer c) eqn:Hopt.
  - apply adam_loop_finite in H; [|assumption].
    destruct H as (_ & s & r & _ & Hs). discriminate.
  - destruct xs as [|x0 xs]; [discriminate|].
    apply lbfgs_loop_finite in H; [|assumption].
    destruct H as (s & r & Hs & Hr). apply eval_groups_returned in Hr.
    rewrite Hs, Hc in Hr. auto.
  - discriminate.
Qed.

(** A restart of [fitold] that returns a finite loss. *)
Lemma attempt_old_finite x_neg x_pos labels i w v w' :
  attempt_old x_neg x_pos labels i w = (Ok v, w') -> PyFloat.isfinite v = true ->
  let c := config (self w) in
  (Config.optimizer c = Lbfgs \/
   (Config.optimizer c = Adam /\ (1 <= Config.num_epochs c)%Z)) /\
  (forall name, Config.init c <> InitOther name) /\
  evaluable labels c.
Proof.
  intros H Hfin c.
  pose proof (fixed_config (fixed_attempt_old x_neg x_pos labels i) H) as Hc'.
  unfold attempt_old in H. apply bind_inv in H.
  destruct H as [([] & w1 & H1 & H) | (e & _ & ?)]; [|discriminate].
  pose proof (reset_parameters_returned _ H1) as Hother.
  pose proof (fixed_config fixed_reset_parameters H1) as Hc.
  unfold bind at 1, reads at 1 in H. rewrite Hc in H. fold c in H, Hother.
  apply bind_inv in H. destruct H as [([] & w2 & _ & H) | (e & _ & ?)]; [|discriminate].
  split; [|split; [assumption|]].
  - destruct (Config.optimizer c) eqn:Hopt; [right|left; reflexivity|discriminate].
    pose proof (fixed_config (fixed_adam_loop _) H) as Hc2.
    apply adam_loop_finite in H; [|assumption].
    destruct H as (Hn & _). split; [reflexivity|].
    rewrite <- Hc2, Hc' in Hn. exact Hn.
  - destruct (Config.optimizer c) eqn:Hopt; [| |discriminate].
    + pose proof (fixed_config (fixed_adam_loop _) H) as Hc2.
      apply adam_loop_finite in H; [|assumption].
      destruct H as (_ & s & r & Hs & Hr). apply eval_pair_returned in Hr.
      rewrite Hs, <- Hc2, Hc' in Hr. exact Hr.
    + pose proof (fixed_config (fixed_lbfgs_loop _ _) H) as Hc2.
      apply lbfgs_loop_finite in H; [|assumption].
      destruct H as (s & r & Hs & Hr). apply eval_pair_returned in Hr.
      rewrite Hs, <- Hc2, Hc' in Hr. exact Hr.
Qed.

(** The best loss of the restart loop is the initial one or the loss one
    of the restarts returned. *)
Lemma restarts_best (attempt : nat -> M pyfloat) :
  (forall i, fixed (attempt i)) ->
  forall ixs b s w acc w',
    restarts attempt ixs b s w = (Ok acc, w') ->
    fst acc = b \/
    exists i w2 w3,
      In i ixs /\ config (self w2) = config (self w) /\ attempt i w2 = (Ok (fst acc), w3).
Proof.
  intros Hatt. induction ixs as [|i ixs IH]; intros b s w acc w' H; simpl in H.
  - inversion H; subst. auto.
  - apply bind_inv in H. destruct H as [(l & w1 & H1 & H) | (e & _ & ?)]; [|discriminate].
    pose proof (fixed_config (Hatt i) H1) as Hc.
    unfold bind, record_run, reads in H; simpl in H.
    assert (forall b' s' w2,
               config (self w2) = config (self w) ->
               restarts attempt ixs b' s' w2 = (Ok acc, w') ->
               fst acc = b' \/
               exists j w3 w4,
                 In j (i :: ixs) /\ config (self w3) = config (self w) /\
                 attempt j w3 = (Ok (fst acc), w4)) as Hrest.
    { intros b' s' w2 Hc2 H'. apply IH in H'.
      destruct H' as [H' | (j & w3 & w4 & Hj & Hc3 & Hj')]; [left; assumption|].
      right. exists j, w3, w4. split; [right; assumption|]. split; [congruence|assumption]. }
    destruct (PyFloat.ltb l b).
    + apply Hrest in H; [|assumption].
      destruct H as [H | H]; [|right; exact H].
      right. exists i, w, w1. rewrite H. split; [left; reflexivity|]. auto.
    + apply Hrest in H; [|assumption]. exact H.
Qed.

(** A loss the restart loop returns is finite, there was a restart, and
    one of the restarts returned that loss. *)
Lemma restart_loop_returned (attempt : nat -> M pyfloat) w v w' :
  (forall i, fixed (attempt i)) ->
  restart_loop attempt w = (Ok v, w') ->
  PyFloat.isfinite v = true /\
  (1 <= Config.num_tries (config (self w)))%Z /\
  exists i w2 w3, config (self w2) = config (self w) /\ attempt i w2 = (Ok v, w3).
Proof.
  intros Hatt H. unfold restart_loop in H.
  unfold bind at 1, reads at 1 in H.
  apply bind_inv in H. destruct H as [([b s] & w1 & H1 & H) | (e & _ & ?)]; [|discriminate].
  unfold commit in H. destruct (PyFloat.isfinite b) eqn:Hfin; simpl in H; [|discriminate].
  destruct s as [sd|]; [|discriminate].
  unfold bind, modify_self, ret in H. inversion H; subst v w'; clear H.
  split; [assumption|].
  apply (restarts_best _ Hatt) in H1. simpl in H1.
  destruct H1 as [-> | (i & w2 & w3 & Hi & Hc & Hi')]; [discriminate|].
  split; [|eauto].
  apply in_seq in Hi. lia.
Qed.

End Preconditions.

(** ** More on [fit] and [fitold] *)

Section Fitting.

Context {E : Elem} {T : Torch}.

Local Open Scope method_scope.

(** X4.  [fit] returns a loss only under the LBFGS driver: a restart under
    the Adam driver raises or returns infinity, and [fit] ends in an
    exception.  It returns only with the initialisation "default",
    "spherical" or "zero" (with "pca" the first restart raises), with one
    restart at least, with a loss specification that is not empty and
    names registered terms, and, when there are no labels, with a
    supervised weight that is not above 0. *)
Theorem fit_returns_only_when hiddens labels w v w' :
  fit hiddens labels w = (Ok v, w') ->
  let c := config (self w) in
  Config.optimizer c = Lbfgs /\
  (Config.init c = InitDefault \/ Config.init c = InitSpherical \/
   Config.init c = InitZero) /\
  (1 <= Config.num_tries c)%Z /\
  registered c /\
  (labels = None -> PyFloat.ltb PyFloat.zero (Config.supervised_weight c) = false).
Proof.
  intros H c. apply fit_inv in H.
  destruct H as [(xs & w1 & _ & Hno & H) | (H & _)]; [|discriminate].
  destruct (norms_only_frame Hno) as (_ & _ & _ & Hc).
  apply restart_loop_returned in H; [|intros; apply fixed_attempt].
  destruct H as (Hfin & Htries & i & w2 & w3 & Hc2 & Hi).
  apply attempt_finite in Hi; [|assumption]. cbv zeta in Hi.
  rewrite Hc2, Hc in Hi. rewrite Hc in Htries.
  destruct Hi as (Hopt & Hinit & Hreg & Hsw). auto.
Qed.

(** X5.  [fitold] returns a loss only with the LBFGS driver or with the
    Adam driver and one epoch at least, with a known initialisation, with
    one restart at least, with a loss specification that is not empty and
    names registered terms, and, when there are no labels, with a
    supervised weight that is not above 0. *)
Theorem fitold_returns_only_when hiddens labels w v w' :
  fitold hiddens labels w = (Ok v, w') ->
  let c := config (self w) in
  (Config.optimizer c = Lbfgs \/
   (Config.optimizer c = Adam /\ (1 <= Config.num_epochs c)%Z)) /\
  (forall name, Config.init c <> InitOther name) /\
  (1 <= Config.num_tries c)%Z /\
  registered c /\
  (labels = None -> PyFloat.ltb PyFloat.zero (Config.supervised_weight c) = false).
Proof.
  intros H c. unfold fitold in H. apply bind_inv in H.
  destruct H as [(xs & w1 & H1 & H) | (e & _ & ?)]; [|discriminate].
  destruct (projected_pair_frame _ _ H1) as (_ & Hc).
  apply restart_loop_returned in H; [|intros; apply fixed_attempt_old].
  destruct H as (Hfin & Htries & i & w2 & w3 & Hc2 & Hi).
  apply attempt_old_finite in Hi; [|assumption]. cbv zeta in Hi.
  rewrite Hc2, Hc in Hi. rewrite Hc in Htries.
  destruct Hi as (Hopt & Hinit & Hreg & Hsw). auto.
Qed.

(** The normalisers after the head of [fit]: normaliser [i] fitted on
    group [i], as far as there are groups. *)
Fixpoint refit (gs : list tensor) (ns : list Normalizer) {struct ns}
  : list Normalizer :=
  match ns with
  | [] => []
  | n :: ns' =>
      match gs with
      | [] => ns
      | g :: gs' => nz_fit n g :: refit gs' ns'
      end
  end.

Lemma normalized_groups_refits hiddens gs w res w1 :
  unbind2 hiddens = Ok gs -> length (norms (self w)) = 4 ->
  normalized_groups hiddens w = (res, w1) ->
  fixed_part (self w1) = (config (self w), in_features (self w), refit gs (norms (self w))).
Proof.
  intros Hu Hn H. destruct w as [sf g r]. destruct sf as [cfg inf bi sc ns nm pr].
  simpl in *. destruct ns as [|n0 [|n1 [|n2 [|n3 [|? ?]]]]]; try discriminate.
  unfold normalized_groups in H. rewrite Hu in H.
  destruct gs as [|g0 [|g1 [|g2 [|g3 gs]]]];
    unfold apply_norms, bind, lift, reads, modify_self in H; simpl in H;
    inversion H; reflexivity.
Qed.

(** X6.  With the four normalisers of the constructor, whatever [fit]
    does, it leaves normaliser [i] fitted on group [i] of the input for
    every group there is among the first four, also when it raises: on
    fewer than four groups the [IndexError] of the head comes after the
    normalisers of the groups present have been fitted again.  The
    restarts and the final [load_state_dict] do not touch the normalisers,
    the configuration or [in_features]. *)
Theorem fit_refits_normalizers hiddens labels gs w res w' :
  unbind2 hiddens = Ok gs -> length (norms (self w)) = 4 ->
  fit hiddens labels w = (res, w') ->
  norms (self w') = refit gs (norms (self w)) /\
  config (self w') = config (self w) /\
  in_features (self w') = in_features (self w).
Proof.
  intros Hu Hn H. unfold fit in H. apply bind_inv in H.
  assert (fixed_part (self w')
          = (config (self w), in_features (self w), refit gs (norms (self w)))) as Hf.
  { destruct H as [(xs & w1 & H1 & H) | (e & H1 & _)].
    - apply (fixed_restart_loop (attempt xs labels)) in H; [|intros; apply fixed_attempt].
      rewrite H. eapply normalized_groups_refits; eauto.
    - eapply normalized_groups_refits; eauto. }
  unfold fixed_part in Hf. inversion Hf. auto.
Qed.

(** X7.  [fitold] unpacks exactly two groups: on an input whose third
    axis has another number of slices it raises [ValueError], on an input
    of fewer than three axes [IndexError], in both cases before it has
    changed anything; so it returns only on two groups. *)
Theorem fitold_needs_two_groups hiddens labels w :
  (forall a b k s,
      shape hiddens = a :: b :: k :: s -> k <> 2 ->
      fitold hiddens labels w = (Raise ValueError, w)) /\
  (length (shape hiddens) < 3 -> fitold hiddens labels w = (Raise IndexError, w)) /\
  (forall v w', fitold hiddens labels w = (Ok v, w') ->
                nth_error (shape hiddens) 2 = Some 2).
Proof.
  assert (forall a b k s,
             shape hiddens = a :: b :: k :: s -> k <> 2 ->
             fitold hiddens labels w = (Raise ValueError, w)) as Hbad.
  { intros a b k s Hs Hk. unfold fitold, projected_pair, bind, lift, unbind2.
    rewrite Hs. destruct k as [|[|[|k]]]; try congruence; reflexivity. }
  assert (length (shape hiddens) < 3 ->
          fitold hiddens labels w = (Raise IndexError, w)) as Hshort.
  { intros Hl. unfold fitold, projected_pair, bind, lift, unbind2.
    destruct (shape hiddens) as [|a [|b [|k s]]]; simpl in Hl; try lia; reflexivity. }
  split; [exact Hbad|]. split; [exact Hshort|].
  intros v w' H. destruct (shape hiddens) as [|a [|b [|k s]]] eqn:Hs.
  1-3: rewrite Hshort in H by (simpl; lia); discriminate.
  destruct (Nat.eq_dec k 2) as [->|Hk]; [reflexivity|].
  rewrite (Hbad a b k s eq_refl Hk) in H. discriminate.
Qed.

(** The unsupervised use of [fitold]: registered loss terms, a supervised
    weight that is not above 0, the initialisation "default" or "zero",
    one of the two drivers. *)
Definition unsupervised_use (c : Config.t) : Prop :=
  registered c /\
  PyFloat.ltb PyFloat.zero (Config.supervised_weight c) = false /\
  (Config.init c = InitDefault \/ Config.init c = InitZero) /\
  (Config.optimizer c = Lbfgs \/ Config.optimizer c = Adam).

Lemma eval_pair_returns x_neg x_pos s :
  registered (config s) ->
  PyFloat.ltb PyFloat.zero (Config.supervised_weight (config s)) = false ->
  exists r, eval_pair x_neg x_pos None s = Ok r.
Proof.
  intros Hreg Hsw. unfold eval_pair. simpl. unfold loss.
  destruct (unsupervised_loss_total s
              (squeeze_last (sequential (probe s) (sn_call (norm s) x_neg)))
              (squeeze_last (sequential (probe s) (sn_call (norm s) x_pos))) Hreg)
    as (u & ->).
  simpl. rewrite Hsw. eauto.
Qed.

Lemma adam_epochs_returns eval c n :
  (forall s, config s = c -> exists r, eval s = Ok r) ->
  forall opt l0 w,
    config (self w) = c ->
    exists l w', adam_epochs eval n opt l0 w = (Ok l, w') /\ config (self w') = c.
Proof.
  intros Heval. induction n as [|n IH]; intros opt l0 w Hc; simpl.
  - unfold ret. eauto.
  - unfold bind at 1, reads at 1. destruct (Heval (self w) Hc) as (r & ->).
    unfold bind at 1.
    destruct (adamw_step opt (parameters (self w)) (backward r)) as [ps opt1].
    apply IH. exact Hc.
Qed.

Lemma attempt_old_returns x_neg x_pos i w :
  unsupervised_use (config (self w)) ->
  exists v w',
    attempt_old x_neg x_pos None i w = (Ok v, w') /\ config (self w') = config (self w).
Proof.
  intros (Hreg & Hsw & Hinit & Hopt). unfold attempt_old.
  destruct (reset_parameters_returns w Hinit) as (w1 & Hr & Hc1).
  unfold bind at 1. rewrite Hr.
  unfold bind at 1, reads at 1. rewrite Hc1.
  unfold bind at 1.
  assert (forall (pca : M unit),
             (match Config.init (config (self w)) with
              | InitPca => pca
              | _ => ret tt
              end) w1 = (Ok tt, w1)) as ->
      by (intros pca; destruct Hinit as [-> | ->]; reflexivity).
  assert (forall s, config s = config (self w) ->
                    exists r, eval_pair x_neg x_pos None s = Ok r) as Heval
      by (intros s Hs; apply eval_pair_returns; rewrite Hs; assumption).
  destruct Hopt as [-> | ->].
  - unfold train_loop_lbfgs, lbfgs_loop, bind.
    match goal with
    | |- context [run_lbfgs ?prog ?eval None w1] =>
        destruct (@run_lbfgs_returns _ _ eval (config (self w)) prog Heval (@None R) w1 Hc1)
          as (l & w2 & Hrun & Hc2)
    end.
    rewrite Hrun. unfold ret. eauto.
  - unfold train_loop_adam, adam_loop, bind.
    match goal with
    | |- context [adam_epochs ?eval ?n ?opt None w1] =>
        destruct (@adam_epochs_returns eval (config (self w)) n Heval opt (@None R) w1 Hc1)
          as (l & w2 & Hrun & Hc2)
    end.
    rewrite Hrun. unfold ret. eauto.
Qed.

Lemma projected_pair_returns hiddens a b d w :
  shape hiddens = [a; b; 2; S d] ->
  exists xs w1,
    projected_pair hiddens w = (Ok xs, w1) /\ config (self w1) = config (self w).
Proof.
  intros Hs. unfold projected_pair, unbind2. rewrite Hs.
  unfold bind, lift, modify_self, reads, select_last0. simpl. eauto.
Qed.


Lemma projected_pair_probe hiddens w res w1 :
  projected_pair hiddens w = (res, w1) ->
  probe (self w1) = probe (self w) /\ config (self w1) = config (self w).
Proof.
  unfold projected_pair. intros H.
  unfold bind at 1, lift at 1 in H.
  destruct (unbind2 hiddens) as [[|x_neg [|x_pos [|? ?]]]|e];
    try (inversion H; subst; auto; fail).
  unfold bind at 1, lift at 1 in H.
  destruct (select_last0 x_neg); [|inversion H; subst; auto].
  unfold bind at 1, modify_self at 1 in H.
  unfold bind at 1, lift at 1 in H.
  destruct (select_last0 x_pos); [|inversion H; subst; auto].
  unfold bind at 1, modify_self at 1 in H.
  unfold reads in H. inversion H; subst. auto.
Qed.

(** A restart of [fitold] with the initialisation "pca" on a probe that
    starts with a [LayerNorm]: the assignment to the weight of module 0
    raises. *)
Lemma attempt_old_behind_layer_norm x_neg x_pos labels i w ms :
  Config.init (config (self w)) = InitPca ->
  probe (self w) = LayerNorm :: ms ->
  exists e w', attempt_old x_neg x_pos labels i w = (Raise e, w').
Proof.
  intros Hi Hp. unfold attempt_old.
  unfold bind at 1. unfold reset_parameters. rewrite Hi. unfold ret at 1.
  unfold bind at 1, reads at 1. rewrite Hi.
  unfold bind at 1. unfold bind at 1, lift at 1.
  destruct (tmap2 rsub x_pos x_neg) as [d|e]; [|eauto].
  unfold bind at 1, lift at 1. destruct (flatten01 d) as [diffs|e]; [|eauto].
  unfold bind at 1, draw at 1. destruct (pca_lowrank_last _ _ _) as [v g1].
  unfold set_first_weight. simpl. rewrite Hp. eauto.
Qed.

(** X16.  With the initialisation "pca", [fitold] never returns on a
    probe that starts with a [LayerNorm] (a probe built with [pre_ln]):
    the principal component is assigned to the weight of module 0, which
    a [LayerNorm] without affine parameters does not have, so the first
    restart raises; with no restart at all [fitold] raises
    [RuntimeError]. *)
Theorem fitold_pca_behind_layer_norm hiddens labels w ms res w' :
  Config.init (config (self w)) = InitPca ->
  probe (self w) = LayerNorm :: ms ->
  fitold hiddens labels w = (res, w') ->
  exists e, res = Raise e.
Proof.
  intros Hi Hp H. destruct res as [v|e]; [exfalso|eauto].
  unfold fitold in H. apply bind_inv in H.
  destruct H as [(xs & w1 & H1 & H) | (e & _ & ?)]; [|discriminate].
  destruct (projected_pair_probe _ _ H1) as (Hp1 & Hc1).
  rewrite <- Hc1 in Hi. rewrite <- Hp1 in Hp.
  unfold restart_loop in H. unfold bind at 1, reads at 1 in H.
  destruct (Z.to_nat (Config.num_tries (config (self w1)))) as [|k]; simpl in H.
  - unfold bind, ret, commit in H. simpl in H. discriminate.
  - destruct (attempt_old_behind_layer_norm (fst xs) (snd xs) labels 0 _ Hi Hp)
      as (e & w2 & He).
    unfold bind at 1 in H. unfold bind at 1 in H. rewrite He in H. discriminate.
Qed.

End Fitting.

(** ** The errors of the loss composers *)

Section LossErrors.

Context {E : Elem} {T : Torch}.

Lemma rmap_key_error {X} (form : loss_term -> X -> pyfloat -> R) (x : X) dict :
  Exists (fun nc : string * pyfloat => LOSSES (fst nc) = None) dict ->
  rmap (fun nc : string * pyfloat =>
          let? f := lookup_term (fst nc) in Ok (form f x (snd nc))) dict
  = Raise KeyError.
Proof.
  induction dict as [|nc dict IH]; intros H; [inversion H|].
  simpl. unfold lookup_term at 1. destruct (LOSSES (fst nc)) eqn:Hn; simpl.
  - inversion H; subst; [congruence|]. rewrite IH by assumption. reflexivity.
  - reflexivity.
Qed.

(** X9.  The loss specification decides whether the unsupervised loss
    can be computed at all, whatever the logits and the labels: with an
    empty specification the sum is the integer 0 and the type check raises
    [TypeError]; with a name that is not in the registry the lookup raises
    [KeyError]; both come before the labels and the supervised weight are
    looked at.  So [loss] and [lossm] return only for a specification that
    is not empty and names registered terms. *)
Theorem loss_specification_errors s :
  (Config.loss_dict (config s) = [] ->
   (forall logit0 logit1 labels,
       unsupervised_loss s logit0 logit1 = Raise TypeError /\
       loss s logit0 logit1 labels = Raise TypeError) /\
   (forall logits labels,
       unsupervised_lossm s logits = Raise TypeError /\
       lossm s logits labels = Raise TypeError)) /\
  (Exists (fun nc : string * pyfloat => LOSSES (fst nc) = None)
          (Config.loss_dict (config s)) ->
   (forall logit0 logit1 labels,
       unsupervised_loss s logit0 logit1 = Raise KeyError /\
       loss s logit0 logit1 labels = Raise KeyError) /\
   (forall logits labels,
       unsupervised_lossm s logits = Raise KeyError /\
       lossm s logits labels = Raise KeyError)) /\
  (forall logit0 logit1 labels r,
      loss s logit0 logit1 labels = Ok r -> registered (config s)) /\
  (forall logits labels r,
      lossm s logits labels = Ok r -> registered (config s)).
Proof.
  split; [|split; [|split]].
  - intros He. split; intros; unfold loss, lossm, unsupervised_loss, unsupervised_lossm;
      rewrite He; simpl; auto.
  - intros Hx. split; intros; unfold loss, lossm, unsupervised_loss, unsupervised_lossm.
    + pose proof (rmap_key_error (fun f (_ : unit) c => pair_form f logit0 logit1 c) tt Hx)
        as Hk.
      cbv beta in Hk. rewrite Hk. simpl. auto.
    + pose proof (rmap_key_error (fun f (x : list tensor) c => group_form f x c) logits Hx)
        as Hk.
      cbv beta in Hk. rewrite Hk. simpl. auto.
  - intros logit0 logit1 labels r H. apply loss_returned in H. apply H.
  - intros logits labels r H. apply lossm_returned in H. apply H.
Qed.

(** X10.  With labels, both composers check the number of labels against
    the number of rows of the first logits: more labels than rows raise
    [AssertionError], once the unsupervised loss has been computed.  On an
    empty list of logits [lossm] with labels raises [IndexError]. *)
Theorem too_many_labels s labels m rest :
  shape labels = m :: rest ->
  (forall logit0 logit1 n r0 u,
      shape logit0 = n :: r0 -> n < m ->
      unsupervised_loss s logit0 logit1 = Ok u ->
      loss s logit0 logit1 (Some labels) = Raise AssertionError) /\
  (forall g0 gs n r0 u,
      shape g0 = n :: r0 -> n < m ->
      unsupervised_lossm s (g0 :: gs) = Ok u ->
      lossm s (g0 :: gs) (Some labels) = Raise AssertionError) /\
  (forall u,
      unsupervised_lossm s [] = Ok u ->
      lossm s [] (Some labels) = Raise IndexError).
Proof.
  intros Hl. split; [|split].
  - intros logit0 logit1 n r0 u H0 Hn Hu. unfold loss. rewrite Hu. simpl.
    unfold tlen. rewrite Hl, H0. simpl.
    assert ((m <=? n) = false) as -> by (apply Nat.leb_gt; assumption). reflexivity.
  - intros g0 gs n r0 u H0 Hn Hu. unfold lossm. rewrite Hu. simpl.
    unfold tlen. rewrite Hl, H0. simpl.
    assert ((m <=? n) = false) as -> by (apply Nat.leb_gt; assumption). reflexivity.
  - intros u Hu. unfold lossm. rewrite Hu. simpl. unfold tlen. rewrite Hl. reflexivity.
Qed.

End LossErrors.

(** ** The constructor *)

Section Construction.

Context {E : Elem} {T : Torch}.

(** What a member of the probe is, apart from its tensors. *)
Inductive layer_kind : Type :=
| KNorm
| KLinear
| KAct (a : activation_kind).

Definition kind_of (m : layer) : layer_kind :=
  match m with
  | LayerNorm => KNorm
  | Lin _ => KLinear
  | Act a => KAct a
  end.

(** The linear layers of a probe, in order. *)
Definition linears (ms : list layer) : list Linear :=
  flat_map (fun m => match m with Lin l => [l] | _ => [] end) ms.

(** The input and output widths of a linear layer, the second read off
    its weight. *)
Definition widths (l : Linear) : nat * nat :=
  (lin_in_features l, hd 0 (shape (weight l))).

(** [nn.Linear(i, o, bias=b)] has a weight of shape [(o, i)], and a bias
    exactly when [b] holds. *)
Definition linear_new_as_asked : Prop :=
  forall g i o b,
    let l := fst (linear_new g i o b) in
    lin_in_features l = i /\ shape (weight l) = [o; i] /\
    (lin_bias l = None <-> b = false).

(** [cfg.hidden_size or 4 * in_features // 3] *)
Definition hidden_width (cfg : Config.t) (n : nat) : nat :=
  match Config.hidden_size cfg with
  | Some (S h) => S h
  | _ => 4 * n / 3
  end.

Lemma linears_app ms ms' : linears (ms ++ ms') = linears ms ++ linears ms'.
Proof. unfold linears. apply flat_map_app. Qed.

Lemma hidden_layers_length cfg h k :
  forall i g, length (fst (hidden_layers cfg h k i g)) = 2 * k.
Proof.
  induction k as [|k IH]; intros i g; simpl; [reflexivity|].
  destruct (linear_new _ _ _ _) as [l g1].
  specialize (IH (i + 1)%Z g1). destruct (hidden_layers cfg h k (i + 1) g1) as [rest g2].
  simpl in *. lia.
Qed.

Lemma hidden_layers_spec cfg h k :
  linear_new_as_asked ->
  forall i g,
    (i + Z.of_nat k = Config.num_layers cfg)%Z ->
    let ms := fst (hidden_layers cfg h k i g) in
    map kind_of ms = concat (repeat [KAct (Config.activation cfg); KLinear] k) /\
    map widths (linears ms)
    = match k with
      | 0 => []
      | S k' => repeat (h, h) k' ++ [(h, 1)]
      end /\
    Forall (fun l => lin_bias l = None <-> Config.bias cfg = false) (linears ms).
Proof.
  intros Hnew. induction k as [|k IH]; intros i g Hi; simpl.
  - auto.
  - pose proof (Hnew g h (if (i =? Config.num_layers cfg - 1)%Z then 1 else h)
                     (Config.bias cfg)) as Hl.
    destruct (linear_new _ _ _ _) as [l g1]. simpl in Hl. destruct Hl as (Hin & Hw & Hb).
    assert (i + 1 + Z.of_nat k = Config.num_layers cfg)%Z as Hi' by lia.
    specialize (IH (i + 1)%Z g1 Hi').
    destruct (hidden_layers cfg h k (i + 1) g1) as [rest g2]. simpl in *.
    destruct IH as (Hk & Hws & Hbs). split; [|split].
    + rewrite Hk. reflexivity.
    + unfold widths at 1. rewrite Hin, Hw, Hws. simpl. destruct k as [|k].
      * assert ((i =? Config.num_layers cfg - 1)%Z = true) as -> by (apply Z.eqb_eq; lia).
        reflexivity.
      * assert ((i =? Config.num_layers cfg - 1)%Z = false) as -> by (apply Z.eqb_neq; lia).
        reflexivity.
    + constructor; assumption.
Qed.

Lemma init_fields cfg n g :
  config (fst (init cfg n g)) = cfg /\ in_features (fst (init cfg n g)) = n.
Proof.
  unfold init. destruct (linear_new _ _ _ _) as [l0 g1].
  destruct (hidden_layers _ _ _ _ _) as [rest g2]. auto.
Qed.

Lemma init_probe_length cfg n g :
  length (probe (fst (init cfg n g)))
  = (if Config.pre_ln cfg then 2 else 1) + 2 * Z.to_nat (Config.num_layers cfg - 1).
Proof.
  unfold init. destruct (linear_new _ _ _ _) as [l0 g1].
  pose proof (hidden_layers_length cfg (hidden_width cfg n)
                (Z.to_nat (Config.num_layers cfg - 1)) 1%Z g1) as Hlen.
  unfold hidden_width in Hlen.
  destruct (hidden_layers _ _ _ _ _) as [rest g2]. simpl in *.
  rewrite length_app, Hlen. destruct (Config.pre_ln cfg); reflexivity.
Qed.



End Construction.

(** ** [reset_parameters] *)

Section Reset.

Context {E : Elem} {T : Torch}.

Local Open Scope method_scope.

(** X13.  The initialisation "spherical" on a single linear layer of [n]
    inputs draws one Gaussian vector of [n + 1] entries and divides it by
    its norm; the first [n] entries become the weight, of shape [(1, n)],
    and the last one the bias, of shape [(1,)]: weight and bias together
    are the normalised vector.  On a layer built without bias the weight
    is written first and the assignment to the bias then raises
    [AttributeError]. *)
Theorem spherical_init_splits_unit_vector w p theta g' :
  Config.init (config (self w)) = InitSpherical ->
  probe (self w) = [Lin p] ->
  randn (rng w) [1; lin_in_features p + 1] = (theta, g') ->
  length (data theta) = lin_in_features p + 1 ->
  let n := lin_in_features p in
  let unit := map (fun x => rdiv x (vnorm (data theta))) (data theta) in
  (forall b,
      lin_bias p = Some b ->
      exists wt bs,
        reset_parameters w
        = (Ok tt,
           mkWorld (set_probe [Lin (mkLinear n wt (Some bs))] (self w)) g' (runs w)) /\
        shape wt = [1; n] /\ shape bs = [1] /\
        data wt ++ data bs = unit) /\
  (lin_bias p = None ->
   reset_parameters w
   = (Raise AttributeError,
      mkWorld (set_probe [Lin (mkLinear n (mkT [1; n] (firstn n unit)) None)] (self w))
              g' (runs w))).
Proof.
  intros Hi Hp Hr Hlen n unit.
  assert (firstn 1 (skipn n unit) = skipn n unit) as Hlast.
  { apply firstn_all2. rewrite length_skipn. unfold unit. rewrite length_map. lia. }
  split.
  - intros b Hb. exists (mkT [1; n] (firstn n unit)), (mkT [1] (skipn n unit)).
    split; [|split; [reflexivity|split; [reflexivity|apply firstn_skipn]]].
    unfold reset_parameters. rewrite Hi, Hp. simpl negb. cbv iota.
    unfold bind, draw, modify_self. rewrite Hr, Hb. simpl.
    fold n. fold unit. simpl in Hlast. rewrite Hlast. reflexivity.
  - intros Hb. unfold reset_parameters. rewrite Hi, Hp. simpl negb. cbv iota.
    unfold bind, draw, modify_self. rewrite Hr, Hb. reflexivity.
Qed.

(** A layer with its tensors replaced by zeros of the same shape. *)
Definition zeroed (m : layer) : layer :=
  match m with
  | Lin l =>
      Lin (mkLinear (lin_in_features l) (zeros_like (weight l))
                    (option_map zeros_like (lin_bias l)))
  | _ => m
  end.

Lemma probe_assign_map (f : tensor -> tensor) ms :
  probe_assign ms (map f (flat_map layer_parameters ms))
  = map (fun m => match m with
                  | Lin l => Lin (mkLinear (lin_in_features l) (f (weight l))
                                           (option_map f (lin_bias l)))
                  | _ => m
                  end) ms.
Proof.
  induction ms as [|m ms IH]; [reflexivity|].
  destruct m as [|l|a]; simpl.
  - rewrite IH. reflexivity.
  - rewrite map_app. unfold linear_parameters.
    destruct (lin_bias l) as [b|]; simpl; rewrite IH; reflexivity.
  - rewrite IH. reflexivity.
Qed.

(** X14.  The initialisation "zero" zeroes every tensor of
    [parameters()]: the weights and biases of the probe, the parameters of
    the projector, and the Platt parameters [bias] and [scale] as well;
    the shapes stay, nothing is drawn, and the call returns. *)
Theorem zero_init_zeroes_all_parameters w :
  Config.init (config (self w)) = InitZero ->
  exists w',
    reset_parameters w = (Ok tt, w') /\
    rng w' = rng w /\
    bias (self w') = zeros_like (bias (self w)) /\
    scale (self w') = zeros_like (scale (self w)) /\
    norm (self w')
    = sn_assign (norm (self w)) (map zeros_like (sn_parameters (norm (self w)))) /\
    probe (self w') = map zeroed (probe (self w)).
Proof.
  intros Hi. unfold reset_parameters. rewrite Hi. unfold modify_self.
  eexists. split; [reflexivity|]. simpl.
  split; [reflexivity|]. split; [reflexivity|]. split; [reflexivity|].
  rewrite map_app. split.
  - f_equal. rewrite firstn_app, length_map, Nat.sub_diag. simpl.
    rewrite firstn_all2 by (rewrite length_map; lia). apply app_nil_r.
  - rewrite skipn_app, length_map, Nat.sub_diag. simpl.
    rewrite skipn_all2 by (rewrite length_map; lia). simpl.
    apply probe_assign_map.
Qed.

Lemma probe_assign_kinds ms : forall ps, map kind_of (probe_assign ms ps) = map kind_of ms.
Proof.
  induction ms as [|m ms IH]; intros ps; [reflexivity|].
  destruct m as [|l|a]; simpl.
  - rewrite IH. reflexivity.
  - destruct (lin_bias l); simpl; rewrite IH; reflexivity.
  - rewrite IH. reflexivity.
Qed.

Lemma reset_layers_kinds ms :
  forall g, map kind_of (fst (reset_layers ms g)) = map kind_of ms.
Proof.
  induction ms as [|m ms IH]; intros g; [reflexivity|].
  destruct m as [|l|a]; simpl.
  - specialize (IH g). destruct (reset_layers ms g). simpl in *. rewrite IH. reflexivity.
  - destruct (linear_reset g l) as [l' g1].
    specialize (IH g1). destruct (reset_layers ms g1). simpl in *. rewrite IH. reflexivity.
  - specialize (IH g). destruct (reset_layers ms g). simpl in *. rewrite IH. reflexivity.
Qed.

(** X15.  Whatever the initialisation, and whether it returns or raises,
    [reset_parameters] keeps the sequence of modules of the probe (only
    tensors of linear layers change), the configuration, [in_features] and
    the normalisers; unless the initialisation is "zero" it keeps the
    projector and the Platt parameters too.  It raises nothing but
    [AssertionError] and [AttributeError] ("spherical") and [ValueError]
    (an unknown name); with "pca" it does nothing. *)
Theorem reset_parameters_keeps_architecture w res w' :
  reset_parameters w = (res, w') ->
  map kind_of (probe (self w')) = map kind_of (probe (self w)) /\
  fixed_part (self w') = fixed_part (self w) /\
  (Config.init (config (self w)) <> InitZero ->
   bias (self w') = bias (self w) /\ scale (self w') = scale (self w) /\
   norm (self w') = norm (self w)) /\
  (Config.init (config (self w)) = InitPca -> res = Ok tt /\ w' = w) /\
  (res = Ok tt \/ res = Raise AssertionError \/ res = Raise AttributeError \/
   res = Raise ValueError).
Proof.
  intros H. split; [|split; [exact (fixed_reset_parameters _ H)|]].
  - unfold reset_parameters in H.
    destruct (Config.init (config (self w))).
    + unfold bind, draw, modify_self in H.
      pose proof (reset_layers_kinds (probe (self w)) (rng w)) as Hk.
      destruct (reset_layers (probe (self w)) (rng w)) as [ms g1].
      inversion H; subst. exact Hk.
    + inversion H; reflexivity.
    + destruct (negb _); [inversion H; reflexivity|].
      destruct (probe (self w)) as [|[|p|] [|]] eqn:Hp;
        try (inversion H; subst; rewrite Hp; reflexivity).
      unfold bind, draw, modify_self in H.
      destruct (randn _ _) as [theta g1]. simpl in H.
      destruct (lin_bias p); inversion H; reflexivity.
    + inversion H; subst. simpl. apply probe_assign_kinds.
    + inversion H; reflexivity.
  - unfold reset_parameters in H.
    destruct (Config.init (config (self w))).
    + unfold bind, draw, modify_self in H.
      destruct (reset_layers (probe (self w)) (rng w)) as [ms g1].
      inversion H; subst. repeat split; auto; discriminate.
    + inversion H; subst. repeat split; auto.
    + split; [|split; [discriminate|]].
      * intros _. destruct (negb _); [inversion H; auto|].
        destruct (probe (self w)) as [|[|p|] [|]]; try (inversion H; subst; auto; fail).
        unfold bind, draw, modify_self in H.
        destruct (randn _ _) as [theta g1]. simpl in H.
        destruct (lin_bias p); inversion H; auto.
      * destruct (negb _); [inversion H; auto|].
        destruct (probe (self w)) as [|[|p|] [|]]; try (inversion H; subst; auto; fail).
        unfold bind, draw, modify_self in H.
        destruct (randn _ _) as [theta g1]. simpl in H.
        destruct (lin_bias p); inversion H; auto.
    + inversion H; subst. split; [congruence|]. split; [discriminate|auto].
    + inversion H; subst. repeat split; auto; discriminate.
Qed.

End Reset.

(** ** The random state *)

Section RandomState.

Context {E : Elem} {T : Torch}.

Local Open Scope method_scope.

(** A method that draws nothing from torch's random state. *)
Definition quiet {A} (m : M A) : Prop :=
  forall w res w', m w = (res, w') -> rng w' = rng w.

Lemma quiet_ret {A} (a : A) : quiet (ret a).
Proof. intros w res w' H. inversion H; reflexivity. Qed.

Lemma quiet_raise {A} e : quiet (@raise _ _ A e).
Proof. intros w res w' H. inversion H; reflexivity. Qed.

Lemma quiet_lift {A} (r : result A) : quiet (lift r).
Proof. intros w res w' H. inversion H; reflexivity. Qed.

Lemma quiet_reads {A} (f : CcsReporter -> result A) : quiet (reads f).
Proof. intros w res w' H. inversion H; reflexivity. Qed.

Lemma quiet_modify f : quiet (modify_self f).
Proof. intros w res w' H. inversion H; reflexivity. Qed.

Lemma quiet_record_run l : quiet (record_run l).
Proof. intros w res w' H. inversion H; reflexivity. Qed.

Lemma quiet_bind {A B} (m : M A) (k : A -> M B) :
  quiet m -> (forall a, quiet (k a)) -> quiet (bind m k).
Proof.
  intros Hm Hk w res w' H. apply bind_inv in H.
  destruct H as [(a & w1 & H1 & H2) | (e & H1 & _)].
  - rewrite (Hk _ _ _ _ H2). eauto.
  - eauto.
Qed.

Ltac hush :=
  repeat first
    [ apply quiet_bind; [|intros ?]
    | apply quiet_ret | apply quiet_raise | apply quiet_lift | apply quiet_reads
    | apply quiet_modify | apply quiet_record_run
    | match goal with
      | |- forall _, _ => intro
      | |- quiet (match ?x with _ => _ end) => destruct x
      | |- quiet (if ?x then _ else _) => destruct x
      end ].

Lemma quiet_adam_epochs eval n : forall opt l, quiet (adam_epochs eval n opt l).
Proof.
  induction n as [|n IH]; intros opt l; simpl.
  - hush.
  - apply quiet_bind; [hush|]. intros r. apply quiet_bind; [|intros; apply IH].
    intros w res w' H. destruct (adamw_step _ _ _). inversion H; reflexivity.
Qed.

Lemma quiet_adam_loop eval : quiet (adam_loop eval).
Proof.
  intros w res w' H. unfold adam_loop in H. revert H.
  apply quiet_bind; [apply quiet_adam_epochs | hush].
Qed.

Lemma quiet_run_lbfgs eval prog : forall l, quiet (run_lbfgs prog eval l).
Proof.
  induction prog as [final | point next IH]; intros l; simpl.
  - hush.
  - apply quiet_bind; [hush|]. intros _. apply quiet_bind; [hush|].
    intros [[v g] r]. apply IH.
Qed.

Lemma quiet_lbfgs_loop eps eval : quiet (lbfgs_loop eps eval).
Proof.
  intros w res w' H. unfold lbfgs_loop in H. revert H.
  apply quiet_bind; [apply quiet_run_lbfgs | hush].
Qed.

Lemma quiet_fit_norms xs ixs : quiet (fit_norms ixs xs).
Proof. induction ixs as [|i ixs IH]; simpl; [hush|]. hush. exact IH. Qed.

Lemma quiet_normalized_groups hiddens : quiet (normalized_groups hiddens).
Proof.
  unfold normalized_groups. apply quiet_bind; [hush|]. intros xs.
  apply quiet_bind; [hush|]. intros _.
  apply quiet_bind; [apply quiet_fit_norms|]. intros _. unfold apply_norms. hush.
Qed.

Lemma quiet_projected_pair hiddens : quiet (projected_pair hiddens).
Proof.
  unfold projected_pair. apply quiet_bind; [hush|]. intros groups.
  destruct groups as [|x_neg [|x_pos [|? ?]]]; hush.
Qed.

(** The initialisations "zero" and "pca", and an unknown one, draw
    nothing in [reset_parameters]. *)
Definition draws_nothing (c : Config.t) : Prop :=
  Config.init c <> InitDefault /\ Config.init c <> InitSpherical.

Lemma reset_parameters_quiet w res w' :
  draws_nothing (config (self w)) -> reset_parameters w = (res, w') -> rng w' = rng w.
Proof.
  intros [Hd Hs] H. unfold reset_parameters in H.
  destruct (Config.init (config (self w))); try congruence; inversion H; reflexivity.
Qed.

(** The restart loop draws nothing when its restarts draw nothing. *)
Lemma restarts_quiet (attempt : nat -> M pyfloat) (P : Config.t -> Prop) :
  (forall i, fixed (attempt i)) ->
  (forall i w res w',
      P (config (self w)) -> attempt i w = (res, w') -> rng w' = rng w) ->
  forall ixs b s w res w',
    P (config (self w)) -> restarts attempt ixs b s w = (res, w') -> rng w' = rng w.
Proof.
  intros Hfix Hq. induction ixs as [|i ixs IH]; intros b s w res w' HP H; simpl in H.
  - inversion H; reflexivity.
  - apply bind_inv in H. destruct H as [(l & w1 & H1 & H) | (e & H1 & _)]; [|eauto].
    pose proof (Hq _ _ _ _ HP H1) as Hr1.
    pose proof (fixed_config (Hfix i) H1) as Hc1.
    unfold bind, record_run, reads in H; simpl in H.
    destruct (PyFloat.ltb l b); apply IH in H; simpl in *; congruence.
Qed.

Lemma restart_loop_quiet (attempt : nat -> M pyfloat) (P : Config.t -> Prop) :
  (forall i, fixed (attempt i)) ->
  (forall i w res w',
      P (config (self w)) -> attempt i w = (res, w') -> rng w' = rng w) ->
  forall w res w',
    P (config (self w)) -> restart_loop attempt w = (res, w') -> rng w' = rng w.
Proof.
  intros Hfix Hq w res w' HP H. unfold restart_loop in H.
  unfold bind at 1, reads at 1 in H. apply bind_inv in H.
  destruct H as [(best & w1 & H1 & H) | (e & H1 & _)].
  - apply (restarts_quiet _ P Hfix Hq) in H1; [|assumption].
    rewrite <- H1.
    assert (quiet (commit best)) as Hcommit
        by (unfold commit; destruct best as [b s]; hush).
    exact (Hcommit _ _ _ H).
  - eapply restarts_quiet; eauto.
Qed.

(** X17.  The four drivers draw nothing from torch's random state, and
    neither do the heads of [fit] and [fitold], the restart loop and the
    final [load_state_dict]: [fit] draws only in [reset_parameters] under
    the initialisations "default" and "spherical", and [fitold] there and
    in [pca_lowrank] under "pca".  With the initialisation "zero" both
    leave the random state as it was, whether they return or raise. *)
Theorem fit_draws_only_to_initialise :
  (forall x_neg x_pos labels, quiet (train_loop_adam x_neg x_pos labels) /\
                              quiet (train_loop_lbfgs x_neg x_pos labels)) /\
  (forall x_tensors labels, quiet (trainm_loop_adam x_tensors labels) /\
                            quiet (trainm_loop_lbfgs x_tensors labels)) /\
  (forall hiddens labels w res w',
      draws_nothing (config (self w)) ->
      fit hiddens labels w = (res, w') -> rng w' = rng w) /\
  (forall hiddens labels w res w',
      draws_nothing (config (self w)) -> Config.init (config (self w)) <> InitPca ->
      fitold hiddens labels w = (res, w') -> rng w' = rng w).
Proof.
  split; [|split; [|split]].
  - intros. split; [apply quiet_adam_loop | apply quiet_lbfgs_loop].
  - intros. split; [apply quiet_adam_loop|].
    unfold trainm_loop_lbfgs. destruct x_tensors; [apply quiet_raise | apply quiet_lbfgs_loop].
  - intros hiddens labels w res w' Hd H. unfold fit in H. apply bind_inv in H.
    destruct H as [(xs & w1 & H1 & H) | (e & H1 & _)];
      [|exact (quiet_normalized_groups _ _ H1)].
    rewrite <- (quiet_normalized_groups _ _ H1).
    destruct (normalized_groups_frame _ _ H1) as [Hno _].
    destruct (norms_only_frame Hno) as (_ & _ & _ & Hc).
    apply (restart_loop_quiet (attempt xs labels) draws_nothing) in H;
      [assumption|intros; apply fixed_attempt| |rewrite Hc; assumption].
    clear. intros i w res w' Hd H. unfold attempt in H. apply bind_inv in H.
    destruct H as [([] & w1 & H1 & H) | (e & H1 & _)];
      [|exact (reset_parameters_quiet _ Hd H1)].
    rewrite <- (reset_parameters_quiet _ Hd H1).
    match type of H with
    | ?m w1 = _ => assert (quiet m) as Hrest; [|exact (Hrest _ _ _ H)]
    end.
    apply quiet_bind; [hush|]. intros cfg. apply quiet_bind; [hush|]. intros _.
    destruct (Config.optimizer cfg); [apply quiet_adam_loop| |hush].
    unfold trainm_loop_lbfgs. destruct xs; [apply quiet_raise | apply quiet_lbfgs_loop].
  - intros hiddens labels w res w' Hd Hp H. unfold fitold in H. apply bind_inv in H.
    destruct H as [(xs & w1 & H1 & H) | (e & H1 & _)];
      [|exact (quiet_projected_pair _ _ H1)].
    rewrite <- (quiet_projected_pair _ _ H1).
    destruct (projected_pair_frame _ _ H1) as (_ & Hc).
    apply (restart_loop_quiet (attempt_old (fst xs) (snd xs) labels)
                              (fun c => draws_nothing c /\ Config.init c <> InitPca)) in H;
      [assumption|intros; apply fixed_attempt_old| |rewrite Hc; auto].
    clear. intros i w res w' [Hd Hp] H. unfold attempt_old in H. apply bind_inv in H.
    destruct H as [([] & w1 & H1 & H) | (e & H1 & _)];
      [|exact (reset_parameters_quiet _ Hd H1)].
    rewrite <- (reset_parameters_quiet _ Hd H1).
    pose proof (fixed_config fixed_reset_parameters H1) as Hc.
    unfold bind at 1, reads at 1 in H. rewrite Hc in H.
    apply bind_inv in H. destruct H as [([] & w2 & H2 & H) | (e & H2 & _)].
    + assert (w2 = w1) as -> by (destruct (Config.init (config (self w))); try congruence;
                                 inversion H2; reflexivity).
      destruct (Config.optimizer (config (self w))).
      * exact (quiet_adam_loop _ _ H).
      * exact (quiet_lbfgs_loop _ _ _ H).
      * inversion H; reflexivity.
    + destruct (Config.init (config (self w))); try congruence; inversion H2; reflexivity.
Qed.

End RandomState.

(** ** The shape of the credences *)

Section ForwardShape.

Context {E : Elem} {T : Torch}.

(** The modules of the probe and the projector on a batch of vectors, as
    torch has them: a linear layer of [i] inputs maps a tensor of shape
    [(..., i)] to one of shape [(..., o)], where [o] is the number of rows
    of its weight; [LayerNorm], the activations and the projector keep the
    shape. *)
Definition layers_keep_leading_axes : Prop :=
  (forall l x lead,
      shape x = lead ++ [lin_in_features l] ->
      shape (linear_forward l x) = lead ++ [hd 0 (shape (weight l))]) /\
  (forall x, shape (layernorm_forward x) = shape x) /\
  (forall a x, shape (act_forward a x) = shape x) /\
  (forall n x, shape (sn_call n x) = shape x).

(** Layers that compose, from width [i] to width [o]. *)
Fixpoint maps_width (ms : list layer) (i o : nat) : Prop :=
  match ms with
  | [] => i = o
  | Lin l :: ms' => lin_in_features l = i /\ maps_width ms' (hd 0 (shape (weight l))) o
  | _ :: ms' => maps_width ms' i o
  end.

Lemma maps_width_app ms ms' i j o :
  maps_width ms i j -> maps_width ms' j o -> maps_width (ms ++ ms') i o.
Proof.
  revert i. induction ms as [|m ms IH]; intros i H H'; simpl in *.
  - subst. assumption.
  - destruct m as [|l|a]; [eauto| |eauto]. destruct H as [Hi H]. eauto.
Qed.

Lemma sequential_shape ms :
  layers_keep_leading_axes ->
  forall i o x lead,
    maps_width ms i o -> shape x = lead ++ [i] ->
    shape (sequential ms x) = lead ++ [o].
Proof.
  intros (Hlin & Hln & Hact & _). unfold sequential.
  induction ms as [|m ms IH]; intros i o x lead Hm Hx; simpl in *.
  - subst. assumption.
  - destruct m as [|l|a]; simpl.
    + apply (IH i); [assumption|]. rewrite Hln. assumption.
    + destruct Hm as [Hi Hm]. apply (IH _ _ _ _ Hm). apply Hlin. rewrite Hi. assumption.
    + apply (IH i); [assumption|]. rewrite Hact. assumption.
Qed.

Lemma hidden_layers_maps cfg h k :
  linear_new_as_asked ->
  forall i g,
    (i + Z.of_nat k = Config.num_layers cfg)%Z -> k <> 0 ->
    maps_width (fst (hidden_layers cfg h k i g)) h 1.
Proof.
  intros Hnew. induction k as [|k IH]; intros i g Hi Hk; [congruence|].
  simpl.
  pose proof (Hnew g h (if (i =? Config.num_layers cfg - 1)%Z then 1 else h)
                   (Config.bias cfg)) as Hl.
  destruct (linear_new _ _ _ _) as [l g1]. simpl in Hl. destruct Hl as (Hin & Hw & _).
  specialize (IH (i + 1)%Z g1).
  destruct (hidden_layers cfg h k (i + 1) g1) as [rest g2] eqn:Hrest. simpl in *.
  split; [assumption|]. rewrite Hw. simpl. destruct k as [|k].
  - simpl in Hrest. inversion Hrest; subst. simpl.
    destruct (i =? Config.num_layers cfg - 1)%Z eqn:Ht; [reflexivity|].
    apply Z.eqb_neq in Ht. lia.
  - destruct (i =? Config.num_layers cfg - 1)%Z eqn:Ht; [apply Z.eqb_eq in Ht; lia|].
    apply IH; [lia|discriminate].
Qed.

Lemma init_maps cfg n g :
  linear_new_as_asked -> maps_width (probe (fst (init cfg n g))) n 1.
Proof.
  intros Hnew. unfold init. fold (hidden_width cfg n).
  set (h := hidden_width cfg n).
  pose proof (Hnew g n (if (Config.num_layers cfg <? 2)%Z then 1 else h) (Config.bias cfg))
    as Hl.
  destruct (linear_new _ _ _ _) as [l0 g1]. simpl in Hl. destruct Hl as (Hin & Hw & _).
  destruct (Z.to_nat (Config.num_layers cfg - 1)) as [|k] eqn:Hk.
  - simpl hidden_layers. cbv iota beta. simpl probe. rewrite app_nil_r.
    assert ((Config.num_layers cfg <? 2)%Z = true) as Ht by (apply Z.ltb_lt; lia).
    rewrite Ht in Hw.
    destruct (Config.pre_ln cfg); simpl; rewrite Hw; auto.
  - pose proof (@hidden_layers_maps cfg h (S k) Hnew 1%Z g1) as Hrest.
    destruct (hidden_layers cfg h (S k) 1 g1) as [rest g2]. simpl fst in Hrest. simpl probe.
    assert ((Config.num_layers cfg <? 2)%Z = false) as Hf by (apply Z.ltb_ge; lia).
    rewrite Hf in Hw.
    apply maps_width_app with (j := h).
    + destruct (Config.pre_ln cfg); simpl; rewrite Hw; auto.
    + apply Hrest; [lia|discriminate].
Qed.


End ForwardShape.

(** * The properties on the small instance *)

Module Examples.

Import Toy.

Lemma pairing {A B} (p : A * B) : p = (fst p, snd p).
Proof. destruct p; reflexivity. Qed.




(** On the contrast pair as a list of two groups, the Adam driver raises
    at its first evaluation and leaves the reporter as it was; the LBFGS
    driver returns. *)
Lemma adam_driver_forwards_the_list_witness :
  trainm_loop_adam [x_neg; x_pos] None w_adam = (Raise TypeError, w_adam) /\
  returned (fst (trainm_loop_lbfgs [x_neg; x_pos] None w_adam)) = true.
Proof.
  split.
  - exact (proj2 (proj2 (adam_driver_forwards_the_list [x_neg; x_pos] None))
                 w_adam 0 eq_refl).
  - vm_compute. reflexivity.
Defined.

(** The line search calls the closure twice; the driver returns the loss
    stored by the second call, not the regularised value that call
    returned to the optimiser. *)
Lemma lbfgs_returns_stored_loss_example :
  let run := trainm_loop_lbfgs [x_neg; x_pos] None w_adam in
  let calls :=
    closure_calls (lbfgs_step (Config.num_epochs (config (self w_adam)))
                              (finfo_eps x_neg) (parameters (self w_adam)))
                  (eval_groups [x_neg; x_pos] None) (self w_adam) in
  length calls = 2 /\
  fst run = Ok (float_of_loss (last (map stored calls) None)) /\
  map (fun c => match snd c with
                | Ok (regularized, _, l) => negb (SFeqb regularized l)
                | Raise _ => false
                end) calls = [true; true].
Proof. repeat split; vm_compute; reflexivity. Qed.

(** Two rows of a single variant with two labels: the two-group form
    raises [IndexError]; the multi-group form returns the blend of the
    cross-entropy of the maximum over the groups and the unsupervised
    loss. *)
Lemma loss_single_variant_witness :
  loss r_supervised narrow_a narrow_b (Some two_labels) = Raise IndexError /\
  rbind (unsupervised_lossm r_supervised [narrow_a; narrow_b])
        (fun u =>
           Ok (blend quarter
                     (bce (group_consensus 2 1 narrow_a [narrow_b])
                          (broadcast_labels 1 two_labels))
                     u))
  = lossm r_supervised [narrow_a; narrow_b] (Some two_labels) /\
  returned (lossm r_supervised [narrow_a; narrow_b] (Some two_labels)) = true.
Proof.
  split.
  - refine (@loss_single_variant _ _ r_supervised narrow_a narrow_b two_labels 2 2 _
              eq_refl eq_refl eq_refl eq_refl eq_refl _ _).
    + lia.
    + vm_compute. reflexivity.
  - split; vm_compute; reflexivity.
Defined.

(** Logits of two variants: both forms blend the two terms. *)
Lemma loss_blends_supervised_term_example :
  loss r_supervised logit_a logit_b (Some two_labels) =
  Ok (blend quarter
            (bce (pair_consensus 2 2 logit_a logit_b) (broadcast_labels 2 two_labels))
            (value_of (unsupervised_loss r_supervised logit_a logit_b))) /\
  lossm r_supervised [logit_a; logit_b] (Some two_labels) =
  Ok (blend quarter
            (bce (group_consensus 2 2 logit_a [logit_b]) (broadcast_labels 2 two_labels))
            (value_of (unsupervised_lossm r_supervised [logit_a; logit_b]))).
Proof.
  split.
  - refine (proj1 (proj1 (proj2 (@loss_blends_supervised_term _ _ r_supervised two_labels
                                   2 _ eq_refl eq_refl))
                         logit_a logit_b 2 2 eq_refl eq_refl eq_refl eq_refl _ _ _)).
    + discriminate.
    + lia.
    + vm_compute. reflexivity.
  - refine (proj1 (proj2 (proj2 (@loss_blends_supervised_term _ _ r_supervised two_labels
                                   2 _ eq_refl eq_refl))
                         logit_a [logit_b] 2 2 _ _ _)).
    + repeat constructor.
    + lia.
    + vm_compute. reflexivity.
Defined.


Lemma predictions_returned r :
  returned r = true -> r = Ok (fst (predictions_of r), snd (predictions_of r)).
Proof. destruct r as [[a b]|e]; simpl; [reflexivity|discriminate]. Qed.




Lemma returned_value (r : result pyfloat) : returned r = true -> r = Ok (value_of r).
Proof. destruct r; simpl; [reflexivity|discriminate]. Qed.


Lemma run_returned (m : M pyfloat) w :
  returned (fst (m w)) = true -> m w = (Ok (value_of (fst (m w))), snd (m w)).
Proof. intros H. rewrite <- (returned_value _ H). apply pairing. Qed.

(** The pseudo-labels of the pair of the instance, one row of two
    variants each: two zeros, then two ones. *)
Lemma pseudo_predictions_on_batches_witness :
  data (fst (predictions_of (pseudo_predictions r_plain train_pair train_pair)))
  = map PyFloat.of_Z [0; 0; 1; 1]%Z.
Proof.
  rewrite (@pseudo_predictions_on_batches _ _ r_plain train_pair train_pair 1 1 1 1 2 0
             eq_refl eq_refl eq_refl eq_refl eq_refl eq_refl eq_refl eq_refl).
  reflexivity.
Defined.

(** [fit] returned on the instance: under the LBFGS driver, with the
    initialisation "default", three restarts, the term "ccs" and the
    supervised weight 0. *)
Lemma fit_returns_only_when_witness :
  Config.optimizer (config (self w_lbfgs)) = Lbfgs /\
  (1 <= Config.num_tries (config (self w_lbfgs)))%Z /\
  registered (config (self w_lbfgs)) /\
  PyFloat.ltb PyFloat.zero (Config.supervised_weight (config (self w_lbfgs))) = false.
Proof.
  assert (returned (fst (fit hiddens4 None w_lbfgs)) = true) as Hr
      by (vm_compute; reflexivity).
  destruct (fit_returns_only_when hiddens4 None w_lbfgs (run_returned _ _ Hr))
    as (Ho & _ & Ht & Hreg & Hsw).
  repeat split; auto; apply Hreg.
Defined.

(** [fitold] returned on the instance under the Adam driver, with one
    epoch. *)
Lemma fitold_returns_only_when_witness :
  (Config.optimizer (config (self w_adam)) = Lbfgs \/
   (Config.optimizer (config (self w_adam)) = Adam /\
    (1 <= Config.num_epochs (config (self w_adam)))%Z)) /\
  (1 <= Config.num_tries (config (self w_adam)))%Z /\
  registered (config (self w_adam)).
Proof.
  assert (returned (fst (fitold hiddens2 None w_adam)) = true) as Hr
      by (vm_compute; reflexivity).
  destruct (fitold_returns_only_when hiddens2 None w_adam (run_returned _ _ Hr))
    as (Ho & _ & Ht & Hreg & _).
  auto.
Defined.

(** On three groups [fit] raises, and has fitted the first three
    normalisers, each on its group: the normaliser of the instance keeps
    the first entry of the tensor it is fitted on. *)
Lemma fit_refits_normalizers_witness :
  fst (fit hiddens3 None w_lbfgs) = Raise IndexError /\
  norms (self (snd (fit hiddens3 None w_lbfgs))) = map PyFloat.of_Z [1; 2; 3; 0]%Z.
Proof.
  split; [vm_compute; reflexivity|].
  refine (proj1 (@fit_refits_normalizers _ _ hiddens3 None
                   [vec [1; 2; 1] [1; 4]%Z; vec [1; 2; 1] [2; 5]%Z; vec [1; 2; 1] [3; 6]%Z]
                   w_lbfgs _ _ eq_refl eq_refl (pairing _))).
Defined.

(** Three groups: [fitold] raises [ValueError] and changes nothing. *)
Lemma fitold_needs_two_groups_witness :
  fitold hiddens3 None w_lbfgs = (Raise ValueError, w_lbfgs).
Proof.
  refine (proj1 (fitold_needs_two_groups hiddens3 None w_lbfgs) 1 2 3 [1] eq_refl _).
  discriminate.
Defined.


(** An empty loss specification, and one that names the unregistered
    term "margin". *)
Lemma loss_specification_errors_witness :
  loss (reporter_of (cfg_of InitDefault true false 1 []) 1) logit_a logit_b None
  = Raise TypeError /\
  lossm (reporter_of (cfg_of InitDefault true false 1 unknown_term) 1)
        [logit_a; logit_b] (Some two_labels)
  = Raise KeyError.
Proof.
  split.
  - exact (proj2 (proj1 (proj1 (loss_specification_errors
                                  (reporter_of (cfg_of InitDefault true false 1 []) 1))
                               eq_refl)
                        logit_a logit_b None)).
  - refine (proj2 (proj2 (proj1 (proj2 (loss_specification_errors
                                          (reporter_of (cfg_of InitDefault true false 1
                                                                   unknown_term) 1)))
                                _)
                         [logit_a; logit_b] (Some two_labels))).
    apply Exists_cons_tl. apply Exists_cons_hd. reflexivity.
Defined.

(** Three labels for logits of two rows. *)
Lemma too_many_labels_witness :
  loss r_plain logit_a logit_b (Some three_labels) = Raise AssertionError /\
  lossm r_plain [logit_a; logit_b] (Some three_labels) = Raise AssertionError.
Proof.
  split.
  - refine (proj1 (@too_many_labels _ _ r_plain three_labels 3 [] eq_refl)
                  logit_a logit_b 2 [2]
                  (value_of (unsupervised_loss r_plain logit_a logit_b)) eq_refl _
                  (returned_value _ _)).
    + lia.
    + vm_compute. reflexivity.
  - refine (proj1 (proj2 (@too_many_labels _ _ r_plain three_labels 3 [] eq_refl))
                  logit_a [logit_b] 2 [2]
                  (value_of (unsupervised_lossm r_plain [logit_a; logit_b])) eq_refl _
                  (returned_value _ _)).
    + lia.
    + vm_compute. reflexivity.
Defined.

Lemma toy_linear_new : linear_new_as_asked.
Proof.
  intros g i o b. destruct b; simpl; repeat split; intros; try discriminate; reflexivity.
Qed.



(** A linear probe on two features: with a bias the call returns, and
    without one it raises [AttributeError]. *)
Lemma spherical_init_splits_unit_vector_witness :
  returned (fst (reset_parameters (world_of (cfg_of InitSpherical true false 1 one_term) 2)))
  = true /\
  fst (reset_parameters (world_of (cfg_of InitSpherical false false 1 one_term) 2))
  = Raise AttributeError.
Proof.
  split.
  - destruct (proj1 (@spherical_init_splits_unit_vector elem torch
                       (world_of (cfg_of InitSpherical true false 1 one_term) 2)
                       (fst (fresh_linear 5 2 1 true)) (fst (@randn elem torch 7%Z [1; 3])) 8%Z
                       eq_refl eq_refl eq_refl eq_refl)
                    (@mkT elem [1] [PyFloat.zero]) eq_refl) as (wt & bs & H & _).
    rewrite H. reflexivity.
  - rewrite (proj2 (@spherical_init_splits_unit_vector elem torch
                      (world_of (cfg_of InitSpherical false false 1 one_term) 2)
                      (fst (fresh_linear 5 2 1 false)) (fst (@randn elem torch 7%Z [1; 3])) 8%Z
                      eq_refl eq_refl eq_refl eq_refl)
                   eq_refl).
    reflexivity.
Defined.

(** The initialisation "zero" on the instance. *)
Lemma zero_init_zeroes_all_parameters_witness :
  exists w',
    reset_parameters (world_of (cfg_of InitZero true false 1 one_term) 1) = (Ok tt, w') /\
    scale (self w')
    = zeros_like (scale (self (world_of (cfg_of InitZero true false 1 one_term) 1))).
Proof.
  destruct (zero_init_zeroes_all_parameters
              (world_of (cfg_of InitZero true false 1 one_term) 1) eq_refl)
    as (w' & H & _ & _ & Hs & _).
  exists w'. split; assumption.
Defined.

(** The initialisation "default" on three layers behind a [LayerNorm]
    keeps the six modules. *)
Lemma reset_parameters_keeps_architecture_witness :
  map kind_of
      (probe (self (snd (reset_parameters
                           (world_of (cfg_of InitDefault true true 3 one_term) 3)))))
  = [KNorm; KLinear; KAct Relu; KLinear; KAct Relu; KLinear].
Proof.
  exact (proj1 (reset_parameters_keeps_architecture
                  (world_of (cfg_of InitDefault true true 3 one_term) 3)
                  (pairing _))).
Defined.

(** A linear probe behind a [LayerNorm], with "pca": [fitold] raises
    [AttributeError]. *)
Lemma fitold_pca_behind_layer_norm_witness :
  (exists e,
      fst (fitold hiddens2 None (world_of (cfg_of InitPca true true 1 one_term) 1))
      = Raise e) /\
  fst (fitold hiddens2 None (world_of (cfg_of InitPca true true 1 one_term) 1))
  = Raise AttributeError.
Proof.
  split; [|vm_compute; reflexivity].
  exact (@fitold_pca_behind_layer_norm _ _ hiddens2 None
           (world_of (cfg_of InitPca true true 1 one_term) 1)
           [Lin (fst (fresh_linear 5 1 1 true))] _ _ eq_refl eq_refl (pairing _)).
Defined.

(** With the initialisation "zero", [fit] leaves the random state at its
    value on entry. *)
Lemma fit_draws_only_to_initialise_witness :
  returned (fst (fit hiddens4 None (world_of (cfg_of InitZero true false 1 one_term) 1)))
  = true /\
  rng (snd (fit hiddens4 None (world_of (cfg_of InitZero true false 1 one_term) 1)))
  = 7%Z.
Proof.
  split; [vm_compute; reflexivity|].
  refine (proj1 (proj2 (proj2 fit_draws_only_to_initialise)) hiddens4 None
                (world_of (cfg_of InitZero true false 1 one_term) 1) _ _ _ (pairing _)).
  split; discriminate.
Defined.

Lemma wide_linear_new : @linear_new_as_asked elem torch_wide.
Proof.
  intros g i o b. destruct b; simpl; repeat split; intros; try discriminate; reflexivity.
Qed.

Lemma wide_layers_keep : @layers_keep_leading_axes elem torch_wide.
Proof.
  repeat split. intros l x lead Hx. simpl. unfold linear_any. simpl.
  rewrite Hx, removelast_last. reflexivity.
Qed.


End Examples.
